(** * Verification of the 1688 batch extraction pipeline

    A shallow embedding of [simple_batch_1688.py] (class [SimpleBatch1688]),
    of the parts of [batch_1688.py] (class [Batch1688Crawler]) that differ
    from it, and of [Enhanced1688Crawler.human_simulate], together with the
    properties of the batch orchestrator, the field extractors, the image
    collector, the anti-bot gate and the behaviour simulator.

    Python [str] values are sequences of Unicode code points and are modelled
    as [list N]; the browser is an oracle ([Page], [World]) that fixes the
    outcome of every driver call, including the calls that raise. *)

From Stdlib Require Import List ZArith NArith Bool Lia String Ascii Permutation Sorted.
From stdpp Require Import base gmap sets list.

Import ListNotations.
Open Scope Z_scope.

(** ** Python text *)

Module Py.

(** A Python [str]: the sequence of its code points. *)
Definition str := list N.

(** Source literals are written as UTF-8 text and decoded to code points. *)
Fixpoint utf8 (s : string) : str :=
  match s with
  | EmptyString => []
  | String a s1 =>
    let b := N_of_ascii a in
    if (b <? 128)%N then b :: utf8 s1
    else match s1 with
    | EmptyString => [b]
    | String a2 s2 =>
      let b2 := N.land (N_of_ascii a2) 63 in
      if (b <? 224)%N then (N.land b 31 * 64 + b2)%N :: utf8 s2
      else match s2 with
      | EmptyString => [b]
      | String a3 s3 =>
        let b3 := N.land (N_of_ascii a3) 63 in
        if (b <? 240)%N then (N.land b 15 * 4096 + b2 * 64 + b3)%N :: utf8 s3
        else match s3 with
        | EmptyString => [b]
        | String a4 s4 =>
          let b4 := N.land (N_of_ascii a4) 63 in
          (N.land b 7 * 262144 + b2 * 4096 + b3 * 64 + b4)%N :: utf8 s4
        end
      end
    end
  end.

Abbreviation U s := (utf8 s) (only parsing).

Definition str_eqb (a b : str) : bool := bool_decide (a = b).

(** [bool(s)]: a string is truthy when it is not empty. *)
Definition truthy (s : str) : bool :=
  match s with [] => false | _ => true end.

(** [s.startswith(p)]. *)
Fixpoint startswith (s p : str) : bool :=
  match p, s with
  | [], _ => true
  | c :: p1, d :: s1 => (c =? d)%N && startswith s1 p1
  | _ :: _, [] => false
  end.

(** [needle in hay] on strings: substring test. *)
Fixpoint contains (needle hay : str) : bool :=
  startswith hay needle ||
  match hay with
  | [] => false
  | _ :: hay1 => contains needle hay1
  end.

(** [any(x in s for x in xs)]. *)
Definition any_in (xs : list str) (s : str) : bool :=
  existsb (fun x => contains x s) xs.

Definition in_ranges (t : list (N * N)) (c : N) : bool :=
  existsb (fun r => (fst r <=? c)%N && (c <? fst r + snd r)%N) t.

(** [str.isspace] on one character, which is also the class [\s] of [re]
    for [str] patterns (Unicode 14, CPython 3.11): start and length of each
    run of whitespace code points. *)
Definition space_table : list (N * N) :=
  [(9, 5); (28, 5); (133, 1); (160, 1); (5760, 1); (8192, 11); (8232, 2);
   (8239, 1); (8287, 1); (12288, 1)]%N.

Definition is_space (c : N) : bool := in_ranges space_table c.

(** Unicode category Nd, the class [\d] of [re] for [str] patterns and the
    digits [int] accepts (Unicode 14): start and length of each run; the
    digit value of a character is its offset in the run modulo ten. *)
Definition decimal_table : list (N * N) :=
  [(48, 10); (1632, 10); (1776, 10); (1984, 10); (2406, 10); (2534, 10);
   (2662, 10); (2790, 10); (2918, 10); (3046, 10); (3174, 10); (3302, 10);
   (3430, 10); (3558, 10); (3664, 10); (3792, 10); (3872, 10); (4160, 10);
   (4240, 10); (6112, 10); (6160, 10); (6470, 10); (6608, 10); (6784, 10);
   (6800, 10); (6992, 10); (7088, 10); (7232, 10); (7248, 10); (42528, 10);
   (43216, 10); (43264, 10); (43472, 10); (43504, 10); (43600, 10);
   (44016, 10); (65296, 10); (66720, 10); (68912, 10); (69734, 10);
   (69872, 10); (69942, 10); (70096, 10); (70384, 10); (70736, 10);
   (70864, 10); (71248, 10); (71360, 10); (71472, 10); (71904, 10);
   (72016, 10); (72784, 10); (73040, 10); (73120, 10); (92768, 10);
   (92864, 10); (93008, 10); (120782, 50); (123200, 10); (123632, 10);
   (125264, 10); (130032, 10)]%N.

Definition is_decimal (c : N) : bool := in_ranges decimal_table c.

Fixpoint digit_in (t : list (N * N)) (c : N) : option Z :=
  match t with
  | [] => None
  | (a, n) :: t1 =>
    if (a <=? c)%N && (c <? a + n)%N then Some (Z.of_N ((c - a) mod 10))
    else digit_in t1 c
  end.

Definition digit_value (c : N) : option Z := digit_in decimal_table c.

(** Simple lower-case mapping of one character (Unicode 14): runs
    [(start, count, stride, delta)] of characters [start + i * stride],
    [i < count], each mapped to itself plus [delta]. *)
Definition lower_table : list (Z * Z * Z * Z) :=
  [(65, 26, 1, 32); (192, 23, 1, 32); (216, 7, 1, 32); (256, 24, 2, 1);
   (306, 3, 2, 1); (313, 8, 2, 1); (330, 23, 2, 1); (376, 1, 1, -121);
   (377, 3, 2, 1); (385, 1, 1, 210); (386, 2, 2, 1); (390, 1, 1, 206);
   (391, 1, 1, 1); (393, 2, 1, 205); (395, 1, 1, 1); (398, 1, 1, 79);
   (399, 1, 1, 202); (400, 1, 1, 203); (401, 1, 1, 1); (403, 1, 1, 205);
   (404, 1, 1, 207); (406, 1, 1, 211); (407, 1, 1, 209); (408, 1, 1, 1);
   (412, 1, 1, 211); (413, 1, 1, 213); (415, 1, 1, 214); (416, 3, 2, 1);
   (422, 1, 1, 218); (423, 1, 1, 1); (425, 1, 1, 218); (428, 1, 1, 1);
   (430, 1, 1, 218); (431, 1, 1, 1); (433, 2, 1, 217); (435, 2, 2, 1);
   (439, 1, 1, 219); (440, 1, 1, 1); (444, 1, 1, 1); (452, 1, 1, 2);
   (453, 1, 1, 1); (455, 1, 1, 2); (456, 1, 1, 1); (458, 1, 1, 2);
   (459, 9, 2, 1); (478, 9, 2, 1); (497, 1, 1, 2); (498, 2, 2, 1);
   (502, 1, 1, -97); (503, 1, 1, -56); (504, 20, 2, 1); (544, 1, 1, -130);
   (546, 9, 2, 1); (570, 1, 1, 10795); (571, 1, 1, 1); (573, 1, 1, -163);
   (574, 1, 1, 10792); (577, 1, 1, 1); (579, 1, 1, -195); (580, 1, 1, 69);
   (581, 1, 1, 71); (582, 5, 2, 1); (880, 2, 2, 1); (886, 1, 1, 1);
   (895, 1, 1, 116); (902, 1, 1, 38); (904, 3, 1, 37); (908, 1, 1, 64);
   (910, 2, 1, 63); (913, 17, 1, 32); (931, 9, 1, 32); (975, 1, 1, 8);
   (984, 12, 2, 1); (1012, 1, 1, -60); (1015, 1, 1, 1); (1017, 1, 1, -7);
   (1018, 1, 1, 1); (1021, 3, 1, -130); (1024, 16, 1, 80); (1040, 32, 1, 32);
   (1120, 17, 2, 1); (1162, 27, 2, 1); (1216, 1, 1, 15); (1217, 7, 2, 1);
   (1232, 48, 2, 1); (1329, 38, 1, 48); (4256, 38, 1, 7264);
   (4295, 1, 1, 7264); (4301, 1, 1, 7264); (5024, 80, 1, 38864);
   (5104, 6, 1, 8); (7312, 43, 1, -3008); (7357, 3, 1, -3008);
   (7680, 75, 2, 1); (7838, 1, 1, -7615); (7840, 48, 2, 1); (7944, 8, 1, -8);
   (7960, 6, 1, -8); (7976, 8, 1, -8); (7992, 8, 1, -8); (8008, 6, 1, -8);
   (8025, 4, 2, -8); (8040, 8, 1, -8); (8072, 8, 1, -8); (8088, 8, 1, -8);
   (8104, 8, 1, -8); (8120, 2, 1, -8); (8122, 2, 1, -74); (8124, 1, 1, -9);
   (8136, 4, 1, -86); (8140, 1, 1, -9); (8152, 2, 1, -8); (8154, 2, 1, -100);
   (8168, 2, 1, -8); (8170, 2, 1, -112); (8172, 1, 1, -7);
   (8184, 2, 1, -128); (8186, 2, 1, -126); (8188, 1, 1, -9);
   (8486, 1, 1, -7517); (8490, 1, 1, -8383); (8491, 1, 1, -8262);
   (8498, 1, 1, 28); (8544, 16, 1, 16); (8579, 1, 1, 1); (9398, 26, 1, 26);
   (11264, 48, 1, 48); (11360, 1, 1, 1); (11362, 1, 1, -10743);
   (11363, 1, 1, -3814); (11364, 1, 1, -10727); (11367, 3, 2, 1);
   (11373, 1, 1, -10780); (11374, 1, 1, -10749); (11375, 1, 1, -10783);
   (11376, 1, 1, -10782); (11378, 1, 1, 1); (11381, 1, 1, 1);
   (11390, 2, 1, -10815); (11392, 50, 2, 1); (11499, 2, 2, 1);
   (11506, 1, 1, 1); (42560, 23, 2, 1); (42624, 14, 2, 1); (42786, 7, 2, 1);
   (42802, 31, 2, 1); (42873, 2, 2, 1); (42877, 1, 1, -35332);
   (42878, 5, 2, 1); (42891, 1, 1, 1); (42893, 1, 1, -42280);
   (42896, 2, 2, 1); (42902, 10, 2, 1); (42922, 1, 1, -42308);
   (42923, 1, 1, -42319); (42924, 1, 1, -42315); (42925, 1, 1, -42305);
   (42926, 1, 1, -42308); (42928, 1, 1, -42258); (42929, 1, 1, -42282);
   (42930, 1, 1, -42261); (42931, 1, 1, 928); (42932, 8, 2, 1);
   (42948, 1, 1, -48); (42949, 1, 1, -42307); (42950, 1, 1, -35384);
   (42951, 2, 2, 1); (42960, 1, 1, 1); (42966, 2, 2, 1); (42997, 1, 1, 1);
   (65313, 26, 1, 32); (66560, 40, 1, 40); (66736, 36, 1, 40);
   (66928, 11, 1, 39); (66940, 15, 1, 39); (66956, 7, 1, 39);
   (66964, 2, 1, 39); (68736, 51, 1, 64); (71840, 32, 1, 32);
   (93760, 32, 1, 32); (125184, 34, 1, 34)]%Z.

Fixpoint lower_in (t : list (Z * Z * Z * Z)) (c : Z) : Z :=
  match t with
  | [] => c
  | (a, n, k, d) :: t1 =>
    if (a <=? c) && (c <? a + n * k) && ((c - a) mod k =? 0)
    then c + d
    else lower_in t1 c
  end.

(** The simple lower-case mapping; U+0130 goes to [i]. *)
Definition lower_char (c : N) : N :=
  if (c =? 304)%N then 105%N else Z.to_N (lower_in lower_table (Z.of_N c)).

(** [s.lower()]. U+0130 lowers to the two characters [i] U+0307. Python
    lowers U+03A3 to U+03C2 rather than U+03C3 at the end of a word; this
    model always yields U+03C3. *)
Definition lower (s : str) : str :=
  flat_map (fun c => if (c =? 304)%N then [105; 775]%N else [lower_char c]) s.

Fixpoint skip_while (p : N -> bool) (s : str) : str :=
  match s with
  | c :: s1 => if p c then skip_while p s1 else s
  | [] => []
  end.

(** [s.lstrip()]. *)
Definition lstrip (s : str) : str := skip_while is_space s.

(** [s.strip()]. *)
Definition strip (s : str) : str := rev (lstrip (rev (lstrip s))).

(** Whitespace [int] skips around a number: the ASCII blanks, and the
    non-ASCII characters of [str.isspace]. *)
Definition int_space (c : N) : bool :=
  ((9 <=? c)%N && (c <=? 13)%N) || (c =? 32)%N || ((127 <=? c)%N && is_space c).

(** Digits after the first one; single underscores may separate digits. *)
Fixpoint int_digits (acc : Z) (s : str) : option (Z * str) :=
  match s with
  | [] => Some (acc, [])
  | c :: s1 =>
    match digit_value c with
    | Some d => int_digits (acc * 10 + d) s1
    | None =>
      if (c =? 95)%N then
        match s1 with
        | c2 :: s2 =>
          match digit_value c2 with
          | Some d => int_digits (acc * 10 + d) s2
          | None => None
          end
        | [] => None
        end
      else Some (acc, s)
    end
  end.

Definition int_unsigned (s : str) : option Z :=
  match s with
  | c :: s1 =>
    match digit_value c with
    | Some d =>
      match int_digits d s1 with
      | Some (n, rest) => if forallb int_space rest then Some n else None
      | None => None
      end
    | None => None
    end
  | [] => None
  end.

(** [int(s)] for a string [s]; [None] stands for [ValueError]. The limit
    on the number of digits (4300 by default since CPython 3.11) is not
    modelled. *)
Definition int (s : str) : option Z :=
  match skip_while int_space s with
  | 43%N :: s1 => int_unsigned s1
  | 45%N :: s1 => Z.opp <$> int_unsigned s1
  | s1 => int_unsigned s1
  end.

Arguments utf8 : simpl never.
Arguments startswith : simpl never.
Arguments contains : simpl never.
Arguments any_in : simpl never.
Arguments lower : simpl never.
Arguments strip : simpl never.
Arguments int : simpl never.

End Py.

(** ** Regular expressions

    The fragment of [re] the crawler uses, with the backtracking semantics
    of the library: alternatives are tried left to right and repetition is
    greedy. *)

Module Re.
Import Py.

Inductive re :=
| Eps
| Chr (p : N -> bool)
| Cat (r1 r2 : re)
| Alt (r1 r2 : re)
| Star (r : re).

Definition Plus (r : re) : re := Cat r (Star r).

Definition Lit (c : N) : re := Chr (N.eqb c).

(** A literal letter of a pattern compiled with [re.IGNORECASE]: a
    character matches when its simple lower case is the letter, or the
    dotless i for [i], or the long s for [s]. *)
Definition ignorecase (c x : N) : bool :=
  let l := lower_char x in
  (l =? c)%N || ((c =? 105)%N && (l =? 305)%N) || ((c =? 115)%N && (l =? 383)%N).

Definition LitI (c : N) : re := Chr (ignorecase c).

(** A literal string, and one under [re.IGNORECASE]. *)
Definition Str (s : str) : re := fold_right (fun c r => Cat (Lit c) r) Eps s.
Definition StrI (s : str) : re := fold_right (fun c r => Cat (LitI c) r) Eps s.

Definition Alts (rs : list re) : re :=
  match rs with
  | [] => Eps
  | r :: rs1 => fold_left Alt rs1 r
  end.

(** [\d] and [\s]. *)
Definition Digit : re := Chr is_decimal.
Definition Space : re := Chr is_space.

(** [exec r s k]: match [r] at the start of [s] and hand the rest of the
    text to [k]; when [k] fails, the next way of matching [r] is tried. *)
Fixpoint exec {A} (r : re) (s : str) (k : str -> option A) : option A :=
  match r with
  | Eps => k s
  | Chr p =>
    match s with
    | c :: s1 => if p c then k s1 else None
    | [] => None
    end
  | Cat r1 r2 => exec r1 s (fun s1 => exec r2 s1 k)
  | Alt r1 r2 =>
    match exec r1 s k with
    | Some x => Some x
    | None => exec r2 s k
    end
  | Star r1 =>
    (fix loop (n : nat) (s : str) : option A :=
       match n with
       | O => k s
       | S n1 =>
         match exec r1 s (fun s1 =>
                 if (length s1 <? length s)%nat then loop n1 s1 else None) with
         | Some x => Some x
         | None => k s
         end
       end) (length s) s
  end.

(** The text matched by [r] at the start of [s], if any. *)
Definition match_prefix (r : re) (s : str) : option str :=
  exec r s (fun rest => Some (take (length s - length rest)%nat s)).

(** [re.findall(r, s)] for a pattern without groups: the matches found
    scanning left to right, each search resuming where the previous match
    ended ([skip] counts the characters of the previous match still to
    pass). *)
Fixpoint scan (r : re) (s : str) (skip : nat) : list str :=
  match s with
  | [] =>
    match skip, match_prefix r [] with
    | O, Some m => [m]
    | _, _ => []
    end
  | _ :: s1 =>
    match skip with
    | S n => scan r s1 n
    | O =>
      match match_prefix r s with
      | Some m => m :: scan r s1 (length m - 1)
      | None => scan r s1 O
      end
    end
  end.

Definition findall (r : re) (s : str) : list str := scan r s O.

(** [re.search(pre(grp), s).group(1)] for a pattern made of a prefix
    followed by one group: the text of the group in the leftmost match,
    [None] when there is no match. *)
Fixpoint search_group (pre grp : re) (s : str) : option str :=
  match exec pre s (fun s1 => match_prefix grp s1) with
  | Some g => Some g
  | None =>
    match s with
    | [] => None
    | _ :: s1 => search_group pre grp s1
    end
  end.

End Re.

(** ** The browser

    Every call on the Selenium driver or on a [WebElement] has its outcome
    fixed by the model: a value, or the exception it raises. *)

Module Selenium.
Import Py.

Inductive exn :=
| NoSuchElementException
| StaleElementReferenceException
| JavascriptException
| TimeoutException
| WebDriverException
| EOFError
| ZeroDivisionError.

Inductive Exc (A : Type) :=
| Ok (a : A)
| Raise (e : exn).
Arguments Ok {A} a.
Arguments Raise {A} e.

Definition exc_bind {A B} (x : Exc A) (f : A -> Exc B) : Exc B :=
  match x with
  | Ok a => f a
  | Raise e => Raise e
  end.

#[global] Instance Exc_ret : MRet Exc := @Ok.
#[global] Instance Exc_bind : MBind Exc := fun A B f x => exc_bind x f.

(** An [img] element: [get_attribute] returns a string or [None]. *)
Record Img := { get_attribute : str -> Exc (option str) }.

(** Any other element: its [text], and the [img] elements below it
    ([find_elements(By.TAG_NAME, "img")]). *)
Record Element := {
  text : Exc str;
  find_imgs : Exc (list Img)
}.

(** A [tr] with its [td] cells, and a [table] with its rows. *)
Record Row := { cells : Exc (list Element) }.
Record Table := { rows : Exc (list Row) }.

(** The document at one instant, as the driver's queries see it. *)
Record Page := {
  current_url : Exc str;
  title : Exc str;
  page_source : Exc str;
  (** [find_elements(By.CSS_SELECTOR, selector)] *)
  css : str -> Exc (list Element);
  (** [find_element(By.TAG_NAME, "body")] *)
  body : Exc Element;
  (** [find_elements(By.XPATH, "//*[contains(text(), 'keyword')]")] *)
  xpath_contains_text : str -> Exc (list Element);
  (** [find_elements(By.TAG_NAME, "table")] and [... "img")] *)
  tables : Exc (list Table);
  imgs : Exc (list Img)
}.

(** [find_element(By.CSS_SELECTOR, selector)]: the first match. *)
Definition find_element (p : Page) (selector : str) : Exc Element :=
  match css p selector with
  | Ok (e :: _) => Ok e
  | Ok [] => Raise NoSuchElementException
  | Raise e => Raise e
  end.

(** The scripts the crawler runs with [execute_script]. *)
Inductive script :=
| ScrollBy (y : Z)          (* window.scrollBy(0, y); *)
| ScrollTo (y : N)          (* window.scrollTo(0, y); *)
| ScrollToBottom            (* window.scrollTo(0, document.body.scrollHeight); *)
| InnerHeight               (* return window.innerHeight *)
| ScrollHeight.             (* return document.body.scrollHeight *)

(** What a navigation leaves in the driver: the document, which may change
    as time passes, and the result of each script (a height for the two
    scripts that return one). *)
Record Session := {
  document : nat -> Page;
  execute : script -> Exc N
}.

End Selenium.

(** ** Records and the running crawler *)

Module Runtime.
Import Py Selenium.

(** One entry of the list [extract_images] builds: a dictionary with these
    six keys, all strings. *)
Record image := {
  url : str;
  alt : str;
  width : str;
  height : str;
  class : str;
  source : str
}.

(** A size as [batch_1688.py] stores it, [get_attribute(name) or 0]: the
    attribute, or the integer zero. *)
Inductive size :=
| Declared (s : str)
| Zero.

(** One entry of the list [Batch1688Crawler.extract_images] builds: a
    dictionary with these four keys. *)
Record image_info := {
  info_url : str;
  info_alt : str;
  info_width : size;
  info_height : size
}.

(** The values stored in a product dictionary. *)
Inductive value :=
| VNone
| VInt (n : Z)
| VStr (s : str)
| VList (l : list str)
| VImages (l : list image)
| VImageInfos (l : list image_info)
| VDict (d : gmap str str)
| VLists (d : gmap str (list str)).

(** A product dictionary, [product_info]. *)
Abbreviation product := (gmap str value).

(** The files the crawler writes. *)
Inductive file :=
| ProductJson (index : Z) (data : product)
| BatchJson (data : list product)
| BatchCsv (data : list product).

(** What the operator does at an [input()] prompt. *)
Inductive reaction :=
| Line (s : str)   (* presses return *)
| Eof              (* the input is closed: EOFError *)
| Silent.          (* never answers *)

(** What a run does to the outside, in order. *)
Inductive event :=
| Navigate (u : str)
| Execute (s : script)
| Sleep (lo hi : Z)            (* bounds in tenths of a second *)
| CaptchaNotice (keyword : str)
| Prompt
| Write (f : file) (ok : bool)
| Summary (successful_count total_urls : Z) (failed_urls : list (Z * str)).

(** The crawler and its surroundings. Time is the number of events so far:
    [web] gives the outcome of a navigation started at an instant, [now] the
    ISO timestamp read at an instant, [writable] whether a file opened at an
    instant can be written. *)
Record World := {
  web : nat -> str -> Exc Session;
  now : nat -> str;
  writable : nat -> bool;
  session : Session;
  random : list nat;
  stdin : list reaction;
  trace : list event;
  all_products_data : list product
}.

Definition time (w : World) : nat := length (trace w).

Definition emit (e : event) (w : World) : World :=
  {| web := web w; now := now w; writable := writable w; session := session w;
     random := random w; stdin := stdin w; trace := trace w ++ [e];
     all_products_data := all_products_data w |}.

Definition load (s : Session) (w : World) : World :=
  {| web := web w; now := now w; writable := writable w; session := s;
     random := random w; stdin := stdin w; trace := trace w;
     all_products_data := all_products_data w |}.

Definition draw (w : World) : World :=
  {| web := web w; now := now w; writable := writable w; session := session w;
     random := tail (random w); stdin := stdin w; trace := trace w;
     all_products_data := all_products_data w |}.

Definition answered (w : World) : World :=
  {| web := web w; now := now w; writable := writable w; session := session w;
     random := random w; stdin := tail (stdin w); trace := trace w;
     all_products_data := all_products_data w |}.

Definition append_product (d : product) (w : World) : World :=
  {| web := web w; now := now w; writable := writable w; session := session w;
     random := random w; stdin := stdin w; trace := trace w;
     all_products_data := all_products_data w ++ [d] |}.

(** The outcome of a computation: a value, an exception, or no outcome at
    all when it never finishes. *)
Inductive result (A : Type) :=
| Ret (a : A) (w : World)
| Exn (e : exn) (w : World)
| Hang.
Arguments Ret {A} a w.
Arguments Exn {A} e w.
Arguments Hang {A}.

Definition M (A : Type) : Type := World -> result A.

#[global] Instance M_ret : MRet M := fun A a w => Ret a w.
#[global] Instance M_bind : MBind M := fun A B f m w =>
  match m w with
  | Ret a w1 => f a w1
  | Exn e w1 => Exn e w1
  | Hang => Hang
  end.

Definition raise {A} (e : exn) : M A := fun w => Exn e w.

(** [try: m  except: handler]. *)
Definition try_except {A} (m : M A) (handler : exn -> M A) : M A := fun w =>
  match m w with
  | Exn e w1 => handler e w1
  | r => r
  end.

Definition lift {A} (x : Exc A) : M A := fun w =>
  match x with
  | Ok a => Ret a w
  | Raise e => Exn e w
  end.

Definition tell (e : event) : M unit := fun w => Ret tt (emit e w).

(** The document as the driver sees it now. *)
Definition page : M Page := fun w => Ret (document (session w) (time w)) w.

(** [self.driver.get(url)]. *)
Definition driver_get (u : str) : M unit := fun w =>
  match web w (time w) u with
  | Ok s => Ret tt (load s (emit (Navigate u) w))
  | Raise e => Exn e (emit (Navigate u) w)
  end.

(** [self.driver.execute_script(s)]. *)
Definition execute_script (s : script) : M N := fun w =>
  match execute (session w) s with
  | Ok n => Ret n (emit (Execute s) w)
  | Raise e => Exn e (emit (Execute s) w)
  end.

(** [time.sleep(t)] and [time.sleep(random.uniform(lo, hi))]. *)
Definition sleep (lo hi : Z) : M unit := tell (Sleep lo hi).

(** [random.randint(a, b)]. *)
Definition randint (a b : Z) : M Z := fun w =>
  match random w with
  | r :: _ => Ret (a + Z.of_nat r mod (b - a + 1)) (draw w)
  | [] => Ret a w
  end.

(** [input()]. *)
Definition input : M str := fun w =>
  match stdin w with
  | Line s :: _ => Ret s (answered (emit Prompt w))
  | Silent :: _ => Hang
  | _ => Exn EOFError (answered (emit Prompt w))
  end.

(** [datetime.now().isoformat()]. *)
Definition isoformat_now : M str := fun w => Ret (now w (time w)) w.

(** [self.all_products_data.append(d)] and reading the list. *)
Definition append (d : product) : M unit := fun w => Ret tt (append_product d w).
Definition products : M (list product) := fun w => Ret (all_products_data w) w.

(** Writing a file inside [try: ... except Exception: print(...)]. *)
Definition write_file (f : file) : M unit := fun w =>
  Ret tt (emit (Write f (writable w (time w))) w).

End Runtime.

(** ** The batch orchestrator

    [SimpleBatch1688.process_all_urls] and
    [Batch1688Crawler.process_multiple_urls] are the same code around each
    class's own gate and item pipeline. *)

Module Batch.
Import Py Selenium Runtime.

Definition home : str := U "https://www.1688.com".

(** [save_single_product]: a failed write is reported and swallowed. *)
Definition save_single_product (product_data : product) (index : Z) : M unit :=
  write_file (ProductJson index product_data).

(** [save_batch_results]: the JSON file, then the CSV summary; a failure
    ends the function. *)
Definition save_batch_results : M unit := fun w =>
  let data := all_products_data w in
  if writable w (time w) then
    write_file (BatchCsv data) (emit (Write (BatchJson data) true) w)
  else Ret tt (emit (Write (BatchJson data) false) w).

(** [print_summary]: the counts are printed, then the success rate, whose
    division fails for an empty batch. *)
Definition print_summary (successful_count total_urls : Z) (failed_urls : list (Z * str))
  : M unit :=
  tell (Summary successful_count total_urls failed_urls);;
  if total_urls =? 0 then raise ZeroDivisionError else mret tt.

Section Orchestrator.

Variable wait_and_handle_captcha : M bool.
Variable extract_single_product : str -> Z -> M (option product).

(** [if product_data:] holds for a dictionary that is not empty. *)
Definition processed (product_data : option product) : option product :=
  match product_data with
  | Some d => if bool_decide (d = ∅) then None else Some d
  | None => None
  end.

(** The body of the [try] for one target. Nothing raises after the call of
    the pipeline (appending, saving and sleeping do not), so the handler
    always finds the counters as they were when the iteration began. *)
Definition process_one (total_urls index : Z) (u : str)
    (successful_count : Z) (failed_urls : list (Z * str)) : M (Z * list (Z * str)) :=
  product_data ← extract_single_product u index;
  counters ← match processed product_data with
             | Some d =>
               append d;;
               save_single_product d index;;
               mret (successful_count + 1, failed_urls)
             | None => mret (successful_count, failed_urls ++ [(index, u)])
             end;
  (if index <? total_urls then sleep 30 80 else mret tt);;
  mret counters.

(** The [for index, url in enumerate(urls, 1)] loop. *)
Fixpoint process_urls (total_urls index : Z) (urls : list str)
    (successful_count : Z) (failed_urls : list (Z * str)) : M (Z * list (Z * str)) :=
  match urls with
  | [] => mret (successful_count, failed_urls)
  | u :: urls1 =>
    counters ← try_except
      (process_one total_urls index u successful_count failed_urls)
      (fun _ => mret (successful_count, failed_urls ++ [(index, u)]));
    process_urls total_urls (index + 1) urls1 (fst counters) (snd counters)
  end.

Definition process_all_urls (urls : list str) : M (list product) :=
  let total_urls := Z.of_nat (length urls) in
  driver_get home;;
  sleep 30 60;;
  wait_and_handle_captcha;;
  counters ← process_urls total_urls 1 urls 0 [];
  print_summary (fst counters) total_urls (snd counters);;
  results ← products;
  match results with
  | [] => mret tt
  | _ => save_batch_results
  end;;
  products.

End Orchestrator.

End Batch.

(** ** Files and the network

    What the crawler finds outside the browser: the list of links in
    [input.txt] and the answers of [requests.get]. *)

Module Outside.
Import Py.

(** A text file as one reading of it goes: the lines its iteration yields,
    each with its line end, and whether the iteration then raises (a
    decoding error, say) instead of ending. *)
Record text_file := {
  yielded : list str;
  broken : bool
}.

(** A [requests.Response]: the status, the [content-type] header if there
    is one, and the body. *)
Record Response := {
  status_code : Z;
  content_type : option str;
  content : list N
}.

(** [bool(response)], which is [response.ok]: the status is no client or
    server error. *)
Definition ok (response : Response) : bool :=
  negb ((400 <=? status_code response) && (status_code response <? 600)).

(** [response.headers.get('content-type', '')]. *)
Definition content_type_or_empty (response : Response) : str :=
  match content_type response with
  | Some t => t
  | None => []
  end.

End Outside.

(** ** Field extractors of [simple_batch_1688.py] *)

Module SimpleBatch1688.
Import Py Re Selenium Runtime.

(** A [for] loop whose body may be left by an exception: the state built so
    far is kept, and the flag tells whether the loop ran to its end. *)
Fixpoint for_until {A S} (body : A -> S -> S * bool) (l : list A) (s : S) : S * bool :=
  match l with
  | [] => (s, true)
  | x :: l1 =>
    let (s1, ok) := body x s in
    if ok then for_until body l1 s1 else (s1, false)
  end.

(** A [for] loop that returns from the function at the first iteration
    yielding a value. *)
Fixpoint first_some {A B} (f : A -> option B) (l : list A) : option B :=
  match l with
  | [] => None
  | x :: l1 =>
    match f x with
    | Some b => Some b
    | None => first_some f l1
    end
  end.

(** The CSS selector [[name*="value"]]. *)
Definition attr_contains (name value : str) : str :=
  U "[" ++ name ++ U "*=" ++ [34%N] ++ value ++ [34%N] ++ U "]".

(** *** [extract_title] *)

Definition title_selectors : list str :=
  [U "h1"; U ".offer-title"; U ".d-title"; U ".detail-title";
   attr_contains (U "class") (U "title"); attr_contains (U "class") (U "name");
   U ".product-name"].

(** One iteration of the selector loop: [Some text] when it returns the
    text, [None] when it goes on to the next selector (nothing usable, or
    an exception). *)
Definition title_candidate (p : Page) (selector : str) : option str :=
  match find_element p selector ≫= text with
  | Ok t =>
    let t1 := strip t in
    if truthy t1 && (3 <? length t1)%nat then Some t1 else None
  | Raise _ => None
  end.

(** The brand token whose presence rejects the page title. *)
Definition brand_token : str := U "1688".

Definition title_fallback (p : Page) : option str :=
  match title p with
  | Ok page_title =>
    if truthy page_title && negb (contains brand_token page_title)
    then Some page_title else None
  | Raise _ => None
  end.

Definition extract_title_with (selectors : list str) (p : Page) : option str :=
  match first_some (title_candidate p) selectors with
  | Some t => Some t
  | None => title_fallback p
  end.

Definition extract_title : Page -> option str := extract_title_with title_selectors.

(** *** [extract_price] *)

Definition price_selectors : list str :=
  [U ".price"; U ".offer-price"; U ".d-price"; U ".unit-price";
   attr_contains (U "class") (U "price"); U ".price-range";
   U ".price-original"; U ".price-now"].

Definition price_markers : list str := [U "￥"; U "¥"; U "元"; U "."].

(** The class [[\d,.]]. *)
Definition amount_char (c : N) : bool := is_decimal c || (c =? 44)%N || (c =? 46)%N.
Definition amount : re := Chr amount_char.

Definition decimal_number : re := Cat (Plus Digit) (Cat (Lit 46) (Plus Digit)).

Definition price_patterns : list re :=
  [Cat (Str (U "￥")) (Plus amount);
   Cat (Str (U "¥")) (Plus amount);
   Cat decimal_number (Str (U "元"));
   Cat decimal_number (Cat (Lit 45) decimal_number);
   Cat decimal_number (Str (U "起"))].

(** The inner loop over the elements of one selector. *)
Definition price_text (element : Element) (prices : list str) : list str * bool :=
  match text element with
  | Ok t =>
    let t1 := strip t in
    (if truthy t1 && any_in price_markers t1 then prices ++ [t1] else prices, true)
  | Raise _ => (prices, false)
  end.

Definition selector_prices_with (selectors : list str) (p : Page) : list str :=
  fold_left (fun prices selector =>
    match css p selector with
    | Ok elements => fst (for_until price_text elements prices)
    | Raise _ => prices
    end) selectors [].

(** The matches of every pattern over the text of [body]. *)
Definition body_text (p : Page) : Exc str := body p ≫= text.

Definition pattern_prices (page_text : str) : list str :=
  flat_map (fun pattern => findall pattern page_text) price_patterns.

Section Extractors.

(** [list(set(xs))]: the distinct members of [xs] in the iteration order of
    the set, which depends on the string hashes of the run. *)
Variable list_of_set : list str -> list str.

Definition set_order : Prop :=
  forall xs, NoDup (list_of_set xs) /\ forall x, In x (list_of_set xs) <-> In x xs.

Definition first_three_unique (prices : list str) : option (list str) :=
  match prices with
  | [] => None
  | _ => Some (take 3 (list_of_set prices))
  end.

Definition price_candidates (p : Page) : list str :=
  selector_prices_with price_selectors p ++
  match body_text p with
  | Ok page_text => pattern_prices page_text
  | Raise _ => []
  end.

Definition extract_price (p : Page) : option (list str) :=
  first_three_unique (price_candidates p).

End Extractors.

(** *** [extract_supplier] *)

Definition supplier_selectors : list str :=
  [U ".company-name"; U ".supplier-name"; U ".shop-name";
   attr_contains (U "class") (U "company"); attr_contains (U "class") (U "supplier");
   attr_contains (U "class") (U "shop")].

Definition supplier_candidate (p : Page) (selector : str) : option str :=
  match find_element p selector ≫= text with
  | Ok t =>
    let t1 := strip t in
    if truthy t1 && (2 <? length t1)%nat then Some t1 else None
  | Raise _ => None
  end.

Definition extract_supplier (p : Page) : option str :=
  first_some (supplier_candidate p) supplier_selectors.

(** *** [extract_specifications] *)

Definition scan_row (row : Row) (specs : gmap str str) : gmap str str * bool :=
  match cells row with
  | Ok (c0 :: c1 :: _) =>
    match text c0 with
    | Ok k =>
      match text c1 with
      | Ok v =>
        let key := strip k in
        let value := strip v in
        (if truthy key && truthy value then <[key := value]> specs else specs, true)
      | Raise _ => (specs, false)
      end
    | Raise _ => (specs, false)
    end
  | Ok _ => (specs, true)
  | Raise _ => (specs, false)
  end.

Definition scan_table (table : Table) (specs : gmap str str) : gmap str str * bool :=
  match rows table with
  | Ok rs => for_until scan_row rs specs
  | Raise _ => (specs, false)
  end.

Definition extract_specifications (p : Page) : gmap str str :=
  match tables p with
  | Ok ts => fst (for_until scan_table ts ∅)
  | Raise _ => ∅
  end.

(** *** [extract_moq] *)

Definition moq_keywords : list str := [U "起订量"; U "最小"; U "MOQ"; U "起批"].

(** The pattern [keyword[：:]\s*(\d+)], split at its group. *)
Definition moq_label (keyword : str) : re :=
  Cat (Str keyword) (Cat (Alt (Lit 65306) (Lit 58)) (Star Space)).

Definition search_moq (page_text : str) : option str :=
  first_some (fun keyword => search_group (moq_label keyword) (Plus Digit) page_text)
             moq_keywords.

Definition extract_moq (p : Page) : option str :=
  match body_text p with
  | Ok page_text => search_moq page_text
  | Raise _ => None
  end.

(** *** Image candidates *)

(** [img.get_attribute(name) or default]. *)
Definition attribute_or (img : Img) (name default : str) : Exc str :=
  v ← get_attribute img name;
  match v with
  | Some (c :: s) => Ok (c :: s)
  | _ => Ok default
  end.

(** The dictionary literal appended for an element; the attributes are read
    in the order of the keys. *)
Definition image_entry (img : Img) (u src : str) : Exc image :=
  a ← attribute_or img (U "alt") [];
  w ← attribute_or img (U "width") (U "0");
  h ← attribute_or img (U "height") (U "0");
  c ← attribute_or img (U "class") [];
  Ok {| url := u; alt := a; width := w; height := h; class := c; source := src |}.

(** [int(img_element.get_attribute(name) or 0)]. *)
Definition int_attribute (img : Img) (name : str) : Exc (option Z) :=
  v ← get_attribute img name;
  match v with
  | Some (c :: s) => Ok (int (c :: s))
  | _ => Ok (Some 0)
  end.

Definition exclude_patterns : list str :=
  [U "icon"; U "logo"; U "btn"; U "button"; U "arrow"; U "star"; U "rating";
   U "header"; U "footer"; U "nav"; U "menu"; U "banner"; U "ad";
   U "sprite"; U "background"; U "bg"; U "decoration"].

(** The size test of [is_product_image]: [Some true] when one of its two
    [return False] is taken, [None] when reading or converting a size
    raised (the [except: pass]). *)
Definition rejected_by_size (img : Img) : option bool :=
  match int_attribute img (U "width") with
  | Ok (Some w) =>
    match int_attribute img (U "height") with
    | Ok (Some h) =>
      if (0 <? w) && (0 <? h) && ((w <? 50) || (h <? 50)) then Some true
      else if (0 <? w) && (0 <? h) && (w * h <? 2500) then Some true
      else Some false
    | _ => None
    end
  | _ => None
  end.

Definition is_product_image (img_url : str) (img_element : option Img) : bool :=
  let url_lower := lower img_url in
  if any_in exclude_patterns url_lower then false
  else if match img_element with
          | Some img => match rejected_by_size img with Some true => true | _ => false end
          | None => false
          end then false
  else if contains (U "alicdn.com") img_url then true
  else any_in [U ".jpg"; U ".jpeg"; U ".png"; U ".webp"] url_lower.

Definition is_valid_product_image_url (u : str) : bool :=
  if negb (truthy u) || (length u <? 20)%nat then false
  else if negb (startswith u (U "https://")) then false
  else
    let url_lower := lower u in
    if negb (any_in [U ".jpg"; U ".jpeg"; U ".png"; U ".webp"; U ".gif"] url_lower
             || contains (U "alicdn.com") url_lower) then false
    else if any_in [U "icon"; U "logo"; U "btn"; U "arrow"; U "star"; U "sprite"] url_lower
    then false
    else true.

(** [get_best_image_url]: the first attribute, in priority order, holding
    an acceptable URL; an attribute whose reading raises is passed over. *)
Definition best_attributes : list str :=
  [U "data-original"; U "data-src"; U "data-lazy"; U "src"; U "data-img"; U "data-url"].

Definition best_candidate (img : Img) (attr : str) : option str :=
  match get_attribute img attr with
  | Ok (Some u) =>
    if truthy u && startswith u (U "http") then
      if contains (U "_b.jpg") u || contains (U "_large") u || contains (U "_big") u
      then Some u
      else if any_in [U ".jpg"; U ".jpeg"; U ".png"; U ".webp"; U ".gif"] (lower u)
      then Some u
      else if contains (U "alicdn.com") u then Some u
      else None
    else None
  | _ => None
  end.

Definition get_best_image_url (img : Img) : option str :=
  first_some (best_candidate img) best_attributes.

(** The attribute loop of the first pass of [extract_images]; here an
    exception leaves the loop and the element. *)
Definition tag_attributes : list str :=
  [U "src"; U "data-src"; U "data-original"; U "data-lazy"; U "data-img"; U "data-url"].

Fixpoint tag_url (img : Img) (attrs : list str) : Exc (option str) :=
  match attrs with
  | [] => Ok None
  | attr :: attrs1 =>
    match get_attribute img attr with
    | Raise e => Raise e
    | Ok (Some u) =>
      if truthy u && startswith u (U "http") then
        if any_in [U ".jpg"; U ".jpeg"; U ".png"; U ".webp"; U ".gif"; U ".bmp"] (lower u)
        then Ok (Some u)
        else if contains (U "alicdn.com") u || contains (U "img.alicdn.com") u
        then Ok (Some u)
        else tag_url img attrs1
      else tag_url img attrs1
    | Ok None => tag_url img attrs1
    end
  end.

(** The two accumulators of [extract_images]: [images] and [seen_urls]. *)
Definition found : Type := list image * gset str.

Definition add_image (i : image) (st : found) : found :=
  (fst st ++ [i], {[url i]} ∪ snd st).

(** Pass 1: every [img] element of the document. *)
Definition from_img_tag (img : Img) (st : found) : found :=
  match tag_url img tag_attributes with
  | Ok (Some img_url) =>
    if truthy img_url && negb (bool_decide (img_url ∈ snd st)) then
      if is_product_image img_url (Some img) then
        match image_entry img img_url (U "img_tag") with
        | Ok i => add_image i st
        | Raise _ => st
        end
      else st
    else st
  | _ => st
  end.

(** Pass 2: URLs found in the page source. *)
Definition url_char : re :=
  Chr (fun c => negb ((c =? 34)%N || (c =? 39)%N || is_space c)).

Definition image_suffix : re :=
  Cat (Lit 46) (Alts [StrI (U "jpg"); StrI (U "jpeg"); StrI (U "png");
                      StrI (U "webp"); StrI (U "gif")]).

Definition alicdn_pattern (scheme_and_host_prefix : str) : re :=
  Cat (StrI scheme_and_host_prefix)
      (Cat (Star url_char)
           (Cat (Cat (Lit 46) (Cat (StrI (U "alicdn")) (Cat (Lit 46) (StrI (U "com")))))
                (Cat (Star url_char) image_suffix))).

Definition alicdn_patterns : list re :=
  [alicdn_pattern (U "https://"); alicdn_pattern (U "https://cbu");
   alicdn_pattern (U "https://img")].

Definition from_match (u : str) (st : found) : found :=
  if negb (bool_decide (u ∈ snd st)) && is_valid_product_image_url u then
    add_image {| url := u; alt := []; width := U "0"; height := U "0";
                 class := []; source := U "regex_extract" |} st
  else st.

Definition from_page_source (p : Page) (st : found) : found :=
  match page_source p with
  | Ok src =>
    fold_left (fun st pattern => fold_left (fun st u => from_match u st) (findall pattern src) st)
              alicdn_patterns st
  | Raise _ => st
  end.

(** Pass 3: the [img] elements inside the image containers. An exception
    anywhere under one selector abandons that selector. *)
Definition image_containers : list str :=
  [U ".offer-img"; U ".product-img"; U ".detail-img"; U ".gallery-img";
   attr_contains (U "class") (U "image"); attr_contains (U "class") (U "photo");
   attr_contains (U "class") (U "pic");
   U ".img-list"; U ".image-list"; U ".photo-list"].

Definition from_container_img (container_selector : str) (img : Img) (st : found)
  : found * bool :=
  match get_best_image_url img with
  | Some img_url =>
    if truthy img_url && negb (bool_decide (img_url ∈ snd st)) then
      match image_entry img img_url (U "container_" ++ container_selector) with
      | Ok i => (add_image i st, true)
      | Raise _ => (st, false)
      end
    else (st, true)
  | None => (st, true)
  end.

Definition from_container (container_selector : str) (container : Element) (st : found)
  : found * bool :=
  match find_imgs container with
  | Ok container_imgs => for_until (from_container_img container_selector) container_imgs st
  | Raise _ => (st, false)
  end.

Definition from_containers (p : Page) (st : found) : found :=
  fold_left (fun st container_selector =>
    match css p container_selector with
    | Ok containers => fst (for_until (from_container container_selector) containers st)
    | Raise _ => st
    end) image_containers st.

(** Pass 4: every [img] element again, after the scroll. *)
Definition from_lazy_load (img : Img) (st : found) : found :=
  match get_best_image_url img with
  | Some img_url =>
    if truthy img_url && negb (bool_decide (img_url ∈ snd st))
       && is_product_image img_url (Some img) then
      match image_entry img img_url (U "lazy_load") with
      | Ok i => add_image i st
      | Raise _ => st
      end
    else st
  | None => st
  end.

(** *** [sort_images_by_quality] *)

(** The size bonus of [get_image_priority]; nothing when a size is not an
    integer. *)
Definition size_bonus (img : image) : Z :=
  match int (width img), int (height img) with
  | Some w, Some h =>
    if (200 <? w) && (200 <? h) then 40
    else if (100 <? w) && (100 <? h) then 20
    else 0
  | _, _ => 0
  end.

Definition get_image_priority (img : image) : Z :=
  let u := lower (url img) in
  (if contains (U "_b.jpg") u || contains (U "_large") u || contains (U "_big") u
   then 100 else 0)
  + (if contains (U "cbu01.alicdn.com") u then 50 else 0)
  + (if any_in [U "800"; U "600"; U "400"] u then 30 else 0)
  + (if bool_decide (source img = U "img_tag") then 20 else 0)
  + size_bonus img.

(** [sorted(xs, key=key, reverse=True)]: the stable sort by decreasing key.
    An element goes in front of the elements, all later in the input, whose
    key is not larger. *)
Fixpoint insert_by {A} (key : A -> Z) (x : A) (l : list A) : list A :=
  match l with
  | [] => [x]
  | y :: l1 => if key x <? key y then y :: insert_by key x l1 else x :: y :: l1
  end.

Definition sorted_reverse {A} (key : A -> Z) (l : list A) : list A :=
  fold_right (insert_by key) [] l.

Definition sort_images_by_quality (images : list image) : list image :=
  sorted_reverse get_image_priority images.

(** *** The anti-bot gate, [wait_and_handle_captcha] *)

Definition captcha_keywords : list str :=
  [U "验证码"; U "captcha"; U "滑动验证"; U "点击验证"; U "拖动"].

(** The body of the [try] for one keyword: [true] when it returns [True]. *)
Definition check_keyword (keyword : str) : M bool :=
  p ← page;
  elements ← lift (xpath_contains_text p keyword);
  match elements with
  | [] => mret false
  | _ => tell (CaptchaNotice keyword);; input;; mret true
  end.

Fixpoint wait_for_captcha (keywords : list str) : M bool :=
  match keywords with
  | [] => mret false
  | keyword :: keywords1 =>
    detected ← try_except (check_keyword keyword) (fun _ => mret false);
    match detected with
    | true => mret true
    | false => wait_for_captcha keywords1
    end
  end.

Definition wait_and_handle_captcha : M bool := wait_for_captcha captcha_keywords.

(** *** The behaviour simulator, [human_simulate] *)

Fixpoint repeat_m (n : nat) (m : M unit) : M unit :=
  match n with
  | O => mret tt
  | S n1 => m;; repeat_m n1 m
  end.

(** [most] and [far] bound the number of scrolls and their length;
    [pause] and [rest] are the bounds of the two sleeps. *)
Definition simulate (most far : Z) (pause rest : Z * Z) : M unit :=
  n ← randint 2 most;
  repeat_m (Z.to_nat n)
    (scroll_y ← randint 100 far;
     execute_script (ScrollBy scroll_y);;
     sleep (fst pause) (snd pause));;
  sleep (fst rest) (snd rest).

Definition human_simulate : M unit := simulate 4 400 (3, 10) (5, 20).

(** *** [scroll_to_load_images] *)

(** The [while current_position < page_height] loop. [fuel] bounds the
    number of iterations; running out of it stands for a loop that never
    ends. *)
Fixpoint scroll_down (fuel : nat) (viewport_height page_height current_position : N)
  : M unit :=
  if (current_position <? page_height)%N then
    match fuel with
    | O => fun _ => Hang
    | S fuel1 =>
      execute_script (ScrollTo current_position);;
      sleep 5 5;;
      scroll_down fuel1 viewport_height page_height (current_position + viewport_height)
    end
  else mret tt.

Definition scroll_to_load_images : M unit :=
  try_except
    (execute_script ScrollToBottom;;
     sleep 10 10;;
     execute_script (ScrollTo 0);;
     sleep 10 10;;
     viewport_height ← execute_script InnerHeight;
     page_height ← execute_script ScrollHeight;
     scroll_down (N.to_nat page_height) viewport_height page_height 0)
    (fun _ => mret tt).

(** *** [extract_images] *)

(** The four passes: the list [images] in the order of discovery. *)
Definition discover_images : M (list image) :=
  p ← page;
  img_elements ← lift (imgs p);
  let st1 := fold_left (fun st img => from_img_tag img st) img_elements ([], ∅) in
  let st2 := from_page_source p st1 in
  let st3 := from_containers p st2 in
  scroll_to_load_images;;
  sleep 20 20;;
  p1 ← page;
  new_img_elements ← lift (imgs p1);
  let st4 := fold_left (fun st img => from_lazy_load img st) new_img_elements st3 in
  mret (fst st4).

Definition extract_images : M (list image) :=
  try_except
    (images ← discover_images;
     match images with
     | [] => mret []
     | _ => mret (sort_images_by_quality images)
     end)
    (fun _ => mret []).

(** *** The item pipeline, [extract_single_product] *)

Definition optional (o : option str) : value :=
  match o with
  | Some s => VStr s
  | None => VNone
  end.

Definition optional_list (o : option (list str)) : value :=
  match o with
  | Some l => VList l
  | None => VNone
  end.

Section Pipeline.

Variable list_of_set : list str -> list str.

Definition extract_single_product (u : str) (index : Z) : M (option product) :=
  try_except
    (driver_get u;;
     sleep 40 70;;
     blocked ← wait_and_handle_captcha;
     match blocked with
     | true => sleep 20 20
     | false => mret tt
     end;;
     human_simulate;;
     p ← page;
     here ← lift (current_url p);
     timestamp ← isoformat_now;
     let title := extract_title p in
     let price := extract_price list_of_set p in
     images ← extract_images;
     p1 ← page;
     let supplier := extract_supplier p1 in
     let specifications := extract_specifications p1 in
     let moq := extract_moq p1 in
     mret (Some (<[U "index" := VInt index]>
                (<[U "url" := VStr here]>
                (<[U "timestamp" := VStr timestamp]>
                (<[U "title" := optional title]>
                (<[U "price" := optional_list price]>
                (<[U "images" := VImages images]>
                (<[U "supplier" := optional supplier]>
                (<[U "specifications" := VDict specifications]>
                (<[U "moq" := optional moq]> ∅)))))))))))
    (fun _ => mret None).

(** [process_all_urls]. *)
Definition process_all_urls : list str -> M (list product) :=
  Batch.process_all_urls wait_and_handle_captcha extract_single_product.

End Pipeline.

(** *** The list of links, [read_urls_from_input] *)

(** The body of the loop over the lines of [input.txt]. *)
Definition read_line (urls : list str) (line : str) : list str :=
  let line := strip line in
  if truthy line && negb (startswith line (U "#")) then
    if contains (U "detail.1688.com") line then urls ++ [line] else urls
  else urls.

(** [input_txt] is [None] when the file does not exist. A reading that
    raises ends the loop; the links read so far are returned all the same. *)
Definition read_urls_from_input (input_txt : option Outside.text_file) : list str :=
  match input_txt with
  | None => []
  | Some f => fold_left read_line (Outside.yielded f) []
  end.

(** *** Saving the images, [get_image_extension] and [download_product_images] *)

Definition url_extensions : list str :=
  [U "jpg"; U "jpeg"; U "png"; U "webp"; U "gif"; U "bmp"].

Definition get_image_extension (url : str) (response : option Outside.Response) : str :=
  let url_lower := lower url in
  match List.find (fun ext => contains (U "." ++ ext) url_lower) url_extensions with
  | Some ext => ext
  | None =>
    match response with
    | Some r =>
      if Outside.ok r then
        let content_type := lower (Outside.content_type_or_empty r) in
        if contains (U "jpeg") content_type || contains (U "jpg") content_type then U "jpg"
        else if contains (U "png") content_type then U "png"
        else if contains (U "webp") content_type then U "webp"
        else if contains (U "gif") content_type then U "gif"
        else U "jpg"
      else U "jpg"
    | None => U "jpg"
    end
  end.

(** The decimal digits of a number, most significant first. *)
Fixpoint digits (fuel : nat) (n : N) (acc : str) : str :=
  match fuel with
  | O => acc
  | S fuel1 =>
    if (n <? 10)%N then (48 + n)%N :: acc
    else digits fuel1 (n / 10)%N ((48 + n mod 10)%N :: acc)
  end.

Definition decimal (n : N) : str := digits (S (N.to_nat (N.log2 n))) n [].

(** [format(n, '0{width}d')]: the sign, if any, then zeros up to [width]
    characters in all, then the digits. *)
Definition format_d (width : nat) (n : Z) : str :=
  let body := decimal (Z.abs_N n) in
  if n <? 0 then 45%N :: replicate (width - 1 - length body) 48%N ++ body
  else replicate (width - length body) 48%N ++ body.

(** The name of the file for image [i] (counted from 0) of a product. *)
Definition image_filename (product_index : Z) (i : nat) (source ext : str) : str :=
  U "images/product_" ++ format_d 3 product_index ++ U "_"
  ++ format_d 2 (Z.of_nat i + 1) ++ U "_" ++ source ++ U "." ++ ext.

(** What a download does to the outside, in order. *)
Inductive download_event :=
| Request (url : str)
| Save (filename : str) (bytes : list N)
| Pause.

(** The state of the loop: the events so far and the two counters. *)
Record downloads := {
  happened : list download_event;
  downloaded_count : Z;
  failed_count : Z
}.

Section Download.

(** [requests.get(url, ...)] for the image at position [i]: a response, or
    [None] when it raises; and whether the file for that image can be
    opened and written. *)
Variable requests_get : nat -> str -> option Outside.Response.
Variable writable_image : nat -> str -> bool.

(** One iteration: the body of the [try], and the [except] that counts a
    failure. *)
Definition download_image (product_index : Z) (i : nat) (img_data : image) (st : downloads)
  : downloads :=
  let img_url := url img_data in
  let asked := happened st ++ [Request img_url] in
  match requests_get i img_url with
  | Some response =>
    if Outside.status_code response =? 200 then
      let ext := get_image_extension img_url (Some response) in
      let filename := image_filename product_index i (source img_data) ext in
      if writable_image i filename then
        {| happened := asked ++ [Save filename (Outside.content response); Pause];
           downloaded_count := downloaded_count st + 1;
           failed_count := failed_count st |}
      else
        {| happened := asked; downloaded_count := downloaded_count st;
           failed_count := failed_count st + 1 |}
    else
      {| happened := asked; downloaded_count := downloaded_count st;
         failed_count := failed_count st + 1 |}
  | None =>
    {| happened := asked; downloaded_count := downloaded_count st;
       failed_count := failed_count st + 1 |}
  end.

Fixpoint download_from (product_index : Z) (i : nat) (images_data : list image)
    (st : downloads) : downloads :=
  match images_data with
  | [] => st
  | img_data :: images_data1 =>
    download_from product_index (S i) images_data1 (download_image product_index i img_data st)
  end.

Definition download_product_images (images_data : list image) (product_index : Z)
  : downloads :=
  download_from product_index 0 images_data
    {| happened := []; downloaded_count := 0; failed_count := 0 |}.

End Download.

End SimpleBatch1688.

(** ** [batch_1688.py], where it differs *)

Module Batch1688Crawler.
Import Py Re Selenium Runtime.

Definition captcha_keywords : list str :=
  [U "验证码"; U "captcha"; U "滑动验证"; U "点击验证"; U "拖动"; U "security"].

Definition wait_and_handle_captcha : M bool :=
  SimpleBatch1688.wait_for_captcha captcha_keywords.

Definition human_simulate : M unit := SimpleBatch1688.simulate 4 400 (3, 10) (5, 20).

Definition title_selectors : list str :=
  SimpleBatch1688.title_selectors ++
  [U "title"; SimpleBatch1688.attr_contains (U "data-spm-anchor-id") (U "title")].

Definition extract_title : Page -> option str :=
  SimpleBatch1688.extract_title_with title_selectors.

Definition price_selectors : list str :=
  [U ".price"; U ".offer-price"; U ".d-price"; U ".unit-price";
   SimpleBatch1688.attr_contains (U "class") (U "price");
   SimpleBatch1688.attr_contains (U "data-testid") (U "price");
   U ".price-range"; U ".price-original"; U ".price-now"].

(** [extract_images]: at most eight entries, no deduplication, no ranking. *)
Definition info_attributes : list str :=
  [U "src"; U "data-src"; U "data-original"; U "data-lazy"].

Fixpoint info_url_of (img : Img) (attrs : list str) : Exc (option str) :=
  match attrs with
  | [] => Ok None
  | attr :: attrs1 =>
    match get_attribute img attr with
    | Raise e => Raise e
    | Ok (Some u) =>
      if truthy u && startswith u (U "http")
         && any_in [U ".jpg"; U ".jpeg"; U ".png"; U ".webp"] u
      then Ok (Some u)
      else info_url_of img attrs1
    | Ok None => info_url_of img attrs1
    end
  end.

Definition size_or_zero (img : Img) (name : str) : Exc size :=
  v ← get_attribute img name;
  match v with
  | Some (c :: s) => Ok (Declared (c :: s))
  | _ => Ok Zero
  end.

Definition info_entry (img : Img) : Exc (option image_info) :=
  img_url ← info_url_of img info_attributes;
  match img_url with
  | Some (c :: u) =>
    a ← SimpleBatch1688.attribute_or img (U "alt") [];
    w ← size_or_zero img (U "width");
    h ← size_or_zero img (U "height");
    Ok (Some {| info_url := c :: u; info_alt := a; info_width := w; info_height := h |})
  | _ => Ok None
  end.

Fixpoint collect_infos (img_elements : list Img) (images : list image_info)
  : list image_info :=
  match img_elements with
  | [] => images
  | img :: img_elements1 =>
    match info_entry img with
    | Ok (Some i) =>
      let images1 := images ++ [i] in
      if (8 <=? length images1)%nat then images1 else collect_infos img_elements1 images1
    | _ => collect_infos img_elements1 images
    end
  end.

Definition extract_images (p : Page) : list image_info :=
  match imgs p with
  | Ok img_elements => collect_infos img_elements []
  | Raise _ => []
  end.

(** [extract_description]. *)
Definition desc_selectors : list str :=
  [U ".description"; U ".detail-desc"; U ".product-desc";
   SimpleBatch1688.attr_contains (U "class") (U "desc");
   SimpleBatch1688.attr_contains (U "class") (U "detail")].

Definition desc_candidate (p : Page) (selector : str) : option str :=
  match find_element p selector ≫= text with
  | Ok t =>
    let t1 := strip t in
    if truthy t1 && (10 <? length t1)%nat then Some t1 else None
  | Raise _ => None
  end.

Definition extract_description (p : Page) : option str :=
  SimpleBatch1688.first_some (desc_candidate p) desc_selectors.

(** The pattern [1[3-9]\d{9}]. *)
Definition phone_pattern : re :=
  Cat (Lit 49) (Cat (Chr (fun c => (51 <=? c)%N && (c <=? 57)%N))
    (fold_right Cat Eps (replicate 9 Digit))).

Section Pipeline.

Variable list_of_set : list str -> list str.

(** [extract_price]: the text of [body] is read outside any [try]. *)
Definition extract_price (p : Page) : Exc (option (list str)) :=
  let prices := SimpleBatch1688.selector_prices_with price_selectors p in
  page_text ← SimpleBatch1688.body_text p;
  Ok (SimpleBatch1688.first_three_unique list_of_set
        (prices ++ SimpleBatch1688.pattern_prices page_text)).

(** [extract_moq], also without a [try]. *)
Definition extract_moq (p : Page) : Exc (option str) :=
  page_text ← SimpleBatch1688.body_text p;
  Ok (SimpleBatch1688.search_moq page_text).

Definition extract_contact_info (p : Page) : Exc (gmap str (list str)) :=
  page_text ← SimpleBatch1688.body_text p;
  match findall phone_pattern page_text with
  | [] => Ok ∅
  | phones => Ok {[ U "phone" := take 3 (list_of_set phones) ]}
  end.

Definition extract_all_data (index : Z) : M product :=
  p ← page;
  here ← lift (current_url p);
  timestamp ← isoformat_now;
  let title := extract_title p in
  price ← lift (extract_price p);
  let images := extract_images p in
  let supplier := SimpleBatch1688.extract_supplier p in
  let specifications := SimpleBatch1688.extract_specifications p in
  let description := extract_description p in
  moq ← lift (extract_moq p);
  contact_info ← lift (extract_contact_info p);
  mret (<[U "index" := VInt index]>
       (<[U "url" := VStr here]>
       (<[U "timestamp" := VStr timestamp]>
       (<[U "title" := SimpleBatch1688.optional title]>
       (<[U "price" := SimpleBatch1688.optional_list price]>
       (<[U "images" := VImageInfos images]>
       (<[U "supplier" := SimpleBatch1688.optional supplier]>
       (<[U "specifications" := VDict specifications]>
       (<[U "description" := SimpleBatch1688.optional description]>
       (<[U "moq" := SimpleBatch1688.optional moq]>
       (<[U "contact_info" := VLists contact_info]> ∅))))))))))).

Definition extract_single_product (u : str) (index : Z) : M (option product) :=
  try_except
    (driver_get u;;
     sleep 40 70;;
     blocked ← wait_and_handle_captcha;
     match blocked with
     | true => sleep 20 20
     | false => mret tt
     end;;
     human_simulate;;
     product_info ← extract_all_data index;
     mret (Some product_info))
    (fun _ => mret None).

Definition process_multiple_urls : list str -> M (list product) :=
  Batch.process_all_urls wait_and_handle_captcha extract_single_product.

End Pipeline.

(** *** The list of links: [get_urls_from_user] and [get_urls_from_file] *)

(** The [while True] loop around [input()]; it ends with the [EOFError]
    of a closed input. Each turn takes one answer, so [fuel] above their
    number is never used up. *)
Fixpoint user_lines (fuel : nat) (urls : list str) : M (list str) := fun w =>
  match fuel with
  | O => Hang
  | S fuel1 =>
    match input w with
    | Ret line w1 =>
      let line := strip line in
      user_lines fuel1
        (if truthy line && (startswith line (U "http") && contains (U "1688.com") line)
         then urls ++ [line] else urls) w1
    | Exn EOFError w1 => Ret urls w1
    | Exn e w1 => Exn e w1
    | Hang => Hang
    end
  end.

Definition get_urls_from_user : M (list str) := fun w =>
  user_lines (S (length (stdin w))) [] w.

(** The file written when [input.txt] does not exist. *)
Definition sample_file : Outside.text_file :=
  {| Outside.yielded :=
       [U "https://detail.1688.com/offer/775610063728.html?offerId=775610063728&spm=a260k.home2025.recommendpart.18" ++ [10%N];
        U "# 请在上方添加更多1688商品链接，每行一个" ++ [10%N];
        U "# 以 # 开头的行会被忽略" ++ [10%N]];
     Outside.broken := false |}.

(** [get_urls_from_file]: the links, and [input.txt] as the call leaves
    it. [None] stands for the error that creating the file raises when
    [creatable] is false. *)
Definition get_urls_from_file (input_txt : option Outside.text_file) (creatable : bool)
  : option (list str * option Outside.text_file) :=
  match input_txt with
  | None => if creatable then Some ([], Some sample_file) else None
  | Some f =>
    Some (fold_left SimpleBatch1688.read_line (Outside.yielded f) [], Some f)
  end.

(** *** Saving the images, [download_product_images] *)

(** [s.split(sep)] for a separator of one character. *)
Fixpoint split (sep : N) (s : str) : list str :=
  match s with
  | [] => [[]]
  | c :: s1 =>
    if (c =? sep)%N then [] :: split sep s1
    else match split sep s1 with
         | field :: fields => (c :: field) :: fields
         | [] => [[c]]
         end
  end.

(** [img_url.split('.')[-1].split('?')[0]], replaced by jpg when it is not
    one of the four extensions. *)
Definition file_extension (img_url : str) : str :=
  let ext := hd [] (split 63 (List.last (split 46 img_url) [])) in
  if bool_decide (In ext [U "jpg"; U "jpeg"; U "png"; U "webp"]) then ext else U "jpg".

(** The name of the file for image [i] (counted from 0) of a product. *)
Definition image_filename (session_timestamp : str) (product_index : Z) (i : nat) (ext : str)
  : str :=
  U "images/batch_" ++ session_timestamp ++ U "_product_"
  ++ SimpleBatch1688.format_d 3 product_index ++ U "_"
  ++ SimpleBatch1688.decimal (N.of_nat i + 1) ++ U "." ++ ext.

Section Download.

Variable requests_get : nat -> str -> option Outside.Response.
Variable writable_image : nat -> str -> bool.

(** One iteration of a download loop that saves under [name]: a request,
    and a file when the status is 200 and the file can be written. *)
Definition fetch_image (name : nat -> str -> str) (i : nat) (img_data : image_info)
    (events : list SimpleBatch1688.download_event) : list SimpleBatch1688.download_event :=
  let img_url := info_url img_data in
  let asked := events ++ [SimpleBatch1688.Request img_url] in
  match requests_get i img_url with
  | Some response =>
    if Outside.status_code response =? 200 then
      let filename := name i (file_extension img_url) in
      if writable_image i filename
      then asked ++ [SimpleBatch1688.Save filename (Outside.content response)]
      else asked
    else asked
  | None => asked
  end.

Fixpoint fetch_from (name : nat -> str -> str) (i : nat) (images_data : list image_info)
    (events : list SimpleBatch1688.download_event) : list SimpleBatch1688.download_event :=
  match images_data with
  | [] => events
  | img_data :: images_data1 =>
    fetch_from name (S i) images_data1 (fetch_image name i img_data events)
  end.

(** At most three images of a product are fetched. *)
Definition download_product_images (session_timestamp : str)
    (images_data : list image_info) (product_index : Z)
  : list SimpleBatch1688.download_event :=
  fetch_from (image_filename session_timestamp product_index) 0 (take 3 images_data) [].

End Download.

End Batch1688Crawler.

(** ** [enhanced_1688.py] *)

Module Enhanced1688Crawler.
Import Runtime.

Definition human_simulate : M unit := SimpleBatch1688.simulate 5 500 (5, 15) (10, 30).

(** [extract_images]: as in [batch_1688.py], with at most ten entries. *)
Fixpoint collect_infos (img_elements : list Selenium.Img) (images : list image_info)
  : list image_info :=
  match img_elements with
  | [] => images
  | img :: img_elements1 =>
    match Batch1688Crawler.info_entry img with
    | Selenium.Ok (Some i) =>
      let images1 := images ++ [i] in
      if (10 <=? length images1)%nat then images1 else collect_infos img_elements1 images1
    | _ => collect_infos img_elements1 images
    end
  end.

Definition extract_images (p : Selenium.Page) : list image_info :=
  match Selenium.imgs p with
  | Selenium.Ok img_elements => collect_infos img_elements []
  | Selenium.Raise _ => []
  end.

(** [download_images]: at most five images, named by the time of the call
    and the position. *)
Definition image_filename (timestamp : Py.str) (i : nat) (ext : Py.str) : Py.str :=
  (Py.utf8 "images/product_" ++ timestamp ++ Py.utf8 "_"
   ++ SimpleBatch1688.decimal (N.of_nat i + 1) ++ Py.utf8 "." ++ ext)%list.

Definition download_images (requests_get : nat -> Py.str -> option Outside.Response)
    (writable_image : nat -> Py.str -> bool) (timestamp : Py.str)
    (images_data : list image_info) : list SimpleBatch1688.download_event :=
  Batch1688Crawler.fetch_from requests_get writable_image (image_filename timestamp) 0
    (take 5 images_data) [].

End Enhanced1688Crawler.

(** * Properties: specification-side definitions and sample inputs *)

Import Py Re Selenium Runtime SimpleBatch1688.

(** The score as the specification words it: four bonuses, the third for
    large declared dimensions, whatever [large] is taken to mean. *)
Definition claimed_score (large : image -> bool) (img : image) : Z :=
  let u := lower (url img) in
  (if contains (U "_b.jpg") u || contains (U "_large") u || contains (U "_big") u
   then 100 else 0)
  + (if contains (U "cbu01.alicdn.com") u then 50 else 0)
  + (if large img then 30 else 0)
  + (if bool_decide (source img = U "img_tag") then 20 else 0).

(** A lazily loaded image of 300 by 300 pixels with a plain URL. *)
Definition plain_image : image :=
  {| url := U "https://example.com/p.png"; alt := []; width := U "300";
     height := U "300"; class := []; source := U "lazy_load" |}.

(** Both declared sizes are integers larger than [n]. *)
Definition sizes_above (n : Z) (img : image) : Prop :=
  exists w h, int (width img) = Some w /\ int (height img) = Some h /\ n < w /\ n < h.

(** An element with a text and nothing below it; a document in which every
    query finds nothing. *)
Definition element_of (t : str) : Element := {| text := Ok t; find_imgs := Ok [] |}.

Definition blank_page : Page :=
  {| current_url := Ok (U "about:blank"); title := Ok []; page_source := Ok [];
     css := fun _ => Ok []; body := Ok (element_of []);
     xpath_contains_text := fun _ => Ok []; tables := Ok []; imgs := Ok [] |}.





(** Tables given by the texts of their cells, every query succeeding. *)
Definition row_of (r : list str) : Row := {| cells := Ok (map element_of r) |}.
Definition table_of (t : list (list str)) : Table := {| rows := Ok (map row_of t) |}.

(** The row [r] binds the key [k]: it has two cells or more, its first
    cell is [k] and neither the key nor the value is empty (cells are
    compared after [strip], as the extractor reads them). *)
Definition binds (k : str) (r : list str) : bool :=
  match r with
  | c0 :: c1 :: _ => bool_decide (strip c0 = k) && truthy (strip c0) && truthy (strip c1)
  | _ => false
  end.

(** The value of the last row, in scan order, that binds [k]. *)
Definition last_binding (k : str) (scanned : list (list str)) : option str :=
  match last (List.filter (binds k) scanned) with
  | Some (_ :: c1 :: _) => Some (strip c1)
  | _ => None
  end.

(** What scanning one row does to the map. *)
Definition bind_row (specs : gmap str str) (r : list str) : gmap str str :=
  match r with
  | c0 :: c1 :: _ =>
    if truthy (strip c0) && truthy (strip c1) then <[strip c0 := strip c1]> specs else specs
  | _ => specs
  end.

(** The table of the specification's example, and a document holding it. *)
Definition colour_rows : list (list str) := [[U "颜色"; U "红"]; [U "颜色"; U "蓝"]].

Definition colour_page : Page :=
  {| current_url := current_url blank_page; title := title blank_page;
     page_source := page_source blank_page; css := css blank_page;
     body := body blank_page; xpath_contains_text := xpath_contains_text blank_page;
     tables := Ok (map table_of [colour_rows]); imgs := imgs blank_page |}.

(** [x] is a text extracted through a price selector: the stripped text of
    an element the selector finds, containing one of the price markers. *)
Definition selector_text (selectors : list str) (p : Page) (x : str) : Prop :=
  exists selector elements e t,
    In selector selectors /\ css p selector = Ok elements /\ In e elements
    /\ text e = Ok t /\ x = strip t /\ truthy x = true /\ any_in price_markers x = true.

(** [x] is a match of one of the price patterns over the text of [body]. *)
Definition pattern_match (p : Page) (x : str) : Prop :=
  exists page_text pattern,
    body_text p = Ok page_text /\ In pattern price_patterns
    /\ In x (findall pattern page_text).

(** An iteration order for sets: first occurrences, in order. *)
Definition first_occurrences : list str -> list str :=
  nodup (fun a b : str => decide (a = b)).

(** A document whose only content is the text of [body]. *)
Definition text_page (t : str) : Page :=
  {| current_url := current_url blank_page; title := title blank_page;
     page_source := page_source blank_page; css := css blank_page;
     body := Ok (element_of t); xpath_contains_text := xpath_contains_text blank_page;
     tables := tables blank_page; imgs := imgs blank_page |}.

(** The specification's reading of the price extractor: on every page it
    returns, an absent value or a list. *)
Definition always_returns (extract : Page -> Exc (option (list str))) : Prop :=
  forall p, exists prices, extract p = Ok prices.

(** A document whose price elements show one amount and whose [body]
    cannot be found. *)
Definition unreadable_page : Page :=
  {| current_url := current_url blank_page; title := title blank_page;
     page_source := page_source blank_page;
     css := fun _ => Ok [element_of (U "¥12.50")];
     body := Raise NoSuchElementException;
     xpath_contains_text := xpath_contains_text blank_page;
     tables := tables blank_page; imgs := imgs blank_page |}.

(** The text of the specification's price example. *)
Definition price_text_example : str := U "¥199.00 ¥159.00-¥179.00".

(** The strings a pattern denotes, as the usual language of a regular
    expression. *)
Inductive matches : re -> str -> Prop :=
| matches_eps : matches Eps []
| matches_chr p c : p c = true -> matches (Chr p) [c]
| matches_cat r1 r2 a b : matches r1 a -> matches r2 b -> matches (Cat r1 r2) (a ++ b)
| matches_alt_l r1 r2 a : matches r1 a -> matches (Alt r1 r2) a
| matches_alt_r r1 r2 a : matches r2 a -> matches (Alt r1 r2) a
| matches_star_nil r : matches (Star r) []
| matches_star_cons r a b : matches r a -> matches (Star r) b -> matches (Star r) (a ++ b).

(** What follows an amount in the text ends it: nothing, or a character
    outside the class of amounts. *)
Definition delimited (post : str) : Prop :=
  match post with
  | [] => True
  | c :: _ => amount_char c = false
  end.

(** The range of the specification's price example. *)
Definition price_range : str := U "¥159.00-¥179.00".

(** The specification's example as a statement: whenever the body text
    contains both strings, both are among the returned candidates. *)
Definition both_strings_returned : Prop :=
  forall (list_of_set : list str -> list str) (p : Page) (page_text : str),
    set_order list_of_set ->
    body_text p = Ok page_text ->
    contains (U "¥199.00") page_text = true ->
    contains price_range page_text = true ->
    exists l, extract_price list_of_set p = Some l
              /\ In (U "¥199.00") l /\ In price_range l.

(** *** Runs *)

(** The outcome of [m] from [w] satisfies [Q] when it returns, [E] when it
    raises, and [H] holds when it never finishes. *)
Definition outcome {A} (m : M A) (w : World)
    (Q : A -> World -> Prop) (E : exn -> World -> Prop) (H : Prop) : Prop :=
  match m w with
  | Ret a w1 => Q a w1
  | Exn e w1 => E e w1
  | Hang => H
  end.

(** The scroll loop of a session ends: the viewport has a height. *)
Definition scrollable (s : Session) : Prop := execute s InnerHeight <> Ok 0%N.

(** The operator answers every prompt, or closes the input. *)
Definition attended (w : World) : Prop := ~ In Silent (stdin w).

(** A world in which every run ends. *)
Definition safe (w : World) : Prop :=
  attended w /\ scrollable (session w)
  /\ forall t u s, web w t u = Ok s -> scrollable s.

(** [w1] is a later state of the crawler in the same surroundings as [w]:
    more events, fewer pending answers, the same session or one the web
    served. *)
Definition follows (w w1 : World) : Prop :=
  web w1 = web w /\ now w1 = now w /\ writable w1 = writable w
  /\ (exists events, trace w1 = trace w ++ events)
  /\ (forall r, In r (stdin w1) -> In r (stdin w))
  /\ (session w1 = session w \/ exists t u, web w t u = Ok (session w1)).

(** [m] ends in a safe world, leaving the list of products alone. *)
Definition behaves {A} (m : M A) : Prop :=
  forall w, safe w ->
    outcome m w
      (fun _ w1 => follows w w1 /\ all_products_data w1 = all_products_data w)
      (fun _ w1 => follows w w1 /\ all_products_data w1 = all_products_data w)
      False.

(** A session that shows one document and answers scripts by [scripts];
    a world around a session, with nothing pending. *)
Definition still (p : Page) (scripts : script -> Exc N) : Session :=
  {| document := fun _ => p; execute := scripts |}.

Definition world_of (s : Session) (answers : list reaction) : World :=
  {| web := fun _ _ => Ok s; now := fun _ => U "2025-01-01T00:00:00";
     writable := fun _ => true; session := s; random := []; stdin := answers;
     trace := []; all_products_data := [] |}.

(** Scripts that all succeed on a page 1200 high seen through a viewport
    500 high, and scripts whose scrolling fails. *)
Definition working_scripts (s : script) : Exc N :=
  match s with
  | InnerHeight => Ok 500%N
  | ScrollHeight => Ok 1200%N
  | _ => Ok 0%N
  end.

Definition failing_scroll (s : script) : Exc N :=
  match s with
  | ScrollBy _ => Raise JavascriptException
  | _ => working_scripts s
  end.

(** A document on which the first captcha keyword is found. *)
Definition captcha_page : Page :=
  {| current_url := current_url blank_page; title := title blank_page;
     page_source := page_source blank_page; css := css blank_page;
     body := body blank_page;
     xpath_contains_text := fun keyword =>
       if bool_decide (keyword = U "验证码") then Ok [element_of (U "请输入验证码")]
       else Ok [];
     tables := tables blank_page; imgs := imgs blank_page |}.



(** The simulator as the specification describes it: it always returns. *)
Definition never_fails (simulator : M unit) : Prop :=
  forall w, exists w1, simulator w = Ret tt w1.

(** [w1] follows [w] with the same session, pending answers and products. *)
Definition quiet (w w1 : World) : Prop :=
  session w1 = session w /\ stdin w1 = stdin w
  /\ all_products_data w1 = all_products_data w /\ follows w w1.

(** The two accumulators of [extract_images] agree: the URLs of [images]
    are distinct and [seen_urls] is their set. *)
Definition consistent (st : found) : Prop :=
  NoDup (map url (fst st)) /\ forall u, u ∈ snd st <-> In u (map url (fst st)).

(** Scores never increase along [l]. *)
Definition ranked (l : list image) : Prop :=
  StronglySorted (fun a b => get_image_priority b <= get_image_priority a) l.

(** The candidates of score [n], in the order of [l]. *)
Definition scoring (n : Z) (l : list image) : list image :=
  List.filter (fun i => get_image_priority i =? n) l.

(** A document with five [img] elements, one of them twice and one an
    icon, and a page source naming one more. *)
Definition attributes_of (l : list (str * str)) : Img :=
  {| get_attribute := fun name =>
       Ok (snd <$> List.find (fun kv => bool_decide (fst kv = name)) l) |}.

Definition gallery_page : Page :=
  {| current_url := Ok (U "https://detail.1688.com/offer/1.html");
     title := Ok (U "不锈钢保温杯");
     page_source := Ok (U "<img src='https://img.alicdn.com/zz/q.JPG'>");
     css := css blank_page; body := body blank_page;
     xpath_contains_text := xpath_contains_text blank_page;
     tables := tables blank_page;
     imgs := Ok [attributes_of [(U "src", U "https://x.com/p/pp.png");
                                (U "width", U "120"); (U "height", U "150")];
                 attributes_of [(U "src", U "https://cbu01.alicdn.com/img/a_b.jpg");
                                (U "width", U "300"); (U "height", U "300")];
                 attributes_of [(U "src", U "https://x.com/icon.png")];
                 attributes_of [(U "src", U "https://x.com/p/pp.png")];
                 attributes_of [(U "src", U "https://x.com/p/800x800.png")]] |}.

(** [m] returns with [Q], or raises, in a world that quietly follows [w];
    it always ends. *)
Definition quietly {A} (m : M A) (w : World) (Q : A -> World -> Prop) : Prop :=
  outcome m w (fun a w1 => quiet w w1 /\ Q a w1) (fun _ w1 => quiet w w1) False.

(** The keys of an extraction record. *)
Definition record_keys : gset str :=
  {[ U "index"; U "url"; U "timestamp"; U "title"; U "price"; U "images";
     U "supplier"; U "specifications"; U "moq" ]}.

(** A field that is [None] or a string; one that is [None] or a list of
    strings; one that is a list of image dictionaries. *)
Definition none_or_str (v : option value) : Prop :=
  v = Some VNone \/ exists s, v = Some (VStr s).

Definition none_or_list (v : option value) : Prop :=
  v = Some VNone \/ exists l, v = Some (VList l).

Definition image_list (v : option value) : Prop :=
  (exists l, v = Some (VImages l)) \/ (exists l, v = Some (VImageInfos l)).

(** The fields of the record of item [index] have the kinds of values the
    extractors produce. *)
Definition record_shape (index : Z) (d : product) : Prop :=
  d !! U "index" = Some (VInt index)
  /\ (exists s, d !! U "url" = Some (VStr s))
  /\ (exists s, d !! U "timestamp" = Some (VStr s))
  /\ none_or_str (d !! U "title")
  /\ none_or_list (d !! U "price")
  /\ image_list (d !! U "images")
  /\ none_or_str (d !! U "supplier")
  /\ (exists specs, d !! U "specifications" = Some (VDict specs))
  /\ none_or_str (d !! U "moq").

(** The record of a document on which nothing is found. *)
Definition empty_record (index : Z) (here timestamp : str) : product :=
  <[U "index" := VInt index]>
  (<[U "url" := VStr here]>
  (<[U "timestamp" := VStr timestamp]>
  (<[U "title" := VNone]>
  (<[U "price" := VNone]>
  (<[U "images" := VImages []]>
  (<[U "supplier" := VNone]>
  (<[U "specifications" := VDict ∅]>
  (<[U "moq" := VNone]> ∅)))))))).

(** [w1] is a later state in the same session and surroundings as [w]. *)
Definition same_session (w w1 : World) : Prop :=
  session w1 = session w /\ web w1 = web w /\ now w1 = now w
  /\ (time w <= time w1)%nat.

(** [m] leaves the session and the surroundings alone, however it ends. *)
Definition keeps_session {A} (m : M A) : Prop :=
  forall w,
    outcome m w (fun _ w1 => same_session w w1) (fun _ w1 => same_session w w1) True.

(** The fields of the record [d] that the run of the item pipeline of
    [simple_batch_1688.py] on the target [u] returned, from [w] to [w1]:
    the session of [w1] is the one the web served for [u]; the image pass
    ran from a state [w0] of this session to the end of the run and gave
    the images; URL, timestamp, title and price were read from the
    document when the image pass began, supplier, specifications and
    minimum order from the document at the end, [None] standing for
    nothing found. *)
Definition extracted_fields (list_of_set : list str -> list str) (u : str)
    (w w1 : World) (d : product) : Prop :=
  web w (time w) u = Ok (session w1)
  /\ exists w0 images,
       session w0 = session w1 /\ (time w < time w0 <= time w1)%nat
       /\ extract_images w0 = Ret images w1
       /\ let p := document (session w1) (time w0) in
          let p1 := document (session w1) (time w1) in
          (exists here, current_url p = Ok here /\ d !! U "url" = Some (VStr here))
          /\ d !! U "timestamp" = Some (VStr (now w (time w0)))
          /\ d !! U "title" = Some (optional (extract_title p))
          /\ d !! U "price" = Some (optional_list (extract_price list_of_set p))
          /\ d !! U "images" = Some (VImages images)
          /\ d !! U "supplier" = Some (optional (extract_supplier p1))
          /\ d !! U "specifications" = Some (VDict (extract_specifications p1))
          /\ d !! U "moq" = Some (optional (extract_moq p1)).

(** The keys of a record of [batch_1688.py]. *)
Definition batch_record_keys : gset str :=
  record_keys ∪ {[ U "description"; U "contact_info" ]}.

(** The same for [batch_1688.py]: every field is read from the document
    of the served session at the end of the run, and the extractors that
    read the body text have returned. *)
Definition batch_extracted_fields (list_of_set : list str -> list str) (u : str)
    (w w1 : World) (d : product) : Prop :=
  web w (time w) u = Ok (session w1) /\ (time w < time w1)%nat
  /\ let p := document (session w1) (time w1) in
     (exists here, current_url p = Ok here /\ d !! U "url" = Some (VStr here))
     /\ d !! U "timestamp" = Some (VStr (now w (time w1)))
     /\ d !! U "title" = Some (optional (Batch1688Crawler.extract_title p))
     /\ (exists price, Batch1688Crawler.extract_price list_of_set p = Ok price
                       /\ d !! U "price" = Some (optional_list price))
     /\ d !! U "images" = Some (VImageInfos (Batch1688Crawler.extract_images p))
     /\ d !! U "supplier" = Some (optional (extract_supplier p))
     /\ d !! U "specifications" = Some (VDict (extract_specifications p))
     /\ d !! U "description" = Some (optional (Batch1688Crawler.extract_description p))
     /\ (exists moq, Batch1688Crawler.extract_moq p = Ok moq
                     /\ d !! U "moq" = Some (optional moq))
     /\ (exists contact_info,
           Batch1688Crawler.extract_contact_info list_of_set p = Ok contact_info
           /\ d !! U "contact_info" = Some (VLists contact_info)).

(** The warm-up navigation of [w] succeeds. *)
Definition warm (w : World) : Prop := exists s, web w (time w) Batch.home = Ok s.

(** Every session the web serves has a scroll loop that ends, and the
    operator is there. *)
Definition ends_everywhere (w : World) : Prop :=
  attended w /\ forall t u s, web w t u = Ok s -> scrollable s.

(** The index a record carries. *)
Definition index_of (d : product) : Z :=
  match d !! U "index" with
  | Some (VInt i) => i
  | _ => 0
  end.

(** The targets of [urls] are accounted for between [w] and [w1]: records
    were appended to the results, the summary shows their number with the
    ledger of failures, the two add up to the number of targets, and every
    position 1..n is the index of exactly one record or one failure, each
    failure carrying its own target. *)
Definition accounted (urls : list str) (w w1 : World) : Prop :=
  exists appended failed,
    all_products_data w1 = all_products_data w ++ appended
    /\ In (Summary (Z.of_nat (length appended)) (Z.of_nat (length urls)) failed) (trace w1)
    /\ (length appended + length failed = length urls)%nat
    /\ Permutation (map index_of appended ++ map fst failed)
                   (map Z.of_nat (seq 1 (length urls)))
    /\ forall i u, In (i, u) failed -> urls !! (Z.to_nat i - 1)%nat = Some u.

(** The specification's invariant: whatever the run, the targets are
    accounted for. *)
Definition one_outcome_per_target (process : list str -> M (list product)) : Prop :=
  forall urls w,
    match process urls w with
    | Ret _ w1 | Exn _ w1 => accounted urls w w1
    | Hang => False
    end.

(** The contract of the batch loop: after the warm-up, in a world where
    every run ends, the batch returns the results with the targets
    accounted for; for an empty list the summary raises. *)
Definition batch_contract (process : list str -> M (list product)) : Prop :=
  forall urls w,
    ends_everywhere w -> warm w ->
    match process urls w with
    | Ret results w1 =>
      urls <> [] /\ results = all_products_data w1 /\ accounted urls w w1
    | Exn e w1 => urls = [] /\ e = ZeroDivisionError /\ accounted urls w w1
    | Hang => False
    end.

(** A failure of the warm-up navigation ends the batch: the error leaves
    it right after the navigation, before any target is tried, with nothing
    appended and no summary. *)
Definition warm_up_failure_propagates (process : list str -> M (list product)) : Prop :=
  forall urls w e,
    web w (time w) Batch.home = Raise e ->
    process urls w = Exn e (emit (Navigate Batch.home) w).

(** A world whose network is down, and a target. *)
Definition offline : World :=
  {| web := fun _ _ => Raise TimeoutException; now := fun _ => U "2025-01-01T00:00:00";
     writable := fun _ => true; session := still blank_page working_scripts;
     random := []; stdin := []; trace := []; all_products_data := [] |}.

Definition sample_target : str := U "https://detail.1688.com/offer/1.html".

(** *** Further properties of the image filters *)

(** Both declared sizes of [img] are positive integers and one of them is
    below 50. *)
Definition declared_small (img : Img) : Prop :=
  exists w h,
    int_attribute img (U "width") = Ok (Some w)
    /\ int_attribute img (U "height") = Ok (Some h)
    /\ 0 < w /\ 0 < h /\ (w < 50 \/ h < 50).

(** The URL names an image by one of the four extensions, or its host by
    the CDN. *)
Definition looks_like_image (img_url : str) : Prop :=
  contains (U "alicdn.com") img_url = true
  \/ any_in [U ".jpg"; U ".jpeg"; U ".png"; U ".webp"] (lower img_url) = true.
(** An [img] element as [Batch1688Crawler.extract_images] takes it: its
    entry, or nothing when it has no usable URL or reading it raised. *)
Definition usable_info (img : Img) : option image_info :=
  match Batch1688Crawler.info_entry img with
  | Ok (Some i) => Some i
  | _ => None
  end.
(** *** Further properties of the text extractors *)

(** [x] occurs in [s]. *)
Definition occurs (x s : str) : Prop := exists pre post, s = pre ++ x ++ post.

(** What follows [post] does not go on with a decimal digit. *)
Definition digits_end (post : str) : Prop :=
  match post with
  | [] => True
  | c :: _ => is_decimal c = false
  end.

(** [g] is a number labelled by [keyword] in [page_text]: the keyword, a
    full-width or ASCII colon, any whitespace, then the digits [g] up to
    the first character that is no decimal digit. *)
Definition moq_labelled (page_text keyword g : str) : Prop :=
  exists before colon blanks post,
    page_text = before ++ keyword ++ colon :: blanks ++ g ++ post
    /\ (colon = 65306%N \/ colon = 58%N)
    /\ forallb is_space blanks = true
    /\ g <> [] /\ forallb is_decimal g = true /\ digits_end post.

(** A mainland mobile number as [phone_pattern] takes it: eleven
    characters, the digit 1, one of 3 to 9, and nine decimal digits of any
    script. *)
Definition mobile_number (x : str) : Prop :=
  exists c ds,
    x = 49%N :: c :: ds /\ (51 <= c <= 57)%N
    /\ length ds = 9%nat /\ forallb is_decimal ds = true.

(** A page whose body says how many pieces must be ordered. *)
Definition moq_text_example : str := U "MOQ: 5 件 起订量：100件起批".
(** A body text with a number inside a longer run of digits, and twice. *)
Definition phone_text_example : str := U "电话 8613812345678 / 13812345678".
(** *** Further properties of the runs *)

(** The world after the events [events], in order. *)
Definition happen (events : list event) (w : World) : World :=
  fold_left (fun w e => emit e w) events w.

(** The number of viewports it takes to cover the page. *)
Definition segments (viewport_height page_height : N) : nat :=
  N.to_nat ((page_height + viewport_height - 1) / viewport_height).

(** The segment scrolls: one per viewport, each followed by half a second
    of sleep. *)
Definition segment_scrolls (viewport_height page_height : N) : list event :=
  flat_map (fun k => [Execute (ScrollTo (N.of_nat k * viewport_height)); Sleep 5 5])
           (seq 0 (segments viewport_height page_height)).

(** Scripts for a page 1200 high seen through a window without height. *)
Definition flat_scripts (s : script) : Exc N :=
  match s with
  | InnerHeight => Ok 0%N
  | _ => working_scripts s
  end.

(** The events of a simulated browse: each scroll with its pause. *)
Definition scrolls (pause : Z * Z) (ys : list Z) : list event :=
  flat_map (fun y => [Execute (ScrollBy y); Sleep (fst pause) (snd pause)]) ys.

(** What a run of the simulator leaves behind: between 2 and [most]
    scrolls, each between 100 and [far] pixels and followed by its pause,
    then the rest. *)
Definition browses (most far : Z) (pause rest : Z * Z) (simulator : M unit) : Prop :=
  forall w,
    (forall y, exists h, execute (session w) (ScrollBy y) = Ok h) ->
    exists ys w1,
      simulator w = Ret tt w1
      /\ 2 <= Z.of_nat (length ys) <= most
      /\ Forall (fun y => 100 <= y <= far) ys
      /\ trace w1 = trace w ++ scrolls pause ys ++ [Sleep (fst rest) (snd rest)]
      /\ session w1 = session w /\ stdin w1 = stdin w
      /\ all_products_data w1 = all_products_data w.

(** The operator's input is closed. *)
Definition closed_input (w : World) : Prop := Forall (fun r => r = Eof) (stdin w).

(** With the input closed the gate reports no captcha. *)
Definition unattended_gate (gate : M bool) : Prop :=
  forall w, closed_input w ->
    exists w1, gate w = Ret false w1
      /\ session w1 = session w /\ all_products_data w1 = all_products_data w.
(** The text a selector loop returns from [candidate]: the stripped,
    non-empty text, longer than [least], of the first element the first
    successful selector finds; the selectors before it gave nothing. *)
Definition first_usable_text (least : nat) (selectors : list str)
    (candidate : Page -> str -> option str) (p : Page) (s : str) : Prop :=
  (least < length s)%nat /\ strip s = s
  /\ exists i selector e t,
       selectors !! i = Some selector
       /\ find_element p selector = Ok e /\ text e = Ok t /\ s = strip t
       /\ forall j earlier, (j < i)%nat -> selectors !! j = Some earlier ->
                            candidate p earlier = None.

(** A supplier block whose first element is blank, before a shop name. *)
Definition supplier_page : Page :=
  {| current_url := current_url blank_page; title := title blank_page;
     page_source := page_source blank_page;
     css := fun selector =>
       if bool_decide (selector = U ".company-name")
       then Ok [element_of (U "  "); element_of (U "义乌市某某工厂")]
       else if bool_decide (selector = U ".shop-name")
       then Ok [element_of (U " 某某旗舰店 ")]
       else Ok [];
     body := body blank_page; xpath_contains_text := xpath_contains_text blank_page;
     tables := tables blank_page; imgs := imgs blank_page |}.

(** A row whose cells cannot be listed. *)
Definition stale_row : Row := {| cells := Raise StaleElementReferenceException |}.

(** A document with the colour table cut short by a stale row, and a
    second table behind it. *)
Definition stale_page : Page :=
  {| current_url := current_url blank_page; title := title blank_page;
     page_source := page_source blank_page; css := css blank_page;
     body := body blank_page; xpath_contains_text := xpath_contains_text blank_page;
     tables := Ok [ {| rows := Ok (map row_of [[U "颜色"; U "红"]]
                                   ++ stale_row :: map row_of [[U "颜色"; U "蓝"]]) |};
                    table_of [[U "材质"; U "不锈钢"]] ];
     imgs := imgs blank_page |}.
(** The world after the loop body has dealt with a target at position
    [index] of [total_urls] whose page could not be loaded. *)
Definition after_failed_navigation (total_urls index : Z) (u : str) (w : World) : World :=
  if index <? total_urls then emit (Sleep 30 80) (emit (Navigate u) w)
  else emit (Navigate u) w.
(** *** Further properties of the image collector *)

(** The words both image filters refuse in a lower-cased URL. *)
Definition refused_words : list str :=
  [U "icon"; U "logo"; U "btn"; U "arrow"; U "star"; U "sprite"].

(** What every entry of the image list satisfies: the URL starts with
    http; the origin is one of the four passes; an entry taken from the page
    source has an https URL and no attributes; and outside the container
    pass, which filters nothing, the URL holds none of the refused words. *)
Definition candidate_ok (i : image) : Prop :=
  startswith (url i) (U "http") = true
  /\ (source i = U "img_tag" \/ source i = U "regex_extract" \/ source i = U "lazy_load"
      \/ exists selector, In selector image_containers
                          /\ source i = U "container_" ++ selector)
  /\ (source i = U "regex_extract" ->
      startswith (url i) (U "https://") = true
      /\ alt i = [] /\ width i = U "0" /\ height i = U "0" /\ class i = [])
  /\ ((forall selector, source i <> U "container_" ++ selector) ->
      any_in refused_words (lower (url i)) = false).

(** *** Properties of the link lists and of the downloads *)

(** A stripped line that names a product page and is no comment. *)
Definition link_line (line : str) : bool :=
  contains (U "detail.1688.com") line && negb (startswith line (U "#")).

(** A stripped line the operator typed that is taken as a link. *)
Definition typed_link (line : str) : bool :=
  startswith line (U "http") && contains (U "1688.com") line.

(** The link of the sample file. *)
Definition sample_link : str :=
  U "https://detail.1688.com/offer/775610063728.html?offerId=775610063728&spm=a260k.home2025.recommendpart.18".

(** A list of links with a comment, a blank line, a link written twice and
    a line that is no product page. *)
Definition links_file : Outside.text_file :=
  {| Outside.yielded :=
       [U "# 商品链接" ++ [10%N];
        U "  https://detail.1688.com/offer/1.html  " ++ [10%N];
        [10%N];
        U "https://www.1688.com/" ++ [10%N];
        U "#https://detail.1688.com/offer/2.html" ++ [10%N];
        U "https://detail.1688.com/offer/1.html"];
     Outside.broken := false |}.
(** The URLs asked for and the files saved, in order. *)
Definition requested (events : list download_event) : list str :=
  omap (fun e => match e with Request u => Some u | _ => None end) events.

Definition saved (events : list download_event) : list (str * list N) :=
  omap (fun e => match e with Save name bytes => Some (name, bytes) | _ => None end) events.

(** The image at position [i] is saved under [name]: the request was
    answered with status 200 and the extension is a known one. *)
Definition saved_image (requests_get : nat -> str -> option Outside.Response)
    (product_index : Z) (images_data : list image) (name : str) (bytes : list N) : Prop :=
  exists i img_data response,
    images_data !! i = Some img_data
    /\ requests_get i (url img_data) = Some response
    /\ Outside.status_code response = 200
    /\ bytes = Outside.content response
    /\ In (get_image_extension (url img_data) (Some response)) url_extensions
    /\ name = image_filename product_index i (source img_data)
                (get_image_extension (url img_data) (Some response)).

(** The number a string of decimal digits writes. *)
Definition number (s : str) : N := fold_left (fun acc c => (acc * 10 + (c - 48))%N) s 0%N.

(** Two images, the second of which the server refuses. *)
Definition two_images : list image :=
  [ {| url := U "https://cbu01.alicdn.com/img/a_b.JPG"; alt := []; width := U "300";
       height := U "300"; class := []; source := U "img_tag" |};
    {| url := U "https://cbu01.alicdn.com/img/c"; alt := []; width := U "0";
       height := U "0"; class := []; source := U "regex_extract" |} ].

Definition one_answer (i : nat) (u : str) : option Outside.Response :=
  match i with
  | O => Some {| Outside.status_code := 200; Outside.content_type := Some (U "image/png");
                 Outside.content := [137; 80; 78; 71]%N |}
  | _ => Some {| Outside.status_code := 403; Outside.content_type := None;
                 Outside.content := [] |}
  end.
(** An ASCII digit. *)
Definition ascii_digit (c : N) : Prop := (48 <= c <= 57)%N.

(** A download loop of [batch_1688.py] or [enhanced_1688.py] fetches the
    images [images_data] under the names [name]: it asks for each of them
    once, in order, and every file it saves is the body of a response with
    status 200, named after the position of the image with one of the four
    extensions. *)
Definition fetches (requests_get : nat -> str -> option Outside.Response)
    (name : nat -> str -> str) (images_data : list image_info)
    (events : list download_event) : Prop :=
  requested events = map info_url images_data
  /\ (length (saved events) <= length images_data)%nat
  /\ forall filename bytes, In (filename, bytes) (saved events) ->
       exists i img_data response ext,
         images_data !! i = Some img_data
         /\ requests_get i (info_url img_data) = Some response
         /\ Outside.status_code response = 200
         /\ bytes = Outside.content response
         /\ In ext [U "jpg"; U "jpeg"; U "png"; U "webp"]
         /\ filename = name i ext.

(** Four images, all served. *)
Definition four_infos : list image_info :=
  map (fun u => {| info_url := u; info_alt := []; info_width := Zero; info_height := Zero |})
      [U "https://x.com/a.png?v=1.2"; U "https://x.com/b.PNG"; U "https://x.com/c.webp";
       U "https://x.com/d.jpg"].

Definition every_answer (i : nat) (u : str) : option Outside.Response :=
  Some {| Outside.status_code := 200; Outside.content_type := None;
          Outside.content := [N.of_nat i] |}.

(** *** The files of a batch *)

(** The files a run writes or tries to write, in order. *)
Definition written (events : list event) : list file :=
  omap (fun e => match e with Write f _ => Some f | _ => None end) events.

(** [w1] is [w] after events that write no file, with the same results. *)
Definition leaves_files (w w1 : World) : Prop :=
  all_products_data w1 = all_products_data w
  /\ exists events, trace w1 = trace w ++ events /\ written events = [].

(** [m] writes no file and leaves the results alone, however it ends. *)
Definition writes_no_file {A} (m : M A) : Prop :=
  forall w,
    outcome m w (fun _ w1 => leaves_files w w1) (fun _ w1 => leaves_files w w1) True.

(** The files of a batch that appended [appended] and returns [results]:
    one product file for each record appended, under the index of the
    record and in the order of the results; then, when there are results,
    the JSON file of the batch, and after it the CSV summary unless the
    JSON file could not be written. *)
Definition batch_files (appended results : list product) (files : list file) : Prop :=
  exists closing,
    files = map (fun d => ProductJson (index_of d) d) appended ++ closing
    /\ match results with
       | [] => closing = []
       | _ => closing = [BatchJson results] \/ closing = [BatchJson results; BatchCsv results]
       end.

(** A batch saves what it appends, and nothing else. *)
Definition saves_its_records (process : list str -> M (list product)) : Prop :=
  forall urls w,
    ends_everywhere w -> warm w -> urls <> [] ->
    exists results w1 appended events,
      process urls w = Ret results w1
      /\ results = all_products_data w ++ appended
      /\ trace w1 = trace w ++ events
      /\ batch_files appended results (written events)
      /\ forall ok, In (Write (BatchCsv results) ok) events ->
                    In (Write (BatchJson results) true) events.

(** * Properties: proofs *)

(** ** The quality score *)

Lemma size_bonus_cases (img : image) :
  (size_bonus img = 40 /\ sizes_above 200 img)
  \/ (size_bonus img = 20 /\ sizes_above 100 img /\ ~ sizes_above 200 img)
  \/ (size_bonus img = 0 /\ ~ sizes_above 100 img).
Proof.
  unfold size_bonus, sizes_above.
  destruct (int (width img)) as [w|] eqn:Hw, (int (height img)) as [h|] eqn:Hh;
    try (right; right; split; [reflexivity|]; intros (w' & h' & ? & ? & ?); congruence).
  destruct (200 <? w) eqn:E1, (200 <? h) eqn:E2; simpl;
    try (left; split; [reflexivity|]; exists w, h; repeat split; lia);
    (destruct (100 <? w) eqn:E3, (100 <? h) eqn:E4; simpl;
     [ right; left; split; [reflexivity|]; split;
       [ exists w, h; repeat split; lia
       | intros (w' & h' & Hw' & Hh' & ? & ?); inversion Hw'; inversion Hh'; subst; lia ]
     | right; right; split; [reflexivity|];
       intros (w' & h' & Hw' & Hh' & ? & ?); inversion Hw'; inversion Hh'; subst; lia .. ]).
Qed.

(** C3, as the code has it: the score is the sum of five bonuses. Besides
    +100 for a large-rendition hint in the lower-cased URL, +50 for the host
    cbu01.alicdn.com and +20 for the origin [img_tag], the +30 is given for
    a URL containing 800, 600 or 400, and the declared sizes add +40 when
    both exceed 200, else +20 when both exceed 100. *)
Theorem get_image_priority_bonuses (img : image) :
  exists (hint cdn digits tag : bool) (size : Z),
    get_image_priority img =
      (if hint then 100 else 0) + (if cdn then 50 else 0)
      + (if digits then 30 else 0) + (if tag then 20 else 0) + size
    /\ (hint = true <->
        contains (U "_b.jpg") (lower (url img)) = true
        \/ contains (U "_large") (lower (url img)) = true
        \/ contains (U "_big") (lower (url img)) = true)
    /\ (cdn = true <-> contains (U "cbu01.alicdn.com") (lower (url img)) = true)
    /\ (digits = true <->
        exists d, In d [U "800"; U "600"; U "400"] /\ contains d (lower (url img)) = true)
    /\ (tag = true <-> source img = U "img_tag")
    /\ ((size = 40 /\ sizes_above 200 img)
        \/ (size = 20 /\ sizes_above 100 img /\ ~ sizes_above 200 img)
        \/ (size = 0 /\ ~ sizes_above 100 img)).
Proof.
  exists (contains (U "_b.jpg") (lower (url img)) || contains (U "_large") (lower (url img))
          || contains (U "_big") (lower (url img))),
         (contains (U "cbu01.alicdn.com") (lower (url img))),
         (any_in [U "800"; U "600"; U "400"] (lower (url img))),
         (bool_decide (source img = U "img_tag")),
         (size_bonus img).
  split; [reflexivity|].
  split; [rewrite !orb_true_iff; tauto|].
  split; [tauto|].
  split.
  { unfold any_in. rewrite existsb_exists. reflexivity. }
  split; [apply bool_decide_eq_true|].
  apply size_bonus_cases.
Qed.

(** C3 as stated fails: a 300 by 300 image without hint, CDN host or
    [img_tag] origin scores 40, which no choice of the dimension bonus
    gives. *)
Lemma score_is_not_four_bonuses :
  ~ exists large, get_image_priority plain_image = claimed_score large plain_image.
Proof.
  intros [large H]. vm_compute in H. destruct (large _); discriminate.
Qed.

(** ** The title *)


Lemma first_some_Some {A B} (f : A -> option B) (l : list A) (b : B) :
  first_some f l = Some b <->
  exists i x, l !! i = Some x /\ f x = Some b
              /\ forall j y, (j < i)%nat -> l !! j = Some y -> f y = None.
Proof.
  induction l as [|a l IH]; simpl.
  - split; [discriminate|]. intros (i & x & H & _). destruct i; discriminate.
  - destruct (f a) eqn:E.
    + split.
      * intros [= ->]. exists 0%nat, a. repeat split; auto. intros j y Hj. lia.
      * intros (i & x & Hi & Hx & Hlt). destruct i as [|i].
        -- simpl in Hi. injection Hi as <-. congruence.
        -- specialize (Hlt 0%nat a ltac:(lia) eq_refl). congruence.
    + rewrite IH. split.
      * intros (i & x & Hi & Hx & Hlt). exists (S i), x. repeat split; auto.
        intros [|j] y Hj Hy; simpl in Hy.
        -- injection Hy as <-. exact E.
        -- apply (Hlt j); [lia|assumption].
      * intros (i & x & Hi & Hx & Hlt). destruct i as [|i].
        -- simpl in Hi. injection Hi as <-. congruence.
        -- exists i, x. repeat split; auto.
           intros j y Hj Hy. apply (Hlt (S j)); [lia|assumption].
Qed.




(** ** The specification table *)

Lemma scan_row_of (r : list str) (specs : gmap str str) :
  scan_row (row_of r) specs = (bind_row specs r, true).
Proof.
  destruct r as [|c0 [|c1 r]]; reflexivity.
Qed.

Lemma scan_rows_of (rs : list (list str)) (specs : gmap str str) :
  for_until scan_row (map row_of rs) specs = (fold_left bind_row rs specs, true).
Proof.
  revert specs. induction rs as [|r rs IH]; intros specs; simpl; [reflexivity|].
  rewrite scan_row_of. apply IH.
Qed.

Lemma scan_tables_of (ts : list (list (list str))) (specs : gmap str str) :
  for_until scan_table (map table_of ts) specs
  = (fold_left bind_row (concat ts) specs, true).
Proof.
  revert specs. induction ts as [|t ts IH]; intros specs; simpl; [reflexivity|].
  unfold scan_table at 1. simpl. rewrite scan_rows_of, IH, fold_left_app. reflexivity.
Qed.

Lemma bind_rows_lookup (scanned : list (list str)) (specs : gmap str str) (k : str) :
  fold_left bind_row scanned specs !! k
  = match last_binding k scanned with
    | Some v => Some v
    | None => specs !! k
    end.
Proof.
  induction scanned as [|r scanned IH] using rev_ind; [reflexivity|].
  rewrite fold_left_app. simpl. unfold last_binding in *.
  rewrite List.filter_app. simpl.
  destruct r as [|c0 [|c1 r]]; simpl; try (rewrite app_nil_r; exact IH).
  destruct (truthy (strip c0)) eqn:E0, (truthy (strip c1)) eqn:E1; simpl;
    rewrite ?andb_false_r, ?andb_true_r, ?app_nil_r; try exact IH.
  destruct (decide (strip c0 = k)) as [<-|Hne].
  - rewrite bool_decide_eq_true_2 by reflexivity. rewrite last_snoc.
    apply lookup_insert_eq.
  - rewrite bool_decide_eq_false_2 by assumption. rewrite app_nil_r.
    rewrite lookup_insert_ne by assumption. exact IH.
Qed.

(** C6: over the scanned rows, each key is bound to the value of the last
    row whose first cell is that key with key and value both non-empty
    (rows with fewer than two cells bind nothing); the two rows
    (颜色, 红), (颜色, 蓝) give the map with 颜色 bound to 蓝. *)
Theorem extract_specifications_last_write_wins (p : Page) (ts : list (list (list str))) :
  tables p = Ok (map table_of ts) ->
  (forall k, extract_specifications p !! k = last_binding k (concat ts))
  /\ (ts = [colour_rows] -> extract_specifications p = {[ U "颜色" := U "蓝" ]}).
Proof.
  intros Hp.
  assert (forall k, extract_specifications p !! k = last_binding k (concat ts)) as Hall.
  { intros k. unfold extract_specifications. rewrite Hp, scan_tables_of. simpl.
    rewrite bind_rows_lookup, lookup_empty. now destruct (last_binding k (concat ts)). }
  split; [exact Hall|].
  intros ->. apply map_eq. intros k. rewrite Hall.
  unfold last_binding, colour_rows. simpl concat. simpl List.filter.
  change (strip (U "颜色")) with (U "颜色").
  change (strip (U "红")) with (U "红").
  change (strip (U "蓝")) with (U "蓝").
  destruct (decide (U "颜色" = k)) as [<-|Hne].
  - rewrite bool_decide_eq_true_2 by reflexivity. simpl.
    symmetry. apply lookup_singleton_eq.
  - rewrite bool_decide_eq_false_2 by assumption. simpl.
    symmetry. apply lookup_singleton_ne. assumption.
Qed.

(** The example table, alone in a document. *)
Lemma colour_table_resolves_to_last :
  extract_specifications colour_page = {[ U "颜色" := U "蓝" ]}.
Proof.
  exact (proj2 (extract_specifications_last_write_wins colour_page [colour_rows] eq_refl)
               eq_refl).
Defined.

(** ** Prices *)

Lemma In_take {A} (x : A) (n : nat) (l : list A) : In x (take n l) -> In x l.
Proof.
  revert n. induction l as [|a l IH]; intros [|n]; simpl; try tauto.
  intros [H|H]; [now left|right; eauto].
Qed.

Lemma first_occurrences_order : set_order first_occurrences.
Proof.
  intros xs. split; [apply NoDup_ListNoDup, List.NoDup_nodup|]. intros x. apply nodup_In.
Qed.

Lemma price_text_selector (selectors : list str) (p : Page) (selector : str)
    (elements done : list Element) (prices : list str) :
  In selector selectors -> css p selector = Ok (done ++ elements) ->
  (forall x, In x prices -> selector_text selectors p x) ->
  forall x, In x (fst (for_until price_text elements prices)) -> selector_text selectors p x.
Proof.
  intros Hsel. revert done prices.
  induction elements as [|e elements IH]; intros done prices Hcss Hprices; simpl; [exact Hprices|].
  unfold price_text at 1.
  destruct (text e) as [t|] eqn:Ht; simpl; [|exact Hprices].
  apply (IH (done ++ [e])); [now rewrite <- app_assoc|].
  destruct (truthy (strip t)) eqn:E1; simpl; [|exact Hprices].
  destruct (any_in price_markers (strip t)) eqn:E2; [|exact Hprices].
  intros x Hx. apply in_app_or in Hx as [Hx|[<-|[]]]; [auto|].
  exists selector, (done ++ e :: elements), e, t.
  repeat split; auto. apply in_or_app. right. now left.
Qed.

Lemma selector_prices_texts (selectors : list str) (p : Page) :
  forall x, In x (selector_prices_with selectors p) -> selector_text selectors p x.
Proof.
  unfold selector_prices_with.
  assert (forall todo prices,
    (forall s, In s todo -> In s selectors) ->
    (forall x, In x prices -> selector_text selectors p x) ->
    forall x, In x (fold_left (fun prices selector =>
        match css p selector with
        | Ok elements => fst (for_until price_text elements prices)
        | Raise _ => prices
        end) todo prices) -> selector_text selectors p x) as H.
  { induction todo as [|selector todo IH]; intros prices Hsub Hprices; simpl; [exact Hprices|].
    apply IH; [intros s Hs; apply Hsub; now right|].
    destruct (css p selector) as [elements|] eqn:Hcss; [|exact Hprices].
    apply (price_text_selector selectors p selector elements []); auto.
    apply Hsub. now left. }
  apply H; [auto|intros x []].
Qed.

Lemma pattern_prices_matches (p : Page) (page_text : str) :
  body_text p = Ok page_text ->
  forall x, In x (pattern_prices page_text) -> pattern_match p x.
Proof.
  intros Hbody x Hx. unfold pattern_prices in Hx.
  apply in_flat_map in Hx as (pattern & Hp & Hx).
  exists page_text, pattern. auto.
Qed.

Lemma first_three_unique_spec (list_of_set : list str -> list str) (prices : list str) :
  set_order list_of_set ->
  (first_three_unique list_of_set prices = None /\ prices = [])
  \/ exists l, first_three_unique list_of_set prices = Some l
       /\ l = take 3 (list_of_set prices)
       /\ (0 < length l <= 3)%nat /\ NoDup l /\ forall x, In x l -> In x prices.
Proof.
  intros Hset. destruct prices as [|x0 prices]; [left; split; reflexivity|].
  right. eexists. split; [reflexivity|]. split; [reflexivity|].
  destruct (Hset (x0 :: prices)) as [Hnd Hin].
  repeat split.
  - destruct (list_of_set (x0 :: prices)) as [|y l] eqn:E; simpl; [|lia].
    exfalso. apply (Hin x0). now left.
  - apply firstn_le_length.
  - apply (sublist_NoDup _ _ Hnd), sublist_take.
  - intros x Hx. apply Hin. eapply In_take, Hx.
Qed.

(** C4, as the code has it: in [simple_batch_1688.py] the extractor
    returns on every page, nothing when there is no candidate, and otherwise
    at most three pairwise distinct strings, each a selector text containing
    a price marker or a match of a price pattern over the body text, namely
    the first three of the deduplicated candidates as the set enumerates
    them. In [batch_1688.py] the same holds on every page whose body text
    can be read; when it cannot, the extractor raises the error of the
    read. *)
Theorem extract_price_candidates (list_of_set : list str -> list str) (p : Page) :
  set_order list_of_set ->
  ((extract_price list_of_set p = None /\ price_candidates p = [])
   \/ exists l, extract_price list_of_set p = Some l
        /\ (0 < length l <= 3)%nat /\ NoDup l
        /\ (forall x, In x l -> selector_text price_selectors p x \/ pattern_match p x)
        /\ l = take 3 (list_of_set (price_candidates p)))
  /\ match body_text p with
     | Ok page_text =>
       let candidates :=
         selector_prices_with Batch1688Crawler.price_selectors p
         ++ pattern_prices page_text in
       (Batch1688Crawler.extract_price list_of_set p = Ok None /\ candidates = [])
       \/ exists l, Batch1688Crawler.extract_price list_of_set p = Ok (Some l)
            /\ (0 < length l <= 3)%nat /\ NoDup l
            /\ (forall x, In x l ->
                  selector_text Batch1688Crawler.price_selectors p x \/ pattern_match p x)
            /\ l = take 3 (list_of_set candidates)
     | Raise e => Batch1688Crawler.extract_price list_of_set p = Raise e
     end.
Proof.
  intros Hset. split.
  - unfold extract_price.
    destruct (first_three_unique_spec list_of_set (price_candidates p) Hset)
      as [[H1 H2]|(l & H1 & H2 & H3 & H4 & H5)]; [left; auto|].
    right. exists l. repeat split; auto; try apply H3.
    intros x Hx. apply H5 in Hx. unfold price_candidates in Hx.
    apply in_app_or in Hx as [Hx|Hx].
    + left. now apply selector_prices_texts.
    + right. destruct (body_text p) as [page_text|] eqn:Hb; [|destruct Hx].
      eapply pattern_prices_matches; eauto.
  - unfold Batch1688Crawler.extract_price, mbind, Exc_bind, exc_bind. cbv zeta.
    destruct (body_text p) as [page_text|e] eqn:Hb; [|reflexivity].
    destruct (first_three_unique_spec list_of_set
                (selector_prices_with Batch1688Crawler.price_selectors p
                 ++ pattern_prices page_text) Hset)
      as [[H1 H2]|(l & H1 & H2 & H3 & H4 & H5)]; rewrite H1; [left; auto|].
    right. exists l. split; [reflexivity|]. split; [exact H3|]. split; [exact H4|].
    split; [|exact H2].
    intros x Hx. apply H5 in Hx. apply in_app_or in Hx as [Hx|Hx].
    + left. now apply selector_prices_texts.
    + right. eapply pattern_prices_matches; eauto.
Qed.

(** On the example text the three amounts are returned. *)
Lemma extract_price_example :
  extract_price first_occurrences (text_page price_text_example)
  = Some [U "¥199.00"; U "¥159.00"; U "¥179.00"].
Proof.
  pose proof (extract_price_candidates first_occurrences (text_page price_text_example)
                first_occurrences_order) as [Hd _].
  destruct Hd as [[H _]|(l & H & _)].
  - vm_compute in H. discriminate.
  - vm_compute. reflexivity.
Defined.

(** C4 as stated fails for [batch_1688.py]: on a document whose [body]
    cannot be found, [extract_price] of [simple_batch_1688.py] returns the
    amount its selectors found, while that of [batch_1688.py], which reads
    the body outside any [try], raises instead of returning. *)
Lemma unreadable_body_raises_in_batch :
  extract_price first_occurrences unreadable_page = Some [U "¥12.50"]
  /\ Batch1688Crawler.extract_price first_occurrences unreadable_page
     = Raise NoSuchElementException
  /\ ~ always_returns (Batch1688Crawler.extract_price first_occurrences).
Proof.
  assert (Batch1688Crawler.extract_price first_occurrences unreadable_page
          = Raise NoSuchElementException) as H by reflexivity.
  split; [vm_compute; reflexivity|]. split; [exact H|].
  intros Hall. destruct (Hall unreadable_page) as [prices Hp].
  rewrite H in Hp. discriminate Hp.
Qed.

(** *** The patterns *)

Lemma exec_sound {A} (r : re) :
  forall (s : str) (k : str -> option A) (x : A),
    exec r s k = Some x ->
    exists m rest, s = m ++ rest /\ matches r m /\ k rest = Some x.
Proof.
  induction r as [|p|r1 IH1 r2 IH2|r1 IH1 r2 IH2|r IH]; intros s k x H; simpl in H.
  - exists [], s. repeat split; [constructor|assumption].
  - destruct s as [|c s]; [discriminate|].
    destruct (p c) eqn:E; [|discriminate].
    exists [c], s. repeat split; [now constructor|assumption].
  - apply IH1 in H as (m1 & rest1 & -> & Hm1 & H).
    apply IH2 in H as (m2 & rest2 & -> & Hm2 & H).
    exists (m1 ++ m2), rest2. rewrite <- app_assoc. repeat split; [now constructor|assumption].
  - destruct (exec r1 s k) eqn:E.
    + injection H as ->. apply IH1 in E as (m & rest & -> & Hm & E).
      exists m, rest. repeat split; [now apply matches_alt_l|assumption].
    + apply IH2 in H as (m & rest & -> & Hm & H).
      exists m, rest. repeat split; [now apply matches_alt_r|assumption].
  - revert H. generalize (length s) as n. intros n. revert s.
    induction n as [|n IHn]; intros s H.
    + exists [], s. repeat split; [constructor|assumption].
    + match type of H with
      | match ?e with _ => _ end = _ => destruct e eqn:E
      end.
      * injection H as ->. apply IH in E as (m & rest & -> & Hm & E).
        destruct (length rest <? length (m ++ rest))%nat; [|discriminate].
        apply IHn in E as (m2 & rest2 & -> & Hm2 & E).
        exists (m ++ m2), rest2. rewrite <- app_assoc.
        repeat split; [now constructor|assumption].
      * exists [], s. repeat split; [constructor|assumption].
Qed.

Lemma match_prefix_sound (r : re) (s m : str) :
  match_prefix r s = Some m -> matches r m /\ exists rest, s = m ++ rest.
Proof.
  unfold match_prefix. intros H.
  apply exec_sound in H as (m' & rest & -> & Hm & H).
  injection H as <-.
  rewrite length_app.
  replace (length m' + length rest - length rest)%nat with (length m') by lia.
  rewrite take_app_length. eauto.
Qed.

Lemma scan_sound (r : re) (s : str) :
  forall skip x, In x (scan r s skip) -> matches r x.
Proof.
  induction s as [|c s IH]; intros skip x; simpl.
  - destruct skip; [|intros []].
    destruct (match_prefix r []) eqn:E; [|intros []].
    intros [<-|[]]. now apply match_prefix_sound in E.
  - destruct skip; [|apply IH].
    destruct (match_prefix r (c :: s)) eqn:E; [|apply IH].
    intros [<-|H]; [now apply match_prefix_sound in E|eapply IH, H].
Qed.

Lemma matches_star_chr (p : N -> bool) (m : str) :
  matches (Star (Chr p)) m -> forallb p m = true.
Proof.
  intros H. remember (Star (Chr p)) as r eqn:Hr.
  induction H; try discriminate; [reflexivity|].
  injection Hr as ->. inversion H as [|? c Hc| | | | |]; subst. simpl.
  rewrite IHmatches2 by reflexivity. now rewrite Hc.
Qed.

Lemma matches_plus_chr (p : N -> bool) (r : re) (m : str) :
  matches (Cat (Plus (Chr p)) r) m -> exists c m1, m = c :: m1 /\ p c = true.
Proof.
  intros H. inversion H as [| |? ? a b Ha Hb| | | |]; subst.
  inversion Ha as [| |? ? a1 b1 Ha1 Hb1| | | |]; subst.
  inversion Ha1; subst. simpl. eauto.
Qed.

Lemma matches_sign_amount (sign : N) (m : str) :
  matches (Cat (Cat (Lit sign) Eps) (Plus amount)) m ->
  exists cs, m = sign :: cs /\ forallb amount_char cs = true.
Proof.
  intros H. inversion H as [| |? ? a b Ha Hb| | | |]; subst.
  inversion Ha as [| |? ? a1 b1 Ha1 Hb1| | | |]; subst.
  inversion Ha1 as [|? c Hc| | | | |]; subst. inversion Hb1; subst.
  apply N.eqb_eq in Hc as <-.
  inversion Hb as [| |? ? a2 b2 Ha2 Hb2| | | |]; subst.
  inversion Ha2 as [|? c2 Hc2| | | | |]; subst.
  apply matches_star_chr in Hb2.
  exists (c2 :: b2). split; [reflexivity|]. simpl. now rewrite Hc2, Hb2.
Qed.

Lemma exec_Eps {A} (s : str) (k : str -> option A) : exec Eps s k = k s.
Proof. reflexivity. Qed.

Lemma exec_Chr {A} (p : N -> bool) (c : N) (s : str) (k : str -> option A) :
  exec (Chr p) (c :: s) k = if p c then k s else None.
Proof. reflexivity. Qed.

Lemma exec_Cat {A} (r1 r2 : re) (s : str) (k : str -> option A) :
  exec (Cat r1 r2) s k = exec r1 s (fun s1 => exec r2 s1 k).
Proof. reflexivity. Qed.

Lemma exec_star_greedy {A} (p : N -> bool) (f : str -> A) (s : str) :
  exec (Star (Chr p)) s (fun rest => Some (f rest)) = Some (f (skip_while p s)).
Proof.
  simpl. remember (length s) as n eqn:Hn.
  assert (length s <= n)%nat as Hle by lia. clear Hn. revert s Hle.
  induction n as [|n IH]; intros s Hle.
  - destruct s; [reflexivity|simpl in Hle; lia].
  - destruct s as [|c s]; [reflexivity|]. simpl in Hle. simpl.
    destruct (p c); [|reflexivity].
    replace (length s <? S (length s))%nat with true by (symmetry; apply Nat.ltb_lt; lia).
    rewrite IH by lia. reflexivity.
Qed.

Lemma skip_while_run (p : N -> bool) (run post : str) :
  forallb p run = true ->
  match post with [] => True | c :: _ => p c = false end ->
  skip_while p (run ++ post) = post.
Proof.
  intros Hrun Hpost. induction run as [|c run IH]; simpl in *.
  - destruct post as [|c post]; [reflexivity|]. simpl. now rewrite Hpost.
  - apply andb_prop in Hrun as [-> Hrun]. auto.
Qed.

Lemma match_sign_amount (sign : N) (d : N) (ds post : str) :
  forallb amount_char (d :: ds) = true -> delimited post ->
  match_prefix (Cat (Cat (Lit sign) Eps) (Plus amount)) (sign :: d :: ds ++ post)
  = Some (sign :: d :: ds).
Proof.
  intros Hds Hpost. simpl in Hds. apply andb_prop in Hds as [Hd Hds].
  unfold match_prefix, Plus, amount, Lit.
  rewrite !exec_Cat, exec_Chr. rewrite N.eqb_refl.
  rewrite exec_Eps, exec_Cat, exec_Chr, Hd.
  rewrite (exec_star_greedy amount_char
             (fun rest => take (length (sign :: d :: ds ++ post) - length rest)
                               (sign :: d :: ds ++ post))).
  rewrite skip_while_run by assumption.
  f_equal. simpl length. rewrite length_app.
  replace (S (S (length ds + length post)) - length post)%nat
    with (length (sign :: d :: ds)) by (simpl; lia).
  change (sign :: d :: ds ++ post) with ((sign :: d :: ds) ++ post).
  apply take_app_length.
Qed.

(** A sign followed by a delimited amount is found wherever it stands:
    an earlier match cannot run over the sign. *)
Lemma scan_sign_amount (sign d : N) (ds post : str) :
  amount_char sign = false ->
  forallb amount_char (d :: ds) = true -> delimited post ->
  forall pre skip,
    forallb amount_char (take skip (pre ++ sign :: d :: ds ++ post)) = true ->
    In (sign :: d :: ds)
       (scan (Cat (Cat (Lit sign) Eps) (Plus amount)) (pre ++ sign :: d :: ds ++ post) skip).
Proof.
  intros Hsign Hds Hpost. induction pre as [|c pre IH]; intros skip Hskip.
  - destruct skip as [|skip].
    + simpl app. cbn [scan]. rewrite match_sign_amount by assumption. now left.
    + simpl in Hskip. rewrite Hsign in Hskip. discriminate.
  - simpl app. cbn [scan]. destruct skip as [|skip].
    + destruct (match_prefix _ (c :: pre ++ sign :: d :: ds ++ post)) as [m|] eqn:E.
      * right. apply IH.
        apply match_prefix_sound in E as [Hm [rest Hrest]].
        apply matches_sign_amount in Hm as (cs & -> & Hcs).
        simpl in Hrest. injection Hrest as -> Hrest. rewrite Hrest.
        replace (length (sign :: cs) - 1)%nat with (length cs) by (simpl; lia).
        rewrite take_app_length. exact Hcs.
      * apply IH. reflexivity.
    + apply IH. simpl in Hskip. now apply andb_prop in Hskip as [_ Hskip].
Qed.

Lemma yen_amount_found (d : N) (ds pre post : str) :
  forallb amount_char (d :: ds) = true -> delimited post ->
  In (165%N :: d :: ds) (pattern_prices (pre ++ 165%N :: d :: ds ++ post)).
Proof.
  intros Hds Hpost. unfold pattern_prices. apply in_flat_map.
  exists (Cat (Str (U "¥")) (Plus amount)). split; [right; now left|].
  change (Str (U "¥")) with (Cat (Lit 165) Eps).
  apply scan_sign_amount; auto.
Qed.

Lemma range_is_no_match (page_text : str) :
  ~ In price_range (pattern_prices page_text).
Proof.
  intros H. unfold pattern_prices in H. apply in_flat_map in H as (pattern & Hp & H).
  apply scan_sound in H.
  assert (forall X Y, matches (Cat (Cat (Plus Digit) X) Y) price_range -> False) as Hdigit.
  { intros X Y Hm. inversion Hm as [| |? ? a b Ha Hb| | | |]; subst.
    apply matches_plus_chr in Ha as (c & m1 & -> & Hc).
    match goal with Heq : _ ++ _ = price_range |- _ => rename Heq into Hrange end.
    unfold price_range in Hrange. simpl app in Hrange.
    change (U "¥159.00-¥179.00") with (165%N :: U "159.00-¥179.00") in Hrange.
    injection Hrange as -> _. vm_compute in Hc. discriminate. }
  simpl in Hp. destruct Hp as [<-|[<-|[<-|[<-|[<-|[]]]]]].
  - change (Str (U "￥")) with (Cat (Lit 65509) Eps) in H.
    apply matches_sign_amount in H as (cs & Hcs & _). vm_compute in Hcs. discriminate.
  - change (Str (U "¥")) with (Cat (Lit 165) Eps) in H.
    apply matches_sign_amount in H as (cs & Hcs & Hall).
    vm_compute in Hcs. injection Hcs as <-. vm_compute in Hall. discriminate.
  - eapply Hdigit, H.
  - eapply Hdigit, H.
  - eapply Hdigit, H.
Qed.

Lemma returned_from_candidates (list_of_set : list str -> list str) (p : Page) (l : list str) :
  set_order list_of_set ->
  extract_price list_of_set p = Some l ->
  l = take 3 (list_of_set (price_candidates p))
  /\ forall x, In x l -> In x (price_candidates p).
Proof.
  intros Hset Hl. unfold extract_price in Hl.
  destruct (first_three_unique_spec list_of_set (price_candidates p) Hset)
    as [[H1 _]|(l' & H1 & H2 & _ & _ & H5)]; rewrite H1 in Hl; [discriminate|].
  injection Hl as <-. auto.
Qed.

(** C5, as the code has it: an amount written with the yen sign and
    delimited in the body text is a candidate, so ¥199.00 is one and the
    range ¥159.00-¥179.00 contributes its two ends; all candidates are
    returned when the set has at most three members; the range itself is
    no match of any pattern, and is returned only as the text of an element
    found by a price selector. *)
Theorem body_amounts_are_candidates
    (list_of_set : list str -> list str) (p : Page) (page_text : str) :
  set_order list_of_set ->
  body_text p = Ok page_text ->
  (forall pre post, page_text = pre ++ U "¥199.00" ++ post -> delimited post ->
      In (U "¥199.00") (price_candidates p))
  /\ (forall pre post, page_text = pre ++ price_range ++ post -> delimited post ->
      In (U "¥159.00") (price_candidates p) /\ In (U "¥179.00") (price_candidates p))
  /\ (forall l, extract_price list_of_set p = Some l ->
      (length (list_of_set (price_candidates p)) <= 3)%nat ->
      forall x, In x (price_candidates p) -> In x l)
  /\ (forall l, extract_price list_of_set p = Some l ->
      In price_range l -> selector_text price_selectors p price_range).
Proof.
  intros Hset Hbody.
  assert (forall x, In x (pattern_prices page_text) -> In x (price_candidates p)) as Hpat.
  { intros x Hx. unfold price_candidates. rewrite Hbody. apply in_or_app. now right. }
  split; [|split; [|split]].
  - intros pre post -> Hpost. apply Hpat.
    change (U "¥199.00") with (165%N :: 49%N :: U "99.00").
    apply (yen_amount_found 49 (U "99.00") pre post); auto.
  - intros pre post -> Hpost. split; apply Hpat.
    + change price_range with ((165%N :: 49%N :: U "59.00") ++ U "-¥179.00").
      rewrite <- !app_assoc.
      apply (yen_amount_found 49 (U "59.00") pre (U "-¥179.00" ++ post)); auto.
      reflexivity.
    + change price_range with (U "¥159.00-" ++ (165%N :: 49%N :: U "79.00")).
      rewrite <- app_assoc, app_assoc.
      apply (yen_amount_found 49 (U "79.00") (pre ++ U "¥159.00-") post); auto.
  - intros l Hl Hlen x Hx.
    destruct (returned_from_candidates _ _ _ Hset Hl) as [-> _].
    rewrite take_ge by assumption. now apply (Hset (price_candidates p)).
  - intros l Hl Hin.
    destruct (returned_from_candidates _ _ _ Hset Hl) as [_ Hsub].
    apply Hsub in Hin. unfold price_candidates in Hin. rewrite Hbody in Hin.
    apply in_app_or in Hin as [Hin|Hin].
    + now apply selector_prices_texts.
    + now apply range_is_no_match in Hin.
Qed.

(** On the example text, ¥199.00 is a candidate. *)
Lemma example_amount_is_candidate :
  In (U "¥199.00") (price_candidates (text_page price_text_example)).
Proof.
  apply (proj1 (body_amounts_are_candidates first_occurrences
                  (text_page price_text_example) price_text_example
                  first_occurrences_order eq_refl)
               [] (U " ¥159.00-¥179.00") eq_refl).
  reflexivity.
Defined.

(** C5 as stated fails: the example text contains both strings, and the
    three candidates returned, by either class, are the amounts; the range
    is not among them. *)
Lemma price_range_is_not_returned :
  contains (U "¥199.00") price_text_example = true
  /\ contains price_range price_text_example = true
  /\ extract_price first_occurrences (text_page price_text_example)
     = Some [U "¥199.00"; U "¥159.00"; U "¥179.00"]
  /\ Batch1688Crawler.extract_price first_occurrences (text_page price_text_example)
     = Ok (Some [U "¥199.00"; U "¥159.00"; U "¥179.00"])
  /\ ~ both_strings_returned.
Proof.
  split; [vm_compute; reflexivity|].
  split; [vm_compute; reflexivity|].
  split; [vm_compute; reflexivity|].
  split; [vm_compute; reflexivity|].
  intros H.
  destruct (H first_occurrences (text_page price_text_example) price_text_example
              first_occurrences_order eq_refl) as (l & Hl & _ & Hin);
    try (vm_compute; reflexivity).
  vm_compute in Hl. injection Hl as <-.
  vm_compute in Hin. intuition discriminate.
Qed.

(** ** Runs of the crawler *)

Lemma outcome_ret {A} (a : A) (w : World) Q E H :
  Q a w -> outcome (mret a) w Q E H.
Proof. exact id. Qed.

Lemma outcome_bind {A B} (m : M A) (f : A -> M B) (w : World) Q E H :
  outcome m w (fun a w1 => outcome (f a) w1 Q E H) E H ->
  outcome (m ≫= f) w Q E H.
Proof.
  unfold outcome, mbind, M_bind. destruct (m w); auto.
Qed.

Lemma outcome_try {A} (m : M A) (handler : exn -> M A) (w : World) Q E H :
  outcome m w Q (fun e w1 => outcome (handler e) w1 Q E H) H ->
  outcome (try_except m handler) w Q E H.
Proof.
  unfold outcome, try_except. destruct (m w); auto.
Qed.

Lemma outcome_weaken {A} (m : M A) (w : World) (Q Q' : A -> World -> Prop)
    (E E' : exn -> World -> Prop) (H H' : Prop) :
  outcome m w Q E H ->
  (forall a w1, Q a w1 -> Q' a w1) -> (forall e w1, E e w1 -> E' e w1) -> (H -> H') ->
  outcome m w Q' E' H'.
Proof.
  unfold outcome. destruct (m w); auto.
Qed.

Lemma outcome_lift {A} (x : Exc A) (w : World) Q E H :
  match x with Ok a => Q a w | Raise e => E e w end ->
  outcome (lift x) w Q E H.
Proof.
  unfold outcome, lift. destruct x; auto.
Qed.

Lemma follows_refl (w : World) : follows w w.
Proof.
  repeat split; auto. exists []. now rewrite app_nil_r.
Qed.

Lemma follows_trans (w w1 w2 : World) : follows w w1 -> follows w1 w2 -> follows w w2.
Proof.
  intros (Hw & Hn & Hd & [ev1 Ht1] & Hs1 & Hx1) (Hw2 & Hn2 & Hd2 & [ev2 Ht2] & Hs2 & Hx2).
  repeat split; try congruence.
  - exists (ev1 ++ ev2). rewrite Ht2, Ht1. now rewrite app_assoc.
  - auto.
  - destruct Hx2 as [Hx2|(t & u & Hx2)].
    + rewrite Hx2. exact Hx1.
    + right. exists t, u. now rewrite <- Hw.
Qed.

Lemma follows_safe (w w1 : World) : safe w -> follows w w1 -> safe w1.
Proof.
  intros (Ha & Hs & Hweb) (Hw & _ & _ & _ & Hin & Hx).
  repeat split.
  - intros H. apply Ha, Hin, H.
  - destruct Hx as [->|(t & u & Hx)]; [assumption|eapply Hweb, Hx].
  - intros t u s. rewrite Hw. apply Hweb.
Qed.

Lemma follows_emit (e : event) (w : World) : follows w (emit e w).
Proof.
  repeat split; auto. now exists [e].
Qed.

Lemma behaves_ret {A} (a : A) : behaves (mret a).
Proof.
  intros w _. split; [apply follows_refl|reflexivity].
Qed.

Lemma behaves_bind {A B} (m : M A) (f : A -> M B) :
  behaves m -> (forall a, behaves (f a)) -> behaves (m ≫= f).
Proof.
  intros Hm Hf w Hw. apply outcome_bind.
  eapply outcome_weaken; [apply Hm, Hw| | |auto].
  - intros a w1 [H1 H2]. simpl.
    eapply outcome_weaken; [apply Hf, (follows_safe w); assumption| | |auto].
    + intros b w2 [H3 H4]. split; [eapply follows_trans; eauto|congruence].
    + intros e w2 [H3 H4]. split; [eapply follows_trans; eauto|congruence].
  - auto.
Qed.

Lemma behaves_try {A} (m : M A) (handler : exn -> M A) :
  behaves m -> (forall e, behaves (handler e)) -> behaves (try_except m handler).
Proof.
  intros Hm Hh w Hw. apply outcome_try.
  eapply outcome_weaken; [apply Hm, Hw| | |auto].
  - auto.
  - intros e w1 [H1 H2]. simpl.
    eapply outcome_weaken; [apply Hh, (follows_safe w); assumption| | |auto].
    + intros b w2 [H3 H4]. split; [eapply follows_trans; eauto|congruence].
    + intros e2 w2 [H3 H4]. split; [eapply follows_trans; eauto|congruence].
Qed.

Lemma behaves_lift {A} (x : Exc A) : behaves (lift x).
Proof.
  intros w _. apply outcome_lift. destruct x; (split; [apply follows_refl|reflexivity]).
Qed.

Lemma behaves_tell (e : event) : behaves (tell e).
Proof.
  intros w _. split; [apply follows_emit|reflexivity].
Qed.

Lemma behaves_page : behaves page.
Proof.
  intros w _. split; [apply follows_refl|reflexivity].
Qed.

Lemma behaves_isoformat_now : behaves isoformat_now.
Proof.
  intros w _. split; [apply follows_refl|reflexivity].
Qed.

Lemma behaves_sleep (lo hi : Z) : behaves (sleep lo hi).
Proof. apply behaves_tell. Qed.

Lemma behaves_execute_script (s : script) : behaves (execute_script s).
Proof.
  intros w _. unfold outcome, execute_script.
  destruct (execute (session w) s); (split; [apply follows_emit|reflexivity]).
Qed.

Lemma behaves_randint (a b : Z) : behaves (randint a b).
Proof.
  intros w _. unfold outcome, randint.
  destruct (random w); (split; [|reflexivity]).
  - apply follows_refl.
  - repeat split; auto. exists []. now rewrite app_nil_r.
Qed.

Lemma behaves_input : behaves input.
Proof.
  intros w (Ha & _ & _). unfold outcome, input. unfold attended in Ha.
  assert (follows w (answered (emit Prompt w))) as Hf.
  { repeat split; auto; simpl.
    - now exists [Prompt].
    - intros r Hr. destruct (stdin w); [destruct Hr|now right]. }
  destruct (stdin w) as [|[s| |] answers]; try (split; [exact Hf|reflexivity]).
  apply Ha. now left.
Qed.

Lemma behaves_driver_get (u : str) : behaves (driver_get u).
Proof.
  intros w _. unfold outcome, driver_get.
  destruct (web w (time w) u) as [s|e] eqn:E; (split; [|reflexivity]).
  - repeat split; auto; simpl.
    + now exists [Navigate u].
    + right. eauto.
  - apply follows_emit.
Qed.

Lemma outcome_tell (e : event) (w : World) Q E H :
  Q tt (emit e w) -> outcome (tell e) w Q E H.
Proof. exact id. Qed.

Lemma outcome_page (w : World) Q E H :
  Q (document (session w) (time w)) w -> outcome page w Q E H.
Proof. exact id. Qed.

Lemma outcome_driver_get (u : str) (w : World) Q E H :
  (forall s, web w (time w) u = Ok s -> Q tt (load s (emit (Navigate u) w))) ->
  (forall e, web w (time w) u = Raise e -> E e (emit (Navigate u) w)) ->
  outcome (driver_get u) w Q E H.
Proof.
  unfold outcome, driver_get. destruct (web w (time w) u); auto.
Qed.

Lemma outcome_execute_script (s : script) (w : World) Q E H :
  (forall n, execute (session w) s = Ok n -> Q n (emit (Execute s) w)) ->
  (forall e, execute (session w) s = Raise e -> E e (emit (Execute s) w)) ->
  outcome (execute_script s) w Q E H.
Proof.
  unfold outcome, execute_script. destruct (execute (session w) s); auto.
Qed.

Lemma outcome_randint (a b : Z) (w : World) (Q : Z -> World -> Prop) E H :
  a <= b ->
  (forall n w1, a <= n <= b -> session w1 = session w -> stdin w1 = stdin w ->
                web w1 = web w -> Q n w1) ->
  outcome (randint a b) w Q E H.
Proof.
  intros Hab HQ. unfold outcome, randint. destruct (random w) as [|r rs].
  - apply HQ; auto. lia.
  - apply HQ; auto.
    pose proof (Z.mod_pos_bound (Z.of_nat r) (b - a + 1) ltac:(lia)). lia.
Qed.

(** ** The anti-bot gate *)

Lemma check_keyword_eval (keyword : str) (w : World) :
  try_except (check_keyword keyword) (fun _ => mret false) w
  = match xpath_contains_text (document (session w) (time w)) keyword with
    | Ok (_ :: _) =>
      let w1 := answered (emit Prompt (emit (CaptchaNotice keyword) w)) in
      match stdin w with
      | Line _ :: _ => Ret true w1
      | Silent :: _ => Hang
      | _ => Ret false w1
      end
    | _ => Ret false w
    end.
Proof.
  unfold try_except, check_keyword, mbind, M_bind, page, lift.
  destruct (xpath_contains_text (document (session w) (time w)) keyword) as [[|e elements]|];
    try reflexivity.
  unfold tell, input. simpl.
  destruct (stdin w) as [|[s| |] answers]; reflexivity.
Qed.

Lemma wait_for_captcha_cons (keyword : str) (keywords : list str) (w : World) :
  wait_for_captcha (keyword :: keywords) w
  = match try_except (check_keyword keyword) (fun _ => mret false) w with
    | Ret true w1 => Ret true w1
    | Ret false w1 => wait_for_captcha keywords w1
    | Exn e w1 => Exn e w1
    | Hang => Hang
    end.
Proof.
  simpl. unfold mbind, M_bind.
  destruct (try_except (check_keyword keyword) (fun _ => mret false) w) as [[|] w1|e w1|];
    reflexivity.
Qed.




(** ** The behaviour simulator *)

Lemma repeat_scrolls_return (far : Z) (pause : Z * Z) (n : nat) (w : World) :
  100 <= far ->
  (forall y, exists h, execute (session w) (ScrollBy y) = Ok h) ->
  outcome (repeat_m n (scroll_y ← randint 100 far;
                       execute_script (ScrollBy scroll_y);;
                       sleep (fst pause) (snd pause))) w
    (fun _ w1 => session w1 = session w) (fun _ _ => False) False.
Proof.
  intros Hfar. revert w. induction n as [|n IH]; intros w Hok; simpl; [reflexivity|].
  apply outcome_bind, outcome_bind, outcome_randint; [assumption|].
  intros y w1 _ Hs _ _.
  apply outcome_bind, outcome_execute_script.
  - intros h _. apply outcome_tell. simpl.
    eapply outcome_weaken; [apply IH| | |auto].
    + simpl. intros y'. rewrite Hs. apply Hok.
    + simpl. intros _ w2 ->. exact Hs.
    + auto.
  - intros e He. rewrite Hs in He. destruct (Hok y) as [h Hh]. congruence.
Qed.

Lemma simulate_returns (most far : Z) (pause rest : Z * Z) (w : World) :
  2 <= most -> 100 <= far ->
  (forall y, exists h, execute (session w) (ScrollBy y) = Ok h) ->
  exists w1, simulate most far pause rest w = Ret tt w1.
Proof.
  intros Hmost Hfar Hok.
  assert (outcome (simulate most far pause rest) w
            (fun _ _ => True) (fun _ _ => False) False) as H.
  { unfold simulate. apply outcome_bind, outcome_randint; [assumption|].
    intros n w1 _ Hs _ _. apply outcome_bind.
    eapply outcome_weaken; [apply repeat_scrolls_return; [assumption|]| | |auto].
    - intros y. rewrite Hs. apply Hok.
    - intros _ w2 _. exact I.
    - auto. }
  unfold outcome in H. destruct (simulate most far pause rest w) as [[] w1| |];
    [eauto|contradiction..].
Qed.

Lemma simulate_raises (most far : Z) (pause rest : Z * Z) (w : World) (e : exn) :
  2 <= most -> 100 <= far ->
  (forall y, execute (session w) (ScrollBy y) = Raise e) ->
  outcome (simulate most far pause rest) w (fun _ _ => False) (fun e1 _ => e1 = e) False.
Proof.
  intros Hmost Hfar Hbad. unfold simulate.
  apply outcome_bind, outcome_randint; [assumption|].
  intros n w1 Hn Hs _ _. apply outcome_bind.
  destruct (Z.to_nat n) as [|k] eqn:Hk; [lia|]. simpl.
  apply outcome_bind, outcome_bind, outcome_randint; [assumption|].
  intros y w2 _ Hs2 _ _.
  apply outcome_bind, outcome_execute_script.
  - intros h Hh. rewrite Hs2, Hs, Hbad in Hh. discriminate.
  - intros e1 He1. rewrite Hs2, Hs, Hbad in He1. now injection He1 as <-.
Qed.

Lemma wait_for_captcha_quiet (keywords : list str) (w : World) :
  attended w ->
  outcome (wait_for_captcha keywords) w
    (fun _ w1 => session w1 = session w /\ web w1 = web w /\ follows w w1
                 /\ all_products_data w1 = all_products_data w)
    (fun _ _ => False) False.
Proof.
  revert w. induction keywords as [|keyword keywords IH]; intros w Hw.
  - repeat split; auto. apply follows_refl.
  - unfold outcome. rewrite wait_for_captcha_cons, check_keyword_eval.
    assert (follows w (answered (emit Prompt (emit (CaptchaNotice keyword) w)))) as Hf.
    { repeat split; auto; simpl.
      - exists [CaptchaNotice keyword; Prompt]. now rewrite <- app_assoc.
      - intros r Hr. destruct (stdin w); [destruct Hr|now right]. }
    destruct (xpath_contains_text (document (session w) (time w)) keyword) as [[|e elements]|];
      try apply IH; auto.
    assert (attended (answered (emit Prompt (emit (CaptchaNotice keyword) w)))) as Hw1.
    { unfold attended in *. simpl. intros H. apply Hw.
      destruct (stdin w); [destruct H|now right]. }
    assert (outcome (wait_for_captcha keywords)
              (answered (emit Prompt (emit (CaptchaNotice keyword) w)))
              (fun _ w1 => session w1 = session w /\ web w1 = web w /\ follows w w1
                           /\ all_products_data w1 = all_products_data w)
              (fun _ _ => False) False) as Hnext.
    { eapply outcome_weaken; [apply IH, Hw1| | |auto]; [|auto].
      simpl. intros _ w1 (H1 & H2 & H3 & H4).
      split; [assumption|]. split; [assumption|]. split; [|assumption].
      eapply follows_trans; eauto. }
    unfold attended in Hw. cbv zeta.
    destruct (stdin w) as [|[s| |] answers] eqn:Hin.
    + exact Hnext.
    + split; [reflexivity|]. split; [reflexivity|]. split; [exact Hf|reflexivity].
    + exact Hnext.
    + apply Hw. now left.
Qed.

(** C8, as the code has it: [human_simulate] returns normally, with no
    value, when its scroll scripts succeed; when they raise, the exception
    leaves [human_simulate], in [simple_batch_1688.py] and in
    [enhanced_1688.py] alike, and is caught by the item pipeline, which
    returns [None] for the item. *)
Theorem human_simulate_propagates_script_errors (w : World) :
  ((forall y, exists h, execute (session w) (ScrollBy y) = Ok h) ->
     (exists w1, SimpleBatch1688.human_simulate w = Ret tt w1)
     /\ (exists w1, Enhanced1688Crawler.human_simulate w = Ret tt w1))
  /\ (forall e, (forall y, execute (session w) (ScrollBy y) = Raise e) ->
     (exists w1, SimpleBatch1688.human_simulate w = Exn e w1)
     /\ (exists w1, Enhanced1688Crawler.human_simulate w = Exn e w1))
  /\ (forall e list_of_set u index,
     attended w ->
     (forall t u1 s y, web w t u1 = Ok s -> execute s (ScrollBy y) = Raise e) ->
     exists w1, extract_single_product list_of_set u index w = Ret None w1).
Proof.
  split; [|split].
  - intros Hok. split; apply simulate_returns; auto; lia.
  - intros e Hbad.
    assert (forall most far pause rest, 2 <= most -> 100 <= far ->
              exists w1, simulate most far pause rest w = Exn e w1) as H.
    { intros most far pause rest H1 H2.
      pose proof (simulate_raises most far pause rest w e H1 H2 Hbad) as H.
      unfold outcome in H. destruct (simulate most far pause rest w) as [|e1 w1|];
        [contradiction|subst; eauto|contradiction]. }
    split; apply H; lia.
  - intros e list_of_set u index Hw Hbad.
    assert (outcome (extract_single_product list_of_set u index) w
              (fun r _ => r = None) (fun _ _ => False) False) as H.
    { unfold extract_single_product. apply outcome_try.
      apply outcome_bind, outcome_driver_get; [|intros; reflexivity].
      intros s Hs. apply outcome_bind, outcome_tell, outcome_bind.
      eapply outcome_weaken; [apply wait_for_captcha_quiet| | |auto].
      - exact Hw.
      - simpl. intros blocked w1 (H1 & H2 & _).
        assert (forall w2 B (k : unit -> M B) Q (E : exn -> World -> Prop),
                  session w2 = s -> (forall e1 w3, E e1 w3) ->
                  outcome (human_simulate ≫= k) w2 Q E False) as Hsim.
        { intros w2 B k Q E Hs2 HE. apply outcome_bind.
          eapply outcome_weaken;
            [apply (simulate_raises 4 400 (3, 10) (5, 20) w2 e); try lia| | |auto].
          - intros y. rewrite Hs2. eapply Hbad, Hs.
          - simpl. contradiction.
          - simpl. auto. }
        apply outcome_bind. destruct blocked.
        + apply outcome_tell. apply Hsim; [exact H1|reflexivity].
        + apply outcome_ret. apply Hsim; [exact H1|reflexivity].
      - intros ? ? []. }
    unfold outcome in H.
    destruct (extract_single_product list_of_set u index w) as [r w1| |];
      [subst; eauto|contradiction..].
Qed.

(** A session whose scrolling fails: the simulator raises. *)
Lemma human_simulate_raises_on_failing_scroll :
  (exists w1, SimpleBatch1688.human_simulate (world_of (still blank_page failing_scroll) [])
              = Exn JavascriptException w1)
  /\ (exists w1, Enhanced1688Crawler.human_simulate
                   (world_of (still blank_page failing_scroll) [])
                 = Exn JavascriptException w1).
Proof.
  apply (proj1 (proj2 (human_simulate_propagates_script_errors
                         (world_of (still blank_page failing_scroll) [])))).
  intros y. reflexivity.
Defined.

(** C8 as stated fails: with a scroll script that raises, the simulator of
    either class raises instead of returning. *)
Lemma human_simulate_can_fail :
  SimpleBatch1688.human_simulate (world_of (still blank_page failing_scroll) [])
  = Exn JavascriptException
      (emit (Execute (ScrollBy 100)) (world_of (still blank_page failing_scroll) []))
  /\ Enhanced1688Crawler.human_simulate (world_of (still blank_page failing_scroll) [])
     = Exn JavascriptException
         (emit (Execute (ScrollBy 100)) (world_of (still blank_page failing_scroll) []))
  /\ ~ never_fails SimpleBatch1688.human_simulate
  /\ ~ never_fails Enhanced1688Crawler.human_simulate.
Proof.
  split; [reflexivity|]. split; [reflexivity|].
  split; intros H;
    destruct (H (world_of (still blank_page failing_scroll) [])) as [w1 Hw1];
    discriminate Hw1.
Qed.

(** ** Ranking *)

Lemma insert_by_perm {A} (key : A -> Z) (x : A) (l : list A) :
  Permutation (x :: l) (insert_by key x l).
Proof.
  induction l as [|y l IH]; simpl; [reflexivity|].
  destruct (key x <? key y); [|reflexivity].
  rewrite perm_swap. now apply perm_skip.
Qed.

Lemma sorted_reverse_perm {A} (key : A -> Z) (l : list A) :
  Permutation l (sorted_reverse key l).
Proof.
  induction l as [|x l IH]; simpl; [reflexivity|].
  rewrite <- insert_by_perm. now apply perm_skip.
Qed.

Lemma insert_by_sorted {A} (key : A -> Z) (x : A) (l : list A) :
  StronglySorted (fun a b => key b <= key a) l ->
  StronglySorted (fun a b => key b <= key a) (insert_by key x l).
Proof.
  induction 1 as [|y l Hl IH Hy]; simpl.
  - repeat constructor.
  - destruct (key x <? key y) eqn:E.
    + constructor; [assumption|].
      apply List.Forall_forall. intros z Hz.
      apply (Permutation_in _ (Permutation_sym (insert_by_perm key x l))) in Hz.
      destruct Hz as [<-|Hz]; [lia|].
      rewrite List.Forall_forall in Hy. now apply Hy.
    + constructor; [now constructor|].
      constructor; [lia|].
      apply List.Forall_forall. intros z Hz.
      rewrite List.Forall_forall in Hy. specialize (Hy z Hz). lia.
Qed.

Lemma sorted_reverse_sorted {A} (key : A -> Z) (l : list A) :
  StronglySorted (fun a b => key b <= key a) (sorted_reverse key l).
Proof.
  induction l as [|x l IH]; simpl; [constructor|now apply insert_by_sorted].
Qed.

Lemma insert_by_stable {A} (key : A -> Z) (n : Z) (x : A) (l : list A) :
  List.filter (fun i => key i =? n) (insert_by key x l)
  = List.filter (fun i => key i =? n) (x :: l).
Proof.
  induction l as [|y l IH]; [reflexivity|].
  simpl insert_by. destruct (key x <? key y) eqn:E; [|reflexivity].
  simpl List.filter at 1. rewrite IH. simpl.
  destruct (key x =? n) eqn:Ex, (key y =? n) eqn:Ey; try reflexivity. lia.
Qed.

Lemma sorted_reverse_stable {A} (key : A -> Z) (n : Z) (l : list A) :
  List.filter (fun i => key i =? n) (sorted_reverse key l)
  = List.filter (fun i => key i =? n) l.
Proof.
  induction l as [|x l IH]; [reflexivity|].
  simpl sorted_reverse. rewrite insert_by_stable. simpl. now rewrite IH.
Qed.

(** ** Quiet runs *)

Lemma quiet_refl (w : World) : quiet w w.
Proof. repeat split; auto. exists []. now rewrite app_nil_r. Qed.

Lemma quiet_trans (w w1 w2 : World) : quiet w w1 -> quiet w1 w2 -> quiet w w2.
Proof.
  intros (H1 & H2 & H3 & H4) (H5 & H6 & H7 & H8).
  split; [congruence|]. split; [congruence|]. split; [congruence|].
  eapply follows_trans; eauto.
Qed.

Lemma quiet_emit (e : event) (w : World) : quiet w (emit e w).
Proof.
  split; [reflexivity|]. split; [reflexivity|]. split; [reflexivity|apply follows_emit].
Qed.

Lemma quietly_ret {A} (a : A) (w : World) (Q : A -> World -> Prop) :
  Q a w -> quietly (mret a) w Q.
Proof. intros H. split; [apply quiet_refl|exact H]. Qed.

Lemma quietly_bind {A B} (m : M A) (f : A -> M B) (w : World) (Q : B -> World -> Prop) :
  quietly m w (fun a w1 => quietly (f a) w1 Q) -> quietly (m ≫= f) w Q.
Proof.
  unfold quietly. intros H. apply outcome_bind.
  eapply outcome_weaken; [exact H| | |auto].
  - simpl. intros a w1 [H1 H2].
    eapply outcome_weaken; [exact H2| | |auto]; simpl.
    + intros b w2 [H3 H4]. split; [eapply quiet_trans; eauto|assumption].
    + intros e w2 H3. eapply quiet_trans; eauto.
  - auto.
Qed.

Lemma quietly_try {A} (m : M A) (handler : exn -> M A) (w : World)
    (Q : A -> World -> Prop) :
  quietly m w Q -> (forall e w1, quiet w w1 -> quietly (handler e) w1 Q) ->
  quietly (try_except m handler) w Q.
Proof.
  unfold quietly. intros H Hh. apply outcome_try.
  eapply outcome_weaken; [exact H| | |auto].
  - auto.
  - simpl. intros e w1 H1.
    eapply outcome_weaken; [apply (Hh e w1 H1)| | |auto]; simpl.
    + intros b w2 [H3 H4]. split; [eapply quiet_trans; eauto|assumption].
    + intros e2 w2 H3. eapply quiet_trans; eauto.
Qed.

Lemma quietly_weaken {A} (m : M A) (w : World) (Q Q' : A -> World -> Prop) :
  quietly m w Q -> (forall a w1, quiet w w1 -> Q a w1 -> Q' a w1) -> quietly m w Q'.
Proof.
  unfold quietly. intros H HQ.
  eapply outcome_weaken; [exact H| | |auto]; simpl; [|auto].
  intros a w1 [H1 H2]. auto.
Qed.

Lemma quietly_tell (e : event) (w : World) (Q : unit -> World -> Prop) :
  Q tt (emit e w) -> quietly (tell e) w Q.
Proof. intros H. split; [apply quiet_emit|exact H]. Qed.

Lemma quietly_page (w : World) (Q : Page -> World -> Prop) :
  Q (document (session w) (time w)) w -> quietly page w Q.
Proof. intros H. split; [apply quiet_refl|exact H]. Qed.

Lemma quietly_lift {A} (x : Exc A) (w : World) (Q : A -> World -> Prop) :
  (forall a, x = Ok a -> Q a w) -> quietly (lift x) w Q.
Proof.
  intros H. unfold quietly. apply outcome_lift. destruct x.
  - split; [apply quiet_refl|now apply H].
  - apply quiet_refl.
Qed.

Lemma quietly_execute_script (s : script) (w : World) (Q : N -> World -> Prop) :
  (forall n, execute (session w) s = Ok n -> Q n (emit (Execute s) w)) ->
  quietly (execute_script s) w Q.
Proof.
  intros H. unfold quietly. apply outcome_execute_script.
  - intros n Hn. split; [apply quiet_emit|now apply H].
  - intros e _. apply quiet_emit.
Qed.

Lemma scroll_down_ends (viewport_height page_height : N) (fuel : nat) :
  (0 < viewport_height)%N ->
  forall current_position w,
    (page_height <= current_position + N.of_nat fuel)%N ->
    quietly (scroll_down fuel viewport_height page_height current_position) w
            (fun _ _ => True).
Proof.
  intros Hvh. induction fuel as [|fuel IH]; intros pos w Hle; simpl.
  - destruct (pos <? page_height)%N eqn:E; [apply N.ltb_lt in E; lia|].
    now apply quietly_ret.
  - destruct (pos <? page_height)%N eqn:E; [|now apply quietly_ret].
    apply quietly_bind, quietly_execute_script. intros _ _.
    apply quietly_bind, quietly_tell. apply IH. lia.
Qed.

Lemma scroll_to_load_images_ends (w : World) :
  scrollable (session w) -> quietly scroll_to_load_images w (fun _ _ => True).
Proof.
  intros Hs. unfold scroll_to_load_images. apply quietly_try.
  - apply quietly_bind, quietly_execute_script. intros _ _.
    apply quietly_bind, quietly_tell.
    apply quietly_bind, quietly_execute_script. intros _ _.
    apply quietly_bind, quietly_tell.
    apply quietly_bind, quietly_execute_script. intros viewport_height Hvh.
    apply quietly_bind, quietly_execute_script. intros page_height _.
    apply scroll_down_ends; [|lia].
    simpl in Hvh. unfold scrollable in Hs.
    destruct viewport_height; [congruence|lia].
  - intros e w1 _. now apply quietly_ret.
Qed.

(** ** The image collector *)

Lemma image_entry_url (img : Img) (u src : str) (i : image) :
  image_entry img u src = Ok i -> url i = u.
Proof.
  unfold image_entry, mbind, Exc_bind, exc_bind.
  destruct (attribute_or img (U "alt") []); [|discriminate].
  destruct (attribute_or img (U "width") (U "0")); [|discriminate].
  destruct (attribute_or img (U "height") (U "0")); [|discriminate].
  destruct (attribute_or img (U "class") []); [|discriminate].
  now intros [= <-].
Qed.

Lemma consistent_add (i : image) (st : found) :
  consistent st -> url i ∉ snd st -> consistent (add_image i st).
Proof.
  intros [Hnd Hseen] Hnew. unfold consistent, add_image. simpl.
  rewrite map_app. simpl. split.
  - apply NoDup_app. split; [assumption|]. split.
    + intros u Hu [<-|[]]%list_elem_of_In. apply Hnew, Hseen.
      now apply list_elem_of_In.
    + apply NoDup_singleton.
  - intros u. split.
    + intros [Hu|Hu]%elem_of_union; apply in_or_app.
      * apply elem_of_singleton in Hu as ->. right. now left.
      * left. now apply Hseen.
    + intros [Hu|[<-|[]]]%in_app_or; apply elem_of_union.
      * right. now apply Hseen.
      * left. now apply elem_of_singleton.
Qed.

Lemma for_until_keeps {A S} (P : S -> Prop) (body : A -> S -> S * bool) (l : list A) :
  (forall x s, P s -> P (fst (body x s))) ->
  forall s, P s -> P (fst (for_until body l s)).
Proof.
  intros Hbody. induction l as [|x l IH]; intros s Hs; simpl; [assumption|].
  specialize (Hbody x s Hs). destruct (body x s) as [s1 [|]]; simpl in *; auto.
Qed.

Lemma fold_left_keeps {A S} (P : S -> Prop) (f : S -> A -> S) (l : list A) :
  (forall x s, P s -> P (f s x)) -> forall s, P s -> P (fold_left f l s).
Proof.
  intros Hf. induction l as [|x l IH]; intros s Hs; simpl; auto.
Qed.

Lemma from_img_tag_consistent (img : Img) (st : found) :
  consistent st -> consistent (from_img_tag img st).
Proof.
  intros Hst. unfold from_img_tag.
  destruct (tag_url img tag_attributes) as [[img_url|]|]; try assumption.
  destruct (truthy img_url); simpl; [|assumption].
  destruct (bool_decide (img_url ∈ snd st)) eqn:E; simpl; [assumption|].
  destruct (is_product_image img_url (Some img)); [|assumption].
  destruct (image_entry img img_url (U "img_tag")) as [i|] eqn:Hi; [|assumption].
  apply consistent_add; [assumption|].
  rewrite (image_entry_url _ _ _ _ Hi). now apply bool_decide_eq_false in E.
Qed.

Lemma from_match_consistent (u : str) (st : found) :
  consistent st -> consistent (from_match u st).
Proof.
  intros Hst. unfold from_match.
  destruct (bool_decide (u ∈ snd st)) eqn:E; simpl; [assumption|].
  destruct (is_valid_product_image_url u); [|assumption].
  apply consistent_add; [assumption|]. simpl. now apply bool_decide_eq_false in E.
Qed.

Lemma from_page_source_consistent (p : Page) (st : found) :
  consistent st -> consistent (from_page_source p st).
Proof.
  intros Hst. unfold from_page_source. destruct (page_source p) as [src|]; [|assumption].
  apply fold_left_keeps; [|assumption].
  intros pattern st1 Hst1. apply fold_left_keeps; [|assumption].
  intros u st2. apply from_match_consistent.
Qed.

Lemma from_container_img_consistent (selector : str) (img : Img) (st : found) :
  consistent st -> consistent (fst (from_container_img selector img st)).
Proof.
  intros Hst. unfold from_container_img.
  destruct (get_best_image_url img) as [img_url|]; [|assumption].
  destruct (truthy img_url); cbn [andb negb fst]; [|assumption].
  destruct (bool_decide (img_url ∈ snd st)) eqn:E; cbn [andb negb fst]; [assumption|].
  destruct (image_entry img img_url (U "container_" ++ selector)) as [i|] eqn:Hi;
    cbn [fst]; [|assumption].
  apply consistent_add; [assumption|].
  rewrite (image_entry_url _ _ _ _ Hi). now apply bool_decide_eq_false in E.
Qed.

Lemma from_containers_consistent (p : Page) (st : found) :
  consistent st -> consistent (from_containers p st).
Proof.
  intros Hst. unfold from_containers. apply fold_left_keeps; [|assumption].
  intros selector st1 Hst1. destruct (css p selector) as [containers|]; [|assumption].
  apply for_until_keeps; [|assumption].
  intros container st2 Hst2. unfold from_container.
  destruct (find_imgs container) as [container_imgs|]; [|assumption].
  apply for_until_keeps; [|assumption].
  intros img st3. apply from_container_img_consistent.
Qed.

Lemma from_lazy_load_consistent (img : Img) (st : found) :
  consistent st -> consistent (from_lazy_load img st).
Proof.
  intros Hst. unfold from_lazy_load.
  destruct (get_best_image_url img) as [img_url|]; [|assumption].
  destruct (truthy img_url); simpl; [|assumption].
  destruct (bool_decide (img_url ∈ snd st)) eqn:E; simpl; [assumption|].
  destruct (is_product_image img_url (Some img)); [|assumption].
  destruct (image_entry img img_url (U "lazy_load")) as [i|] eqn:Hi; [|assumption].
  apply consistent_add; [assumption|].
  rewrite (image_entry_url _ _ _ _ Hi). now apply bool_decide_eq_false in E.
Qed.

Lemma discover_images_distinct (w : World) :
  scrollable (session w) ->
  quietly discover_images w (fun images _ => NoDup (map url images)).
Proof.
  intros Hs. unfold discover_images.
  apply quietly_bind, quietly_page.
  apply quietly_bind, quietly_lift. intros img_elements _.
  apply quietly_bind.
  eapply quietly_weaken; [apply scroll_to_load_images_ends, Hs|].
  intros _ w1 _ _.
  apply quietly_bind, quietly_tell.
  apply quietly_bind, quietly_page.
  apply quietly_bind, quietly_lift. intros new_img_elements _.
  apply quietly_ret.
  match goal with |- NoDup (map url (fst ?st)) => enough (consistent st) as [H _]; [exact H|] end.
  apply fold_left_keeps; [intros img st; apply from_lazy_load_consistent|].
  apply from_containers_consistent, from_page_source_consistent.
  apply fold_left_keeps; [intros img st; apply from_img_tag_consistent|].
  split; [constructor|]. intros u. simpl. set_solver.
Qed.

(** C2: when the scroll loop ends, [extract_images] returns a list whose
    URLs are pairwise distinct and whose scores never increase; it is the
    list of discovery rearranged, candidates of equal score keeping their
    order of discovery (and it is empty when discovery raised). *)
Theorem extract_images_distinct_and_ranked (w : World) :
  scrollable (session w) ->
  exists l w1,
    extract_images w = Ret l w1
    /\ NoDup (map url l)
    /\ ranked l
    /\ match discover_images w with
       | Ret discovered _ =>
         Permutation discovered l /\ forall n, scoring n l = scoring n discovered
       | Exn _ _ => l = []
       | Hang => False
       end.
Proof.
  intros Hs. pose proof (discover_images_distinct w Hs) as H.
  unfold quietly, outcome in H. unfold extract_images, try_except, mbind, M_bind.
  destruct (discover_images w) as [discovered w1|e w1|]; [|exists [], w1|contradiction].
  - destruct H as [_ Hnd].
    exists (sort_images_by_quality discovered), w1.
    split; [destruct discovered; reflexivity|].
    unfold sort_images_by_quality, ranked, scoring. split; [|split; [|split]].
    + eapply NoDup_Permutation_proper; [|exact Hnd].
      apply Permutation_map, Permutation_sym, sorted_reverse_perm.
    + apply sorted_reverse_sorted.
    + apply sorted_reverse_perm.
    + intros n. apply sorted_reverse_stable.
  - repeat split; constructor.
Qed.

(** The gallery document: four candidates, ranked. *)
Lemma gallery_is_ranked :
  exists l w1,
    extract_images (world_of (still gallery_page working_scripts) []) = Ret l w1
    /\ map get_image_priority l = [210; 50; 40; 0].
Proof.
  destruct (extract_images_distinct_and_ranked
              (world_of (still gallery_page working_scripts) []))
    as (l & w1 & Hl & _); [discriminate|].
  exists l, w1. split; [exact Hl|].
  vm_compute in Hl. injection Hl as <- _. vm_compute. reflexivity.
Defined.

(** ** The extraction record *)

Lemma outcome_any {A} (m : M A) (w : World) (Q : A -> World -> Prop)
    (E : exn -> World -> Prop) (H : Prop) :
  (forall a w1, Q a w1) -> (forall e w1, E e w1) -> H -> outcome m w Q E H.
Proof.
  unfold outcome. destruct (m w); auto.
Qed.

Ltac key_ne := let Hk := fresh in intros Hk; vm_compute in Hk; discriminate Hk.

Ltac lookup_key :=
  repeat (rewrite lookup_insert_ne by key_ne); rewrite lookup_insert_eq.

Lemma optional_shape (o : option str) : none_or_str (Some (optional o)).
Proof. destruct o; [right; eauto|now left]. Qed.

Lemma optional_list_shape (o : option (list str)) : none_or_list (Some (optional_list o)).
Proof. destruct o; [right; eauto|now left]. Qed.

Lemma simple_record_shape (index : Z) (here timestamp : str) (title1 : option str)
    (price1 : option (list str)) (images1 : list image) (supplier1 : option str)
    (specifications1 : gmap str str) (moq1 : option str) :
  let d : product :=
    <[U "index" := VInt index]>
    (<[U "url" := VStr here]>
    (<[U "timestamp" := VStr timestamp]>
    (<[U "title" := optional title1]>
    (<[U "price" := optional_list price1]>
    (<[U "images" := VImages images1]>
    (<[U "supplier" := optional supplier1]>
    (<[U "specifications" := VDict specifications1]>
    (<[U "moq" := optional moq1]> ∅)))))))) in
  dom d = record_keys /\ record_shape index d.
Proof.
  intros d. subst d. split.
  - rewrite !dom_insert_L, dom_empty_L. unfold record_keys. set_solver.
  - unfold record_shape.
    split_and!; [|exists here|exists timestamp| | | | |exists specifications1|];
      lookup_key; auto using optional_shape, optional_list_shape.
    left. eexists. reflexivity.
Qed.

Lemma batch_record_shape (index : Z) (here timestamp : str) (title1 : option str)
    (price1 : option (list str)) (images1 : list image_info) (supplier1 : option str)
    (specifications1 : gmap str str) (description1 moq1 : option str)
    (contact1 : gmap str (list str)) :
  let d : product :=
    <[U "index" := VInt index]>
    (<[U "url" := VStr here]>
    (<[U "timestamp" := VStr timestamp]>
    (<[U "title" := optional title1]>
    (<[U "price" := optional_list price1]>
    (<[U "images" := VImageInfos images1]>
    (<[U "supplier" := optional supplier1]>
    (<[U "specifications" := VDict specifications1]>
    (<[U "description" := optional description1]>
    (<[U "moq" := optional moq1]>
    (<[U "contact_info" := VLists contact1]> ∅)))))))))) in
  record_keys ⊆ dom d /\ record_shape index d.
Proof.
  intros d. subst d. split.
  - rewrite !dom_insert_L, dom_empty_L. unfold record_keys. set_unfold. intros x. tauto.
  - unfold record_shape.
    split_and!; [|exists here|exists timestamp| | | | |exists specifications1|];
      lookup_key; auto using optional_shape, optional_list_shape.
    right. eexists. reflexivity.
Qed.

Tactic Notation "pass" "as" ident(a) ident(w) :=
  apply outcome_bind, outcome_any;
  [intros a w|intros ? ?; unfold outcome; simpl; intros ? [=]|exact I].

Lemma simple_pipeline_record (list_of_set : list str -> list str) (u : str) (index : Z)
    (w : World) :
  outcome (SimpleBatch1688.extract_single_product list_of_set u index) w
    (fun r _ => forall d, r = Some d ->
       dom d = record_keys /\ record_shape index d)
    (fun _ _ => True) True.
Proof.
  unfold SimpleBatch1688.extract_single_product. apply outcome_try.
  pass as x1 w1. pass as x2 w2. pass as blocked w3. pass as x4 w4. pass as x5 w5.
  pass as p w6. pass as here w7. pass as timestamp w8. pass as images w9.
  pass as p1 w10.
  unfold outcome. simpl. intros d [= <-].
  destruct (simple_record_shape index here timestamp (extract_title p)
              (extract_price list_of_set p) images (extract_supplier p1)
              (extract_specifications p1) (extract_moq p1)) as [H1 H2].
  split; [exact H1|exact H2].
Qed.

Lemma batch_pipeline_record (list_of_set : list str -> list str) (u : str) (index : Z)
    (w : World) :
  outcome (Batch1688Crawler.extract_single_product list_of_set u index) w
    (fun r _ => forall d, r = Some d -> record_keys ⊆ dom d /\ record_shape index d)
    (fun _ _ => True) True.
Proof.
  unfold Batch1688Crawler.extract_single_product. apply outcome_try.
  pass as x1 w1. pass as x2 w2. pass as blocked w3. pass as x4 w4. pass as x5 w5'.
  unfold Batch1688Crawler.extract_all_data.
  apply outcome_bind, outcome_bind.
  apply outcome_any; [intros p w5|intros ? ?; unfold outcome; simpl; intros ? [=]|exact I].
  pass as here w6. pass as timestamp w7. pass as price w8. pass as moq w9.
  pass as contact_info w10.
  unfold outcome. simpl. intros d [= <-].
  apply batch_record_shape.
Qed.

(** *** The documents a record is read from *)

Lemma same_session_refl (w : World) : same_session w w.
Proof. repeat split; auto. Qed.

Lemma same_session_trans (w w1 w2 : World) :
  same_session w w1 -> same_session w1 w2 -> same_session w w2.
Proof.
  intros (H1 & H2 & H3 & H4) (K1 & K2 & K3 & K4).
  repeat split; try congruence. lia.
Qed.

Lemma same_session_emit (e : event) (w : World) : same_session w (emit e w).
Proof.
  repeat split; auto. unfold time. simpl. rewrite length_app. simpl. lia.
Qed.

Lemma keeps_session_ret {A} (a : A) : keeps_session (mret a).
Proof. intros w. apply same_session_refl. Qed.

Lemma keeps_session_bind {A B} (m : M A) (f : A -> M B) :
  keeps_session m -> (forall a, keeps_session (f a)) -> keeps_session (m ≫= f).
Proof.
  intros Hm Hf w. specialize (Hm w). unfold outcome, mbind, M_bind in *.
  destruct (m w) as [a w1|e w1|]; auto.
  specialize (Hf a w1). unfold outcome in Hf.
  destruct (f a w1); auto; eapply same_session_trans; eauto.
Qed.

Lemma keeps_session_try {A} (m : M A) (handler : exn -> M A) :
  keeps_session m -> (forall e, keeps_session (handler e)) ->
  keeps_session (try_except m handler).
Proof.
  intros Hm Hh w. specialize (Hm w). unfold outcome, try_except in *.
  destruct (m w) as [a w1|e w1|]; auto.
  specialize (Hh e w1). unfold outcome in Hh.
  destruct (handler e w1); auto; eapply same_session_trans; eauto.
Qed.

Lemma keeps_session_lift {A} (x : Exc A) : keeps_session (lift x).
Proof. intros w. apply outcome_lift. destruct x; apply same_session_refl. Qed.

Lemma keeps_session_tell (e : event) : keeps_session (tell e).
Proof. intros w. apply same_session_emit. Qed.

Lemma keeps_session_page : keeps_session page.
Proof. intros w. apply same_session_refl. Qed.

Lemma keeps_session_execute_script (s : script) : keeps_session (execute_script s).
Proof.
  intros w. unfold outcome, execute_script.
  destruct (execute (session w) s); apply same_session_emit.
Qed.

Lemma keeps_session_randint (a b : Z) : keeps_session (randint a b).
Proof.
  intros w. unfold outcome, randint.
  destruct (random w); [apply same_session_refl|]. repeat split; auto.
Qed.

Lemma keeps_session_input : keeps_session input.
Proof.
  intros w. unfold outcome, input.
  assert (same_session w (answered (emit Prompt w))) as H.
  { pose proof (same_session_emit Prompt w) as (H1 & H2 & H3 & H4). repeat split; auto. }
  destruct (stdin w) as [|[s| |] answers]; auto.
Qed.

Lemma keeps_session_wait_for_captcha (keywords : list str) :
  keeps_session (wait_for_captcha keywords).
Proof.
  induction keywords as [|keyword keywords IH]; [apply keeps_session_ret|].
  cbn [wait_for_captcha]. apply keeps_session_bind.
  - apply keeps_session_try; [|intros _; apply keeps_session_ret].
    unfold check_keyword.
    apply keeps_session_bind; [apply keeps_session_page|]. intros p.
    apply keeps_session_bind; [apply keeps_session_lift|]. intros [|e elements].
    + apply keeps_session_ret.
    + apply keeps_session_bind; [apply keeps_session_tell|]. intros _.
      apply keeps_session_bind; [apply keeps_session_input|]. intros _.
      apply keeps_session_ret.
  - intros [|]; [apply keeps_session_ret|exact IH].
Qed.

Lemma keeps_session_repeat (n : nat) (m : M unit) :
  keeps_session m -> keeps_session (repeat_m n m).
Proof.
  intros Hm. induction n as [|n IH]; simpl; [apply keeps_session_ret|].
  apply keeps_session_bind; auto.
Qed.

Lemma keeps_session_simulate (most far : Z) (pause rest : Z * Z) :
  keeps_session (simulate most far pause rest).
Proof.
  unfold simulate. apply keeps_session_bind; [apply keeps_session_randint|]. intros n.
  apply keeps_session_bind; [|intros _; apply keeps_session_tell].
  apply keeps_session_repeat.
  apply keeps_session_bind; [apply keeps_session_randint|]. intros y.
  apply keeps_session_bind; [apply keeps_session_execute_script|]. intros _.
  apply keeps_session_tell.
Qed.

Lemma keeps_session_scroll_down (fuel : nat) :
  forall viewport_height page_height current_position,
    keeps_session (scroll_down fuel viewport_height page_height current_position).
Proof.
  induction fuel as [|fuel IH]; intros v h pos; cbn [scroll_down];
    destruct (pos <? h)%N; try apply keeps_session_ret.
  - intros w. exact I.
  - apply keeps_session_bind; [apply keeps_session_execute_script|]. intros _.
    apply keeps_session_bind; [apply keeps_session_tell|]. intros _. apply IH.
Qed.

Lemma keeps_session_extract_images : keeps_session extract_images.
Proof.
  unfold extract_images.
  apply keeps_session_try; [|intros _; apply keeps_session_ret].
  apply keeps_session_bind; [|intros [|i images]; apply keeps_session_ret].
  unfold discover_images.
  apply keeps_session_bind; [apply keeps_session_page|]. intros p.
  apply keeps_session_bind; [apply keeps_session_lift|]. intros img_elements.
  apply keeps_session_bind.
  { unfold scroll_to_load_images.
    apply keeps_session_try; [|intros _; apply keeps_session_ret].
    apply keeps_session_bind; [apply keeps_session_execute_script|]. intros _.
    apply keeps_session_bind; [apply keeps_session_tell|]. intros _.
    apply keeps_session_bind; [apply keeps_session_execute_script|]. intros _.
    apply keeps_session_bind; [apply keeps_session_tell|]. intros _.
    apply keeps_session_bind; [apply keeps_session_execute_script|]. intros v.
    apply keeps_session_bind; [apply keeps_session_execute_script|]. intros h.
    apply keeps_session_scroll_down. }
  intros _.
  apply keeps_session_bind; [apply keeps_session_tell|]. intros _.
  apply keeps_session_bind; [apply keeps_session_page|]. intros p1.
  apply keeps_session_bind; [apply keeps_session_lift|]. intros new_img_elements.
  apply keeps_session_ret.
Qed.

Lemma keeps_session_returned {A} (m : M A) (w w1 : World) (a : A) :
  keeps_session m -> m w = Ret a w1 -> same_session w w1.
Proof.
  intros Hm Hrun. specialize (Hm w). unfold outcome in Hm. now rewrite Hrun in Hm.
Qed.

Lemma bind_returned {A B} (m : M A) (f : A -> M B) (w w2 : World) (b : B) :
  (m ≫= f) w = Ret b w2 -> exists a w1, m w = Ret a w1 /\ f a w1 = Ret b w2.
Proof.
  unfold mbind, M_bind. destruct (m w) as [a w1|e w1|]; [eauto|discriminate..].
Qed.

Lemma try_returned_some {A} (m : M (option A)) (w w1 : World) (a : A) :
  try_except m (fun _ => mret None) w = Ret (Some a) w1 -> m w = Ret (Some a) w1.
Proof.
  unfold try_except. destruct (m w) as [r w2|e w2|]; [auto|discriminate..].
Qed.

(** The run of either pipeline up to the end of the simulator: the served
    session is loaded and kept. *)
Lemma approach_returned (gate : M bool) (simulator : M unit) {A} (rest : M A)
    (u : str) (w w1 : World) (a : A) :
  keeps_session gate -> keeps_session simulator ->
  (driver_get u;;
   sleep 40 70;;
   blocked ← gate;
   match blocked with
   | true => sleep 20 20
   | false => mret tt
   end;;
   simulator;;
   rest) w = Ret a w1 ->
  exists w0,
    rest w0 = Ret a w1
    /\ web w (time w) u = Ok (session w0)
    /\ web w0 = web w /\ now w0 = now w /\ (time w < time w0)%nat.
Proof.
  intros Hgate Hsim H.
  apply bind_returned in H as (x1 & wa & H1 & H).
  apply bind_returned in H as (x2 & wb & H2 & H).
  apply bind_returned in H as (blocked & wc & H3 & H).
  apply bind_returned in H as (x4 & wd & H4 & H).
  apply bind_returned in H as (x5 & w0 & H5 & H).
  exists w0. split; [exact H|].
  assert (web w (time w) u = Ok (session wa) /\ web wa = web w /\ now wa = now w
          /\ (time w < time wa)%nat) as (Ka & Kb & Kc & Kd).
  { unfold driver_get in H1. destruct (web w (time w) u) as [s|e]; [|discriminate].
    injection H1 as <- <-. split_and!; try reflexivity.
    unfold time. cbn [trace load emit]. rewrite length_app. simpl. lia. }
  assert (same_session wa w0) as (S1 & S2 & S3 & S4).
  { eapply same_session_trans;
      [eapply keeps_session_returned; [apply (keeps_session_tell (Sleep 40 70))|exact H2]|].
    eapply same_session_trans; [eapply keeps_session_returned; [exact Hgate|exact H3]|].
    eapply same_session_trans; [|eapply keeps_session_returned; [exact Hsim|exact H5]].
    destruct blocked.
    - eapply keeps_session_returned; [apply (keeps_session_tell (Sleep 20 20))|exact H4].
    - injection H4 as <- <-. apply same_session_refl. }
  repeat split; try congruence. lia.
Qed.

Lemma simple_pipeline_fields (list_of_set : list str -> list str) (u : str) (index : Z)
    (w w1 : World) (d : product) :
  SimpleBatch1688.extract_single_product list_of_set u index w = Ret (Some d) w1 ->
  extracted_fields list_of_set u w w1 d.
Proof.
  intros H. unfold SimpleBatch1688.extract_single_product in H.
  apply try_returned_some in H.
  apply approach_returned in H as (w0 & H & Hweb & Kweb & Know & Ktime);
    [|apply keeps_session_wait_for_captcha|apply keeps_session_simulate].
  apply bind_returned in H as (p & w6 & H6 & H). injection H6 as <- <-.
  apply bind_returned in H as (here & w7 & H7 & H).
  unfold lift in H7. destruct (current_url _) as [here'|] eqn:Hurl; [|discriminate].
  injection H7 as <- <-.
  apply bind_returned in H as (timestamp & w8 & H8 & H). injection H8 as <- <-.
  apply bind_returned in H as (images & w9 & H9 & H).
  apply bind_returned in H as (p1 & w10 & H10 & H). injection H10 as <- <-.
  injection H as <- <-.
  destruct (keeps_session_returned _ _ _ _ keeps_session_extract_images H9)
    as (S1 & S2 & S3 & S4).
  split; [now rewrite S1|].
  exists w0, images. split; [now rewrite S1|]. split; [lia|]. split; [exact H9|].
  cbv zeta. rewrite S1, <- Know.
  split; [exists here'; split; [exact Hurl|lookup_key; reflexivity]|].
  split_and!; lookup_key; reflexivity.
Qed.

Lemma batch_pipeline_fields (list_of_set : list str -> list str) (u : str) (index : Z)
    (w w1 : World) (d : product) :
  Batch1688Crawler.extract_single_product list_of_set u index w = Ret (Some d) w1 ->
  dom d = batch_record_keys /\ batch_extracted_fields list_of_set u w w1 d.
Proof.
  intros H. unfold Batch1688Crawler.extract_single_product in H.
  apply try_returned_some in H.
  apply approach_returned in H as (w0 & H & Hweb & Kweb & Know & Ktime);
    [|apply keeps_session_wait_for_captcha|apply keeps_session_simulate].
  apply bind_returned in H as (product_info & w5 & H & Hd). injection Hd as <- <-.
  unfold Batch1688Crawler.extract_all_data in H.
  apply bind_returned in H as (p & w6 & H6 & H). injection H6 as <- <-.
  apply bind_returned in H as (here & w7 & H7 & H).
  unfold lift in H7. destruct (current_url _) as [here'|] eqn:Hurl; [|discriminate].
  injection H7 as <- <-.
  apply bind_returned in H as (timestamp & w8 & H8 & H). injection H8 as <- <-.
  apply bind_returned in H as (price & w9 & H9 & H).
  unfold lift in H9.
  destruct (Batch1688Crawler.extract_price _ _) as [price'|] eqn:Hprice; [|discriminate].
  injection H9 as <- <-.
  apply bind_returned in H as (moq & w10 & H10 & H).
  unfold lift in H10.
  destruct (Batch1688Crawler.extract_moq _) as [moq'|] eqn:Hmoq; [|discriminate].
  injection H10 as <- <-.
  apply bind_returned in H as (contact_info & w11 & H11 & H).
  unfold lift in H11.
  destruct (Batch1688Crawler.extract_contact_info _ _) as [contact'|] eqn:Hcontact;
    [|discriminate].
  injection H11 as <- <-.
  injection H as <- <-.
  split.
  - rewrite !dom_insert_L, dom_empty_L. unfold batch_record_keys, record_keys. set_solver.
  - split; [exact Hweb|]. split; [exact Ktime|]. cbv zeta. rewrite <- Know.
    split; [exists here'; split; [exact Hurl|lookup_key; reflexivity]|].
    split_and!; try (lookup_key; reflexivity).
    + exists price'. split; [exact Hprice|lookup_key; reflexivity].
    + exists moq'. split; [exact Hmoq|lookup_key; reflexivity].
    + exists contact'. split; [exact Hcontact|lookup_key; reflexivity].
Qed.

(** C10: a record returned by the item pipeline has the nine keys (exactly
    these in [simple_batch_1688.py], these with description and
    contact_info in [batch_1688.py]); index, url and timestamp are set,
    title, price, supplier and moq are [None] or a value, images is always
    a list and specifications always a map; and each field is what its
    extractor returned on the document of the session served for the
    target, at the instants of the run at which the pipeline reads it,
    [None] when the extractor found nothing there. *)
Theorem extraction_record_has_fixed_fields
    (list_of_set : list str -> list str) (u : str) (index : Z) (w w1 : World) (d : product) :
  (SimpleBatch1688.extract_single_product list_of_set u index w = Ret (Some d) w1 ->
     dom d = record_keys /\ record_shape index d
     /\ extracted_fields list_of_set u w w1 d)
  /\ (Batch1688Crawler.extract_single_product list_of_set u index w = Ret (Some d) w1 ->
     dom d = batch_record_keys /\ record_shape index d
     /\ batch_extracted_fields list_of_set u w w1 d).
Proof.
  split; intros H.
  - pose proof (simple_pipeline_record list_of_set u index w) as Hr.
    unfold outcome in Hr. rewrite H in Hr. destruct (Hr d eq_refl) as [H1 H2].
    split; [exact H1|]. split; [exact H2|].
    eapply simple_pipeline_fields, H.
  - pose proof (batch_pipeline_record list_of_set u index w) as Hr.
    unfold outcome in Hr. rewrite H in Hr. destruct (Hr d eq_refl) as [_ H2].
    destruct (batch_pipeline_fields list_of_set u index w w1 d H) as [H1 H3].
    auto.
Qed.

(** On a blank document the pipeline returns the record with nothing
    found. *)
Lemma blank_document_record :
  exists w1,
    SimpleBatch1688.extract_single_product first_occurrences sample_target 1
      (world_of (still blank_page working_scripts) [])
    = Ret (Some (empty_record 1 (U "about:blank") (U "2025-01-01T00:00:00"))) w1
    /\ dom (empty_record 1 (U "about:blank") (U "2025-01-01T00:00:00")) = record_keys
    /\ record_shape 1 (empty_record 1 (U "about:blank") (U "2025-01-01T00:00:00"))
    /\ extracted_fields first_occurrences sample_target
         (world_of (still blank_page working_scripts) []) w1
         (empty_record 1 (U "about:blank") (U "2025-01-01T00:00:00")).
Proof.
  eexists. split; [vm_compute; reflexivity|].
  eapply (proj1 (extraction_record_has_fixed_fields first_occurrences sample_target 1
                   (world_of (still blank_page working_scripts) []) _
                   (empty_record 1 (U "about:blank") (U "2025-01-01T00:00:00")))).
  vm_compute. reflexivity.
Defined.

(** ** The batch loop *)

Lemma quietly_behaves {A} (m : M A) :
  (forall w, safe w -> quietly m w (fun _ _ => True)) -> behaves m.
Proof.
  intros H w Hw. eapply outcome_weaken; [apply (H w Hw)| | |auto]; simpl.
  - intros _ w1 [(_ & _ & H1 & H2) _]. auto.
  - intros _ w1 (_ & _ & H1 & H2). auto.
Qed.

Lemma wait_for_captcha_returns (keywords : list str) (w : World) :
  safe w ->
  outcome (wait_for_captcha keywords) w
    (fun _ w1 => follows w w1 /\ all_products_data w1 = all_products_data w)
    (fun _ _ => False) False.
Proof.
  intros Hw.
  eapply outcome_weaken; [apply wait_for_captcha_quiet, Hw| | |auto]; simpl.
  - intros _ w1 (_ & _ & H1 & H2). auto.
  - contradiction.
Qed.

Lemma behaves_wait_for_captcha (keywords : list str) : behaves (wait_for_captcha keywords).
Proof.
  intros w Hw.
  eapply outcome_weaken; [apply wait_for_captcha_returns, Hw| | |auto]; simpl.
  - auto.
  - contradiction.
Qed.

Lemma behaves_repeat (n : nat) (m : M unit) : behaves m -> behaves (repeat_m n m).
Proof.
  intros Hm. induction n as [|n IH]; simpl; [apply behaves_ret|].
  apply behaves_bind; auto.
Qed.

Lemma behaves_simulate (most far : Z) (pause rest : Z * Z) :
  behaves (simulate most far pause rest).
Proof.
  unfold simulate. apply behaves_bind; [apply behaves_randint|]. intros n.
  apply behaves_bind; [|intros _; apply behaves_sleep].
  apply behaves_repeat.
  apply behaves_bind; [apply behaves_randint|]. intros y.
  apply behaves_bind; [apply behaves_execute_script|]. intros _. apply behaves_sleep.
Qed.

Lemma behaves_extract_images : behaves extract_images.
Proof.
  unfold extract_images. apply behaves_try; [|intros _; apply behaves_ret].
  apply behaves_bind.
  - apply quietly_behaves. intros w (_ & Hs & _).
    eapply quietly_weaken; [apply discover_images_distinct, Hs|]. auto.
  - intros [|i images]; apply behaves_ret.
Qed.

Lemma behaves_simple_pipeline (list_of_set : list str -> list str) (u : str) (index : Z) :
  behaves (SimpleBatch1688.extract_single_product list_of_set u index).
Proof.
  unfold SimpleBatch1688.extract_single_product.
  apply behaves_try; [|intros _; apply behaves_ret].
  apply behaves_bind; [apply behaves_driver_get|]. intros _.
  apply behaves_bind; [apply behaves_sleep|]. intros _.
  apply behaves_bind; [apply behaves_wait_for_captcha|]. intros blocked.
  apply behaves_bind; [destruct blocked; [apply behaves_sleep|apply behaves_ret]|]. intros _.
  apply behaves_bind; [apply behaves_simulate|]. intros _.
  apply behaves_bind; [apply behaves_page|]. intros p.
  apply behaves_bind; [apply behaves_lift|]. intros here.
  apply behaves_bind; [apply behaves_isoformat_now|]. intros timestamp.
  apply behaves_bind; [apply behaves_extract_images|]. intros images.
  apply behaves_bind; [apply behaves_page|]. intros p1.
  apply behaves_ret.
Qed.

Lemma behaves_batch_pipeline (list_of_set : list str -> list str) (u : str) (index : Z) :
  behaves (Batch1688Crawler.extract_single_product list_of_set u index).
Proof.
  unfold Batch1688Crawler.extract_single_product.
  apply behaves_try; [|intros _; apply behaves_ret].
  apply behaves_bind; [apply behaves_driver_get|]. intros _.
  apply behaves_bind; [apply behaves_sleep|]. intros _.
  apply behaves_bind; [apply behaves_wait_for_captcha|]. intros blocked.
  apply behaves_bind; [destruct blocked; [apply behaves_sleep|apply behaves_ret]|]. intros _.
  apply behaves_bind; [apply behaves_simulate|]. intros _.
  apply behaves_bind; [|intros product_info; apply behaves_ret].
  unfold Batch1688Crawler.extract_all_data.
  apply behaves_bind; [apply behaves_page|]. intros p.
  apply behaves_bind; [apply behaves_lift|]. intros here.
  apply behaves_bind; [apply behaves_isoformat_now|]. intros timestamp.
  apply behaves_bind; [apply behaves_lift|]. intros price.
  apply behaves_bind; [apply behaves_lift|]. intros moq.
  apply behaves_bind; [apply behaves_lift|]. intros contact_info.
  apply behaves_ret.
Qed.

Lemma shape_index (index : Z) (d : product) :
  record_shape index d -> d <> ∅ /\ index_of d = index.
Proof.
  intros (H & _). split.
  - intros ->. rewrite lookup_empty in H. discriminate.
  - unfold index_of. now rewrite H.
Qed.

Section Loop.

Variable gate : M bool.
Variable pipeline : str -> Z -> M (option product).

Hypothesis gate_returns : forall w, safe w ->
  outcome gate w
    (fun _ w1 => follows w w1 /\ all_products_data w1 = all_products_data w)
    (fun _ _ => False) False.
Hypothesis pipeline_behaves : forall u index, behaves (pipeline u index).
Hypothesis pipeline_indexes : forall u index w,
  outcome (pipeline u index) w
    (fun r _ => forall d, r = Some d -> d <> ∅ /\ index_of d = index)
    (fun _ _ => True) True.

(** One target: a record is appended, or a failure is entered. *)
Lemma process_one_accounts (total_urls index : Z) (u : str)
    (successful_count : Z) (failed_urls : list (Z * str)) (w : World) :
  safe w ->
  exists w1, follows w w1 /\
    ((exists d, try_except
                  (Batch.process_one pipeline total_urls index u successful_count failed_urls)
                  (fun _ => mret (successful_count, failed_urls ++ [(index, u)])) w
                = Ret (successful_count + 1, failed_urls) w1
                /\ all_products_data w1 = all_products_data w ++ [d]
                /\ index_of d = index)
     \/ (try_except
           (Batch.process_one pipeline total_urls index u successful_count failed_urls)
           (fun _ => mret (successful_count, failed_urls ++ [(index, u)])) w
         = Ret (successful_count, failed_urls ++ [(index, u)]) w1
         /\ all_products_data w1 = all_products_data w)).
Proof.
  intros Hw.
  pose proof (pipeline_behaves u index w Hw) as Hb.
  pose proof (pipeline_indexes u index w) as Hi.
  unfold try_except, Batch.process_one, mbind, M_bind, outcome in *.
  destruct (pipeline u index w) as [r w1|e w1|]; [|exists w1|contradiction].
  - destruct Hb as [Hf Hp]. unfold Batch.processed.
    destruct r as [d|].
    + destruct (Hi d eq_refl) as [Hne Hidx].
      rewrite bool_decide_eq_false_2 by assumption.
      unfold append, Batch.save_single_product, write_file, sleep, tell, mret, M_ret.
      destruct (index <? total_urls);
        (eexists; split;
           [|left; exists d; split; [reflexivity|split; [simpl; now rewrite Hp|exact Hidx]]]);
        (eapply follows_trans; [exact Hf|]);
        repeat split; simpl; auto.
      * eexists [_; _]. now rewrite <- app_assoc.
      * now eexists [_].
    + unfold sleep, tell, mret, M_ret.
      destruct (index <? total_urls);
        (eexists; split; [|right; split; [reflexivity|exact Hp]]).
      * eapply follows_trans; [exact Hf|apply follows_emit].
      * exact Hf.
  - destruct Hb as [Hf Hp]. split; [exact Hf|]. right. split; [reflexivity|exact Hp].
Qed.

(** The loop: every target from position [index] on is accounted for. *)
Lemma process_urls_accounts (total_urls : Z) (urls : list str) :
  forall (index successful_count : Z) (failed_urls : list (Z * str)) (w : World),
    safe w ->
    exists w1 appended failed,
      Batch.process_urls pipeline total_urls index urls successful_count failed_urls w
      = Ret (successful_count + Z.of_nat (length appended), failed_urls ++ failed) w1
      /\ follows w w1
      /\ all_products_data w1 = all_products_data w ++ appended
      /\ (length appended + length failed = length urls)%nat
      /\ Permutation (map index_of appended ++ map fst failed)
                     (map (fun k => index + Z.of_nat k) (seq 0 (length urls)))
      /\ forall i u, In (i, u) failed ->
           index <= i /\ urls !! Z.to_nat (i - index) = Some u.
Proof.
  induction urls as [|u urls IH]; intros index successful_count failed_urls w Hw.
  - exists w, [], []. simpl. rewrite Z.add_0_r, app_nil_r.
    split_and!; auto using follows_refl; [now rewrite app_nil_r|intros i u []].
  - destruct (process_one_accounts total_urls index u successful_count failed_urls w Hw)
      as (w1 & Hf & [(d & Hrun & Hp & Hidx)|(Hrun & Hp)]);
    pose proof (follows_safe _ _ Hw Hf) as Hw1.
    + destruct (IH (index + 1) (successful_count + 1) failed_urls w1 Hw1)
        as (w2 & appended & failed & Hloop & Hf2 & Hp2 & Hlen & Hperm & Hfail).
      exists w2, (d :: appended), failed.
      split_and!.
      * cbn [Batch.process_urls]. unfold mbind, M_bind at 1. rewrite Hrun. simpl.
        rewrite Hloop. do 2 f_equal. simpl length. lia.
      * eapply follows_trans; eauto.
      * rewrite Hp2, Hp, <- app_assoc. reflexivity.
      * simpl. lia.
      * simpl. rewrite Z.add_0_r, Hidx. apply perm_skip.
        rewrite Hperm, <- seq_shift, map_map.
        erewrite map_ext; [reflexivity|]. intros k. simpl. lia.
      * intros i u1 Hin. destruct (Hfail i u1 Hin) as [Hle Hlook]. split; [lia|].
        replace (Z.to_nat (i - index)) with (S (Z.to_nat (i - (index + 1)))) by lia.
        exact Hlook.
    + destruct (IH (index + 1) successful_count (failed_urls ++ [(index, u)]) w1 Hw1)
        as (w2 & appended & failed & Hloop & Hf2 & Hp2 & Hlen & Hperm & Hfail).
      exists w2, appended, ((index, u) :: failed).
      split_and!.
      * cbn [Batch.process_urls]. unfold mbind, M_bind at 1. rewrite Hrun. simpl.
        rewrite Hloop. now rewrite <- app_assoc.
      * eapply follows_trans; eauto.
      * rewrite Hp2, Hp. reflexivity.
      * simpl. lia.
      * simpl. rewrite Z.add_0_r.
        apply Permutation_sym, Permutation_cons_app, Permutation_sym.
        rewrite Hperm, <- seq_shift, map_map.
        erewrite map_ext; [reflexivity|]. intros k. simpl. lia.
      * intros i u1 [[= <- <-]|Hin].
        -- split; [lia|]. now rewrite Z.sub_diag.
        -- destruct (Hfail i u1 Hin) as [Hle Hlook]. split; [lia|].
           replace (Z.to_nat (i - index)) with (S (Z.to_nat (i - (index + 1)))) by lia.
           exact Hlook.
Qed.

Lemma process_all_urls_accounts :
  batch_contract (Batch.process_all_urls gate pipeline).
Proof.
  intros urls w [Ha Hweb] [s Hs].
  set (w1 := emit (Sleep 30 60) (load s (emit (Navigate Batch.home) w))).
  assert (safe w1) as Hw1.
  { split; [exact Ha|]. split; [eapply Hweb, Hs|exact Hweb]. }
  assert (follows w w1) as Hf1.
  { repeat split; auto; simpl.
    - eexists [_; _]. now rewrite <- app_assoc.
    - right. eauto. }
  pose proof (gate_returns w1 Hw1) as Hg.
  unfold Batch.process_all_urls, mbind, M_bind, driver_get, sleep, tell.
  rewrite Hs. fold w1. unfold outcome in Hg.
  destruct (gate w1) as [blocked w2|e w2|]; [|contradiction..].
  destruct Hg as [Hf2 Hp2].
  pose proof (follows_safe _ _ Hw1 Hf2) as Hw2.
  destruct (process_urls_accounts (Z.of_nat (length urls)) urls 1 0 [] w2 Hw2)
    as (w3 & appended & failed & Hloop & Hf3 & Hp3 & Hlen & Hperm & Hfail).
  rewrite Hloop. cbn [fst snd app]. rewrite Z.add_0_l.
  set (w4 := emit (Summary (Z.of_nat (length appended)) (Z.of_nat (length urls)) failed) w3).
  assert (forall w5, follows w4 w5 -> all_products_data w5 = all_products_data w4 ->
            accounted urls w w5) as Hacc.
  { intros w5 (_ & _ & _ & [events Ht] & _) Hp5. exists appended, failed. split_and!.
    - rewrite Hp5. simpl. rewrite Hp3, Hp2. reflexivity.
    - rewrite Ht. simpl. apply in_or_app. left. apply in_or_app. right. now left.
    - exact Hlen.
    - rewrite Hperm, <- seq_shift, map_map.
      erewrite map_ext; [reflexivity|]. intros k. simpl. lia.
    - intros i u Hin. destruct (Hfail i u Hin) as [_ Hlook].
      replace (Z.to_nat i - 1)%nat with (Z.to_nat (i - 1)) by lia. exact Hlook. }
  unfold Batch.print_summary, mbind, M_bind, tell. fold w4.
  destruct (Z.of_nat (length urls) =? 0) eqn:E.
  - unfold raise. split; [destruct urls; [reflexivity|simpl in E; lia]|].
    split; [reflexivity|]. apply Hacc; [apply follows_refl|reflexivity].
  - unfold mret, M_ret, products.
    assert (urls <> []) as Hne by (intros ->; simpl in E; lia).
    destruct (all_products_data w4) as [|d0 ds] eqn:Hd; rewrite <- Hd in Hacc.
    + split; [exact Hne|]. split; [now rewrite Hd|]. apply Hacc; [apply follows_refl|reflexivity].
    + unfold Batch.save_batch_results, write_file.
      destruct (writable w4 (time w4)); (split; [exact Hne|split; [reflexivity|]]);
        apply Hacc; try reflexivity.
      * repeat split; auto; simpl.
        eexists [_; _]. now rewrite <- app_assoc.
      * apply follows_emit.
Qed.

End Loop.

Lemma process_all_urls_warm_up (gate : M bool)
    (pipeline : str -> Z -> M (option product)) :
  warm_up_failure_propagates (Batch.process_all_urls gate pipeline).
Proof.
  intros urls w e Hweb.
  unfold Batch.process_all_urls, mbind, M_bind, driver_get. now rewrite Hweb.
Qed.

(** C1, as the code has it: after a successful warm-up navigation, in a
    world where every run ends, the batch accounts for every target: the
    records appended to the results and the entries of the failure ledger
    add up to the number of targets, and each position is the index of
    exactly one of them. The batch returns the results, except that for an
    empty list the summary raises ZeroDivisionError. When the warm-up
    navigation raises, whatever the targets, its error leaves the batch
    before the loop, with nothing appended and no summary. This holds for
    [process_all_urls] and for [process_multiple_urls]. *)
Theorem batch_accounts_for_every_target (list_of_set : list str -> list str) :
  batch_contract (SimpleBatch1688.process_all_urls list_of_set)
  /\ batch_contract (Batch1688Crawler.process_multiple_urls list_of_set)
  /\ warm_up_failure_propagates (SimpleBatch1688.process_all_urls list_of_set)
  /\ warm_up_failure_propagates (Batch1688Crawler.process_multiple_urls list_of_set).
Proof.
  split_and!.
  - apply process_all_urls_accounts.
    + apply wait_for_captcha_returns.
    + apply behaves_simple_pipeline.
    + intros u index w.
      eapply outcome_weaken; [apply simple_pipeline_record| | |auto]; simpl; [|auto].
      intros r _ Hr d Hd. destruct (Hr d Hd) as (_ & Hshape).
      now apply shape_index.
  - apply process_all_urls_accounts.
    + apply wait_for_captcha_returns.
    + apply behaves_batch_pipeline.
    + intros u index w.
      eapply outcome_weaken; [apply batch_pipeline_record| | |auto]; simpl; [|auto].
      intros r _ Hr d Hd. destruct (Hr d Hd) as (_ & Hshape).
      now apply shape_index.
  - apply process_all_urls_warm_up.
  - apply process_all_urls_warm_up.
Qed.

(** One target on a blank document: accounted for. *)
Lemma one_target_is_accounted :
  match SimpleBatch1688.process_all_urls first_occurrences [sample_target]
          (world_of (still blank_page working_scripts) []) with
  | Ret results w1 =>
    [sample_target] <> [] /\ results = all_products_data w1
    /\ accounted [sample_target] (world_of (still blank_page working_scripts) []) w1
  | Exn e w1 =>
    [sample_target] = [] /\ e = ZeroDivisionError
    /\ accounted [sample_target] (world_of (still blank_page working_scripts) []) w1
  | Hang => False
  end.
Proof.
  apply (proj1 (batch_accounts_for_every_target first_occurrences) [sample_target]
           (world_of (still blank_page working_scripts) [])).
  - split; [intros []|]. intros t u s [= <-]. discriminate.
  - eexists. reflexivity.
Defined.

(** C1 as stated fails: when the warm-up navigation raises, the batch of
    either class raises with it, before the loop; nothing is appended and
    no ledger exists, so the target has no outcome. *)
Lemma warm_up_failure_leaves_targets_unaccounted :
  SimpleBatch1688.process_all_urls first_occurrences [sample_target] offline
  = Exn TimeoutException (emit (Navigate Batch.home) offline)
  /\ Batch1688Crawler.process_multiple_urls first_occurrences [sample_target] offline
     = Exn TimeoutException (emit (Navigate Batch.home) offline)
  /\ ~ one_outcome_per_target (SimpleBatch1688.process_all_urls first_occurrences)
  /\ ~ one_outcome_per_target (Batch1688Crawler.process_multiple_urls first_occurrences).
Proof.
  assert (SimpleBatch1688.process_all_urls first_occurrences [sample_target] offline
          = Exn TimeoutException (emit (Navigate Batch.home) offline)) as H1
    by reflexivity.
  assert (Batch1688Crawler.process_multiple_urls first_occurrences [sample_target] offline
          = Exn TimeoutException (emit (Navigate Batch.home) offline)) as H2
    by reflexivity.
  split; [exact H1|]. split; [exact H2|].
  split; intros H; specialize (H [sample_target] offline);
    [rewrite H1 in H|rewrite H2 in H];
    destruct H as (appended & failed & _ & [Hin|[]] & _); discriminate Hin.
Qed.

(** The simulator of [batch_1688.py] runs inside the [try] of the item
    pipeline: when its scroll fails the pipeline returns [None], and the
    batch enters the target in the ledger. *)
Lemma failing_scroll_goes_to_the_ledger :
  (exists w1,
     Batch1688Crawler.extract_single_product first_occurrences sample_target 1
       (world_of (still blank_page failing_scroll) [])
     = Ret None w1)
  /\ exists w1,
       Batch1688Crawler.process_multiple_urls first_occurrences [sample_target]
         (world_of (still blank_page failing_scroll) [])
       = Ret [] w1
       /\ In (Summary 0 1 [(1, sample_target)]) (trace w1).
Proof.
  split; [eexists; vm_compute; reflexivity|].
  eexists. split; [vm_compute; reflexivity|]. vm_compute. tauto.
Qed.

(** ** The image filters *)

Lemma rejected_by_size_small (img : Img) :
  rejected_by_size img = Some true <-> declared_small img.
Proof.
  unfold rejected_by_size, declared_small.
  destruct (int_attribute img (U "width")) as [[w|]|] eqn:Hw;
    try (split; [discriminate|intros (w' & h' & [=] & _)]).
  destruct (int_attribute img (U "height")) as [[h|]|] eqn:Hh;
    try (split; [discriminate|intros (w' & h' & _ & [=] & _)]).
  destruct (0 <? w) eqn:E1, (0 <? h) eqn:E2; cbn [andb];
    try (split; [discriminate|intros (w' & h' & [= <-] & [= <-] & ? & ? & _); lia]).
  destruct (w <? 50) eqn:E3, (h <? 50) eqn:E4; cbn [orb];
    try (split; [intros _; exists w, h; repeat split; lia|reflexivity]).
  apply Z.ltb_ge in E3, E4.
  replace (w * h <? 2500) with false by (symmetry; apply Z.ltb_ge; nia).
  split; [discriminate|intros (w' & h' & [= <-] & [= <-] & ? & ? & ?); lia].
Qed.

(** X1: [is_product_image] accepts a URL exactly when its lower case holds
    none of the excluded words, the element is not declared small (both
    sizes positive integers, one below 50) and the URL is on the CDN or has
    one of the four extensions. The second size test, on the area, rejects
    nothing the first lets through; sizes that are missing, zero or not
    integers reject nothing. *)
Theorem is_product_image_accepts (img_url : str) (img : Img) :
  (is_product_image img_url (Some img) = true <->
     any_in exclude_patterns (lower img_url) = false
     /\ ~ declared_small img /\ looks_like_image img_url)
  /\ (is_product_image img_url None = true <->
     any_in exclude_patterns (lower img_url) = false /\ looks_like_image img_url).
Proof.
  unfold is_product_image, looks_like_image.
  destruct (any_in exclude_patterns (lower img_url));
    [split; (split; [discriminate|intros [[=] _]])|].
  split.
  - pose proof (rejected_by_size_small img) as Hsmall.
    destruct (rejected_by_size img) as [[|]|].
    + split; [discriminate|]. intros (_ & H & _). destruct H. now apply Hsmall.
    + assert (~ declared_small img) by (intros H; apply Hsmall in H; discriminate).
      destruct (contains (U "alicdn.com") img_url); intuition discriminate.
    + assert (~ declared_small img) by (intros H; apply Hsmall in H; discriminate).
      destruct (contains (U "alicdn.com") img_url); intuition discriminate.
  - destruct (contains (U "alicdn.com") img_url); intuition discriminate.
Qed.
(** ** Ranking, once more *)

Lemma sorted_reverse_ranked {A} (key : A -> Z) (l : list A) :
  StronglySorted (fun a b => key b <= key a) l -> sorted_reverse key l = l.
Proof.
  induction 1 as [|x l Hl IH Hx]; [reflexivity|].
  unfold sorted_reverse in *. simpl. rewrite IH.
  destruct l as [|y l]; [reflexivity|]. simpl.
  inversion Hx as [|? ? Hy _]; subst.
  now replace (key x <? key y) with false by (symmetry; apply Z.ltb_ge; lia).
Qed.

Lemma get_image_priority_range (img : image) : 0 <= get_image_priority img <= 240.
Proof.
  unfold get_image_priority, size_bonus. cbv zeta.
  repeat match goal with
         | |- context [if ?b then _ else _] => destruct b
         | |- context [match ?o with Some _ => _ | None => _ end] => destruct o
         end; lia.
Qed.

(** X2: scores lie between 0 and 240; [sort_images_by_quality] leaves a
    list alone exactly when its scores never increase, so sorting twice is
    sorting once. *)
Theorem sort_images_by_quality_fixes_ranked (images : list image) :
  Forall (fun img => 0 <= get_image_priority img <= 240) images
  /\ (sort_images_by_quality images = images <-> ranked images)
  /\ sort_images_by_quality (sort_images_by_quality images) = sort_images_by_quality images.
Proof.
  split; [apply List.Forall_forall; intros img _; apply get_image_priority_range|].
  unfold sort_images_by_quality, ranked. split; [split|].
  - intros <-. apply sorted_reverse_sorted.
  - apply sorted_reverse_ranked.
  - apply sorted_reverse_ranked, sorted_reverse_sorted.
Qed.

(** ** The image list of [batch_1688.py] *)

Lemma collect_infos_take (img_elements : list Img) (images : list image_info) :
  (length images < 8)%nat ->
  Batch1688Crawler.collect_infos img_elements images
  = take 8 (images ++ omap usable_info img_elements).
Proof.
  revert images. induction img_elements as [|img l IH]; intros images Hlen.
  - simpl. rewrite app_nil_r, take_ge by lia. reflexivity.
  - cbn [Batch1688Crawler.collect_infos omap list_omap]. unfold usable_info at 1.
    destruct (Batch1688Crawler.info_entry img) as [[i|]|]; try now apply IH.
    destruct (8 <=? length (images ++ [i]))%nat eqn:E.
    + apply Nat.leb_le in E. rewrite length_app in E. simpl in E.
      replace (images ++ i :: omap usable_info l) with ((images ++ [i]) ++ omap usable_info l)
        by (now rewrite <- app_assoc).
      rewrite take_app_le by (rewrite length_app; simpl; lia).
      rewrite take_ge by (rewrite length_app; simpl; lia). reflexivity.
    + apply Nat.leb_gt in E. rewrite IH by assumption.
      now rewrite <- app_assoc.
Qed.

Lemma info_url_of_usable (img : Img) (attrs : list str) (u : str) :
  Batch1688Crawler.info_url_of img attrs = Ok (Some u) ->
  startswith u (U "http") = true
  /\ any_in [U ".jpg"; U ".jpeg"; U ".png"; U ".webp"] u = true
  /\ exists attr, In attr attrs /\ get_attribute img attr = Ok (Some u).
Proof.
  induction attrs as [|attr attrs IH]; simpl; [discriminate|].
  destruct (get_attribute img attr) as [[v|]|] eqn:Hv; [| |discriminate].
  - destruct (truthy v && startswith v (U "http")
              && any_in [U ".jpg"; U ".jpeg"; U ".png"; U ".webp"] v) eqn:E.
    + intros [= ->]. apply andb_prop in E as [E E3]. apply andb_prop in E as [E1 E2].
      eauto 6.
    + intros H. destruct (IH H) as (H1 & H2 & attr' & H3 & H4). eauto 7.
  - intros H. destruct (IH H) as (H1 & H2 & attr' & H3 & H4). eauto 7.
Qed.

(** X3: [Batch1688Crawler.extract_images] returns the entries of the
    first eight usable [img] elements, in document order and without
    removing duplicates; an element is usable when one of its four
    attributes holds a URL that starts with http and contains one of the
    extensions as written (upper case does not count), and reading it does
    not raise. The list is empty when the elements cannot be listed. *)
Theorem batch_extract_images_first_eight (p : Page) :
  (length (Batch1688Crawler.extract_images p) <= 8)%nat
  /\ Batch1688Crawler.extract_images p
     = match imgs p with
       | Ok img_elements => take 8 (omap usable_info img_elements)
       | Raise _ => []
       end
  /\ Forall (fun i =>
       startswith (info_url i) (U "http") = true
       /\ any_in [U ".jpg"; U ".jpeg"; U ".png"; U ".webp"] (info_url i) = true)
     (Batch1688Crawler.extract_images p).
Proof.
  assert (Batch1688Crawler.extract_images p
          = match imgs p with
            | Ok img_elements => take 8 (omap usable_info img_elements)
            | Raise _ => []
            end) as Heq.
  { unfold Batch1688Crawler.extract_images. destruct (imgs p) as [img_elements|]; [|reflexivity].
    apply (collect_infos_take img_elements []). simpl. lia. }
  split; [|split; [exact Heq|]]; rewrite Heq; destruct (imgs p) as [img_elements|].
  - rewrite length_take. apply Nat.le_min_l.
  - simpl. lia.
  - apply List.Forall_forall. intros i Hi%In_take%list_elem_of_In.
    apply list_elem_of_omap in Hi as (img & Himg & Hi).
    unfold usable_info, Batch1688Crawler.info_entry, mbind, Exc_bind, exc_bind in Hi.
    destruct (Batch1688Crawler.info_url_of img Batch1688Crawler.info_attributes)
      as [[[|c u]|]|] eqn:Hu; try discriminate.
    apply info_url_of_usable in Hu as (H1 & H2 & _).
    destruct (attribute_or img (U "alt") []); [|discriminate].
    destruct (Batch1688Crawler.size_or_zero img (U "width")); [|discriminate].
    destruct (Batch1688Crawler.size_or_zero img (U "height")); [|discriminate].
    injection Hi as <-. simpl. auto.
  - constructor.
Qed.
(** ** Matches in the page text *)

Lemma matches_Str (s m : str) : matches (Str s) m -> m = s.
Proof.
  revert m. induction s as [|c s IH]; intros m H; simpl in H.
  - now inversion H.
  - inversion H as [| |? ? a b Ha Hb| | | |]; subst.
    inversion Ha as [|? d Hd| | | | |]; subst.
    apply N.eqb_eq in Hd as <-. simpl. f_equal. now apply IH.
Qed.

Lemma matches_repeat_chr (p : N -> bool) (n : nat) (m : str) :
  matches (fold_right Cat Eps (replicate n (Chr p))) m ->
  length m = n /\ forallb p m = true.
Proof.
  revert m. induction n as [|n IH]; intros m H; simpl in H.
  - inversion H. split; reflexivity.
  - inversion H as [| |? ? a b Ha Hb| | | |]; subst.
    inversion Ha as [|? d Hd| | | | |]; subst.
    apply IH in Hb as [<- Hb]. simpl. now rewrite Hd, Hb.
Qed.

Lemma skip_while_split (p : N -> bool) (s : str) :
  exists run, s = run ++ skip_while p s /\ forallb p run = true
              /\ match skip_while p s with [] => True | c :: _ => p c = false end.
Proof.
  induction s as [|c s (run & Hs & Hrun & Hend)]; [exists []; repeat split|].
  simpl. destruct (p c) eqn:E.
  - exists (c :: run). simpl. rewrite E, Hrun. repeat split; [now f_equal|assumption].
  - exists []. repeat split. exact E.
Qed.

(** A greedy run of one class, as a group: the longest one. *)
Lemma match_prefix_plus_chr (p : N -> bool) (s g : str) :
  match_prefix (Plus (Chr p)) s = Some g ->
  exists post, s = g ++ post /\ g <> [] /\ forallb p g = true
               /\ match post with [] => True | c :: _ => p c = false end.
Proof.
  unfold match_prefix, Plus. rewrite exec_Cat.
  destruct s as [|c s]; [discriminate|]. rewrite exec_Chr.
  destruct (p c) eqn:E; [|discriminate].
  rewrite (exec_star_greedy p (fun rest => take (length (c :: s) - length rest) (c :: s))).
  destruct (skip_while_split p s) as (run & Hs & Hrun & Hend).
  assert (take (length (c :: s) - length (skip_while p s)) (c :: s) = c :: run) as ->.
  { rewrite Hs at 1 3. simpl length. rewrite length_app.
    replace (S (length run + length (skip_while p s)) - length (skip_while p s))%nat
      with (length (c :: run)) by (simpl; lia).
    change (c :: run ++ skip_while p s) with ((c :: run) ++ skip_while p s).
    apply take_app_length. }
  intros [= <-]. exists (skip_while p s).
  simpl. rewrite E, Hrun. repeat split; [now f_equal|discriminate|assumption].
Qed.

Lemma search_group_sound (pre grp : re) (s g : str) :
  search_group pre grp s = Some g ->
  exists before m rest,
    s = before ++ m ++ rest /\ matches pre m /\ match_prefix grp rest = Some g.
Proof.
  induction s as [|c s IH]; simpl.
  - destruct (exec pre [] _) as [g'|] eqn:E; [|discriminate].
    intros [= ->]. apply exec_sound in E as (m & rest & Hs & Hm & Hg).
    exists [], m, rest. auto.
  - destruct (exec pre (c :: s) _) as [g'|] eqn:E.
    + intros [= ->]. apply exec_sound in E as (m & rest & Hs & Hm & Hg).
      exists [], m, rest. auto.
    + intros H. destruct (IH H) as (before & m & rest & -> & Hm & Hg).
      exists (c :: before), m, rest. auto.
Qed.

Lemma matches_moq_label (keyword m : str) :
  matches (moq_label keyword) m ->
  exists colon blanks,
    m = keyword ++ colon :: blanks /\ (colon = 65306%N \/ colon = 58%N)
    /\ forallb is_space blanks = true.
Proof.
  unfold moq_label. intros H.
  inversion H as [| |? ? a b Ha Hb| | | |]; subst.
  apply matches_Str in Ha as ->.
  inversion Hb as [| |? ? a1 b1 Ha1 Hb1| | | |]; subst.
  apply matches_star_chr in Hb1.
  assert (exists colon, a1 = [colon] /\ (colon = 65306%N \/ colon = 58%N)) as (colon & -> & Hc).
  { inversion Ha1 as [| | |? ? ? Hl|? ? ? Hr| |]; subst;
      [inversion Hl as [|? d Hd| | | | |]|inversion Hr as [|? d Hd| | | | |]]; subst;
      apply N.eqb_eq in Hd as <-; eauto. }
  exists colon, b1. auto.
Qed.

Lemma search_moq_labelled (page_text g : str) :
  search_moq page_text = Some g ->
  exists keyword, In keyword moq_keywords /\ moq_labelled page_text keyword g.
Proof.
  unfold search_moq. intros H.
  apply first_some_Some in H as (i & keyword & Hi & Hg & _).
  exists keyword. split; [apply list_elem_of_In; eapply list_elem_of_lookup_2, Hi|].
  apply search_group_sound in Hg as (before & m & rest & -> & Hm & Hg).
  apply matches_moq_label in Hm as (colon & blanks & -> & Hc & Hb).
  apply match_prefix_plus_chr in Hg as (post & -> & Hne & Hd & Hend).
  exists before, colon, blanks, post.
  split; [now rewrite <- app_assoc|auto].
Qed.

(** X4: a minimum order quantity, when one is returned, is a non-empty
    run of decimal digits that stands in the body text after one of the
    four keywords, a colon and optional whitespace, and it is the whole run
    (the next character is no digit). [simple_batch_1688.py] returns
    nothing when the body cannot be read; [batch_1688.py] raises. *)
Theorem extract_moq_is_labelled_number (p : Page) :
  (forall g, extract_moq p = Some g ->
     exists page_text keyword,
       body_text p = Ok page_text /\ In keyword moq_keywords
       /\ moq_labelled page_text keyword g)
  /\ (forall e, body_text p = Raise e ->
        extract_moq p = None /\ Batch1688Crawler.extract_moq p = Raise e)
  /\ (forall page_text, body_text p = Ok page_text ->
        Batch1688Crawler.extract_moq p = Ok (extract_moq p)).
Proof.
  unfold extract_moq, Batch1688Crawler.extract_moq, mbind, Exc_bind, exc_bind.
  destruct (body_text p) as [page_text|e]; split_and!; try discriminate.
  - intros g Hg. apply search_moq_labelled in Hg as (keyword & Hk & Hl). eauto.
  - reflexivity.
  - intros e' [= <-]. auto.
Qed.

(** On the example the keyword first in the list decides, not the one
    first in the text. *)
Lemma moq_example_is_labelled :
  extract_moq (text_page moq_text_example) = Some (U "100")
  /\ exists page_text keyword,
       body_text (text_page moq_text_example) = Ok page_text /\ In keyword moq_keywords
       /\ moq_labelled page_text keyword (U "100").
Proof.
  assert (extract_moq (text_page moq_text_example) = Some (U "100")) as H
    by (vm_compute; reflexivity).
  split; [exact H|].
  exact (proj1 (extract_moq_is_labelled_number (text_page moq_text_example)) (U "100") H).
Defined.
Lemma scan_occurs (r : re) (s : str) :
  forall skip x, In x (scan r s skip) -> occurs x s.
Proof.
  induction s as [|c s IH]; intros skip x; simpl.
  - destruct skip; [|intros []].
    destruct (match_prefix r []) as [m|] eqn:E; [|intros []].
    intros [<-|[]]. apply match_prefix_sound in E as [_ [rest Hrest]].
    exists [], rest. exact Hrest.
  - assert (forall n, In x (scan r s n) -> occurs x (c :: s)) as Hlater.
    { intros n Hx. destruct (IH n x Hx) as (pre & post & ->). now exists (c :: pre), post. }
    destruct skip; [|apply Hlater].
    destruct (match_prefix r (c :: s)) as [m|] eqn:E; [|apply Hlater].
    intros [<-|H]; [|eapply Hlater, H].
    apply match_prefix_sound in E as [_ [rest Hrest]]. exists [], rest. exact Hrest.
Qed.

Lemma matches_phone_pattern (x : str) :
  matches Batch1688Crawler.phone_pattern x -> mobile_number x.
Proof.
  unfold Batch1688Crawler.phone_pattern. intros H.
  inversion H as [| |? ? a b Ha Hb| | | |]; subst.
  inversion Ha as [|? d Hd| | | | |]; subst. apply N.eqb_eq in Hd as <-.
  inversion Hb as [| |? ? a1 b1 Ha1 Hb1| | | |]; subst.
  inversion Ha1 as [|? c Hc| | | | |]; subst.
  apply andb_prop in Hc as [Hc1 Hc2]. apply N.leb_le in Hc1, Hc2.
  apply (matches_repeat_chr is_decimal 9) in Hb1 as [Hlen Hds].
  exists c, b1. simpl. repeat split; auto.
Qed.

(** X5: the contact information of [batch_1688.py] is empty, or holds
    under the one key phone at most three pairwise distinct mobile numbers
    that occur in the body text: eleven characters, 1, then 3 to 9, then
    nine decimal digits. A number is taken wherever the pattern fits, also
    inside a longer run of digits. When the body cannot be read the
    extractor raises. *)
Theorem extract_contact_info_phones (list_of_set : list str -> list str) (p : Page) :
  set_order list_of_set ->
  match Batch1688Crawler.extract_contact_info list_of_set p with
  | Ok contact_info =>
    exists page_text, body_text p = Ok page_text
    /\ ((contact_info = ∅ /\ findall Batch1688Crawler.phone_pattern page_text = [])
        \/ exists phones,
             contact_info = {[ U "phone" := phones ]}
             /\ (0 < length phones <= 3)%nat /\ NoDup phones
             /\ forall x, In x phones -> mobile_number x /\ occurs x page_text)
  | Raise e => body_text p = Raise e
  end.
Proof.
  intros Hset.
  unfold Batch1688Crawler.extract_contact_info, mbind, Exc_bind, exc_bind.
  destruct (body_text p) as [page_text|e]; [|reflexivity].
  pose proof (first_three_unique_spec list_of_set
                (findall Batch1688Crawler.phone_pattern page_text) Hset) as Hspec.
  unfold first_three_unique in Hspec.
  destruct (findall Batch1688Crawler.phone_pattern page_text) as [|x0 found] eqn:Hfound.
  - exists page_text. split; [reflexivity|]. left. split; [reflexivity|exact Hfound].
  - exists page_text. split; [reflexivity|]. right.
    destruct Hspec as [[[=] _]|(l & [= <-] & _ & Hlen & Hnd & Hin)].
    eexists. split; [reflexivity|]. split; [exact Hlen|]. split; [exact Hnd|].
    intros x Hx. apply Hin in Hx. rewrite <- Hfound in Hx. split.
    + eapply matches_phone_pattern, scan_sound, Hx.
    + eapply scan_occurs, Hx.
Qed.

(** The number inside the longer run is found, and counted once. *)
Lemma phone_example_is_found :
  Batch1688Crawler.extract_contact_info first_occurrences (text_page phone_text_example)
  = Ok {[ U "phone" := [U "13812345678"] ]}
  /\ mobile_number (U "13812345678").
Proof.
  pose proof (extract_contact_info_phones first_occurrences (text_page phone_text_example)
                first_occurrences_order) as H.
  assert (Batch1688Crawler.extract_contact_info first_occurrences (text_page phone_text_example)
          = Ok {[ U "phone" := [U "13812345678"] ]}) as Heq by (vm_compute; reflexivity).
  split; [exact Heq|]. rewrite Heq in H.
  destruct H as (page_text & _ & [[H _]|(phones & H & _ & _ & Hin)]).
  - apply (f_equal (fun m => m !! U "phone")) in H.
    rewrite lookup_singleton_eq, lookup_empty in H. discriminate H.
  - apply (f_equal (fun m => m !! U "phone")) in H.
    rewrite !lookup_singleton_eq in H. injection H as <-.
    apply Hin. now left.
Defined.
(** ** The scroll that loads lazy images *)

Lemma happen_app (a b : list event) (w : World) :
  happen (a ++ b) w = happen b (happen a w).
Proof. apply fold_left_app. Qed.

Lemma session_happen (events : list event) (w : World) :
  session (happen events w) = session w.
Proof.
  revert w. induction events as [|e events IH]; intros w; [reflexivity|].
  simpl. now rewrite IH.
Qed.

Lemma segments_lt (viewport_height page_height : N) (j : nat) :
  (0 < viewport_height)%N ->
  (N.of_nat j * viewport_height <? page_height)%N
  = (j <? segments viewport_height page_height)%nat.
Proof.
  intros Hv. unfold segments.
  pose proof (N.div_mod (page_height + viewport_height - 1) viewport_height ltac:(lia)) as Hd.
  pose proof (N.mod_lt (page_height + viewport_height - 1) viewport_height ltac:(lia)) as Hm.
  set (q := ((page_height + viewport_height - 1) / viewport_height)%N) in *.
  set (r := ((page_height + viewport_height - 1) mod viewport_height)%N) in *.
  destruct (N.of_nat j * viewport_height <? page_height)%N eqn:E1;
    destruct (j <? N.to_nat q)%nat eqn:E2; try reflexivity; exfalso.
  - apply N.ltb_lt in E1. apply Nat.ltb_ge in E2. nia.
  - apply N.ltb_ge in E1. apply Nat.ltb_lt in E2. nia.
Qed.

Lemma scroll_down_steps (viewport_height page_height : N) :
  (0 < viewport_height)%N ->
  forall (fuel j : nat) (w : World),
    (forall y, exists n, execute (session w) (ScrollTo y) = Ok n) ->
    (segments viewport_height page_height <= j + fuel)%nat ->
    scroll_down fuel viewport_height page_height (N.of_nat j * viewport_height) w
    = Ret tt (happen
        (flat_map (fun k => [Execute (ScrollTo (N.of_nat k * viewport_height)); Sleep 5 5])
                  (seq j (segments viewport_height page_height - j))) w).
Proof.
  intros Hv. induction fuel as [|fuel IH]; intros j w Hok Hle.
  - cbn [scroll_down]. rewrite segments_lt by assumption.
    replace (j <? segments viewport_height page_height)%nat with false
      by (symmetry; apply Nat.ltb_ge; lia).
    replace (segments viewport_height page_height - j)%nat with 0%nat by lia. reflexivity.
  - cbn [scroll_down]. rewrite segments_lt by assumption.
    destruct (j <? segments viewport_height page_height)%nat eqn:E.
    + apply Nat.ltb_lt in E.
      replace (segments viewport_height page_height - j)%nat
        with (S (segments viewport_height page_height - S j)) by lia.
      cbn [seq flat_map app]. destruct (Hok (N.of_nat j * viewport_height)%N) as [n Hn].
      unfold mbind, M_bind, execute_script, sleep, tell. rewrite Hn.
      replace (N.of_nat j * viewport_height + viewport_height)%N
        with (N.of_nat (S j) * viewport_height)%N by lia.
      rewrite IH; [reflexivity|exact Hok|lia].
    + apply Nat.ltb_ge in E.
      replace (segments viewport_height page_height - j)%nat with 0%nat by lia. reflexivity.
Qed.

Lemma scroll_down_flat (page_height : N) (fuel : nat) (w : World) (n : N) :
  (0 < page_height)%N -> execute (session w) (ScrollTo 0) = Ok n ->
  scroll_down fuel 0 page_height 0 w = Hang.
Proof.
  intros Hh. revert w. induction fuel as [|fuel IH]; intros w Hn; cbn [scroll_down].
  - now replace (0 <? page_height)%N with true by (symmetry; apply N.ltb_lt; lia).
  - replace (0 <? page_height)%N with true by (symmetry; apply N.ltb_lt; lia).
    unfold mbind, M_bind, execute_script, sleep, tell. rewrite Hn.
    apply IH. exact Hn.
Qed.

(** X6: [scroll_to_load_images] never raises. It never returns exactly
    when its first four scripts succeed, the window reports a height of 0
    and the page a height above 0: the position then stays at 0 and the
    loop has no end. With a window of height v above 0 and scripts that
    succeed it returns after one scroll, and half a second of sleep, for
    each of the viewports that cover the page, at positions 0, v, 2v, ... *)
Theorem scroll_to_load_images_outcomes (w : World) :
  (forall e w1, scroll_to_load_images w <> Exn e w1)
  /\ (scroll_to_load_images w = Hang <->
      exists a b page_height,
        execute (session w) ScrollToBottom = Ok a
        /\ execute (session w) (ScrollTo 0) = Ok b
        /\ execute (session w) InnerHeight = Ok 0%N
        /\ execute (session w) ScrollHeight = Ok page_height /\ (0 < page_height)%N)
  /\ (forall viewport_height page_height,
      (forall s, exists n, execute (session w) s = Ok n) ->
      execute (session w) InnerHeight = Ok viewport_height ->
      execute (session w) ScrollHeight = Ok page_height ->
      (0 < viewport_height)%N ->
      scroll_to_load_images w
      = Ret tt (happen ([Execute ScrollToBottom; Sleep 10 10; Execute (ScrollTo 0);
                         Sleep 10 10; Execute InnerHeight; Execute ScrollHeight]
                        ++ segment_scrolls viewport_height page_height) w)).
Proof.
  split; [|split].
  - intros e w1. unfold scroll_to_load_images, try_except.
    match goal with |- context [match ?m with _ => _ end] => destruct m end; discriminate.
  - unfold scroll_to_load_images, try_except, mbind, M_bind, execute_script, sleep, tell.
    destruct (execute (session w) ScrollToBottom) as [a|] eqn:Ha; cbn [session emit];
      [|unfold mret, M_ret; split; [discriminate|intros (? & ? & ? & [=] & _)]].
    destruct (execute (session w) (ScrollTo 0)) as [b|] eqn:Hb; cbn [session emit];
      [|unfold mret, M_ret; split; [discriminate|intros (? & ? & ? & _ & [=] & _)]].
    destruct (execute (session w) InnerHeight) as [viewport_height|] eqn:Hv;
      cbn [session emit];
      [|unfold mret, M_ret; split; [discriminate|intros (? & ? & ? & _ & _ & [=] & _)]].
    destruct (execute (session w) ScrollHeight) as [page_height|] eqn:Hh;
      cbn [session emit];
      [|unfold mret, M_ret; split; [discriminate|intros (? & ? & ? & _ & _ & _ & [=] & _)]].
    match goal with
    | |- context [scroll_down ?f ?v ?h ?pos ?w0] => set (w6 := w0);
        destruct (scroll_down f v h pos w6) as [[] w7|e w7|] eqn:Hloop
    end.
    + split; [discriminate|]. intros (a' & b' & h' & _ & _ & [= ->] & [= <-] & Hpos).
      rewrite (scroll_down_flat page_height _ w6 b Hpos Hb) in Hloop. discriminate.
    + split; [discriminate|]. intros (a' & b' & h' & _ & _ & [= ->] & [= <-] & Hpos).
      rewrite (scroll_down_flat page_height _ w6 b Hpos Hb) in Hloop. discriminate.
    + split; [|reflexivity]. intros _. exists a, b, page_height.
      destruct (N.eq_dec viewport_height 0%N) as [->|Hne].
      * repeat split. destruct (N.eq_dec page_height 0%N) as [->|]; [|lia].
        simpl in Hloop. discriminate.
      * pose proof (scroll_down_ends viewport_height page_height (N.to_nat page_height)
                      ltac:(lia) 0%N w6 ltac:(lia)) as Hends.
        unfold quietly, outcome in Hends. rewrite Hloop in Hends. contradiction.
  - intros viewport_height page_height Hok Hv Hh Hpos.
    unfold scroll_to_load_images, try_except, mbind, M_bind, execute_script, sleep, tell.
    destruct (Hok ScrollToBottom) as [a ->]. cbn [session emit].
    destruct (Hok (ScrollTo 0)) as [b ->]. cbn [session emit].
    rewrite Hv. cbn [session emit]. rewrite Hh.
    match goal with
    | |- context [scroll_down ?f ?v ?h ?pos ?w0] => set (w6 := w0)
    end.
    pose proof (scroll_down_steps viewport_height page_height Hpos
                  (N.to_nat page_height) 0 w6) as Hsteps.
    rewrite N.mul_0_l, Nat.sub_0_r in Hsteps.
    rewrite Hsteps.
    + rewrite happen_app. reflexivity.
    + intros y. apply (Hok (ScrollTo y)).
    + unfold segments. simpl.
      pose proof (N.div_mod (page_height + viewport_height - 1) viewport_height
                    ltac:(lia)) as Hd.
      pose proof (N.mod_lt (page_height + viewport_height - 1) viewport_height
                    ltac:(lia)) as Hm.
      set (q := ((page_height + viewport_height - 1) / viewport_height)%N) in *.
      set (r := ((page_height + viewport_height - 1) mod viewport_height)%N) in *.
      assert (q <= page_height)%N by nia. lia.
Qed.

(** A page 1200 high is covered by three viewports of 500; through a window
    without height the scroll has no end. *)
Lemma scroll_covers_page_in_three :
  scroll_to_load_images (world_of (still blank_page working_scripts) [])
  = Ret tt (happen [Execute ScrollToBottom; Sleep 10 10; Execute (ScrollTo 0);
                    Sleep 10 10; Execute InnerHeight; Execute ScrollHeight;
                    Execute (ScrollTo 0); Sleep 5 5; Execute (ScrollTo 500); Sleep 5 5;
                    Execute (ScrollTo 1000); Sleep 5 5]
                   (world_of (still blank_page working_scripts) []))
  /\ scroll_to_load_images (world_of (still blank_page flat_scripts) []) = Hang.
Proof.
  split.
  - apply (proj2 (proj2 (scroll_to_load_images_outcomes
                           (world_of (still blank_page working_scripts) [])))
             500%N 1200%N).
    + intros s. destruct s; eexists; reflexivity.
    + reflexivity.
    + reflexivity.
    + reflexivity.
  - apply (proj1 (proj2 (scroll_to_load_images_outcomes
                           (world_of (still blank_page flat_scripts) [])))).
    exists 0%N, 0%N, 1200%N. repeat split.
Defined.

(** ** The simulator and the gate, once more *)

Lemma bind_eval {A B} (m : M A) (f : A -> M B) (w w1 : World) (a : A) :
  m w = Ret a w1 -> (m ≫= f) w = f a w1.
Proof. unfold mbind, M_bind. now intros ->. Qed.

Lemma execute_script_eval (s : script) (w : World) (n : N) :
  execute (session w) s = Ok n -> execute_script s w = Ret n (emit (Execute s) w).
Proof. unfold execute_script. now intros ->. Qed.

Lemma randint_eval (a b : Z) (w : World) :
  a <= b ->
  exists n w1, randint a b w = Ret n w1 /\ a <= n <= b
    /\ trace w1 = trace w /\ session w1 = session w /\ stdin w1 = stdin w
    /\ all_products_data w1 = all_products_data w.
Proof.
  intros Hab. unfold randint. destruct (random w) as [|r rs].
  - exists a, w. repeat split; lia.
  - eexists _, _. split; [reflexivity|].
    pose proof (Z.mod_pos_bound (Z.of_nat r) (b - a + 1) ltac:(lia)).
    repeat split; lia.
Qed.

Lemma repeat_scrolls_trace (far : Z) (pause : Z * Z) (n : nat) (w : World) :
  100 <= far ->
  (forall y, exists h, execute (session w) (ScrollBy y) = Ok h) ->
  exists ys w1,
    repeat_m n (scroll_y ← randint 100 far;
                execute_script (ScrollBy scroll_y);;
                sleep (fst pause) (snd pause)) w = Ret tt w1
    /\ length ys = n /\ Forall (fun y => 100 <= y <= far) ys
    /\ trace w1 = trace w ++ scrolls pause ys
    /\ session w1 = session w /\ stdin w1 = stdin w
    /\ all_products_data w1 = all_products_data w.
Proof.
  intros Hfar. revert w. induction n as [|n IH]; intros w Hok.
  - exists [], w. simpl. rewrite app_nil_r. repeat split; constructor.
  - destruct (randint_eval 100 far w Hfar) as (y & w1 & Hy & Hin & Ht & Hs & Hi & Hp).
    destruct (Hok y) as [h Hh]. rewrite <- Hs in Hh.
    destruct (IH (emit (Sleep (fst pause) (snd pause)) (emit (Execute (ScrollBy y)) w1)))
      as (ys & w2 & Hrun & Hlen & Hall & Ht2 & Hs2 & Hi2 & Hp2).
    { intros y'. simpl. rewrite Hs. apply Hok. }
    exists (y :: ys), w2.
    split.
    { cbn [repeat_m]. erewrite bind_eval; [exact Hrun|].
      erewrite bind_eval; [|exact Hy].
      erewrite bind_eval; [|apply execute_script_eval, Hh]. reflexivity. }
    split; [simpl; now f_equal|]. split; [now constructor|].
    split.
    { rewrite Ht2. simpl. rewrite Ht, <- !app_assoc. reflexivity. }
    simpl in Hs2, Hi2, Hp2. repeat split; congruence.
Qed.

Lemma simulate_browses (most far : Z) (pause rest : Z * Z) :
  2 <= most -> 100 <= far -> browses most far pause rest (simulate most far pause rest).
Proof.
  intros Hmost Hfar w Hok.
  destruct (randint_eval 2 most w Hmost) as (n & w1 & Hn & Hin & Ht & Hs & Hi & Hp).
  destruct (repeat_scrolls_trace far pause (Z.to_nat n) w1 Hfar)
    as (ys & w2 & Hrun & Hlen & Hall & Ht2 & Hs2 & Hi2 & Hp2).
  { intros y. rewrite Hs. apply Hok. }
  exists ys, (emit (Sleep (fst rest) (snd rest)) w2).
  split.
  { unfold simulate. erewrite bind_eval; [|exact Hn].
    erewrite bind_eval; [|exact Hrun]. reflexivity. }
  split; [lia|]. split; [exact Hall|].
  split; [simpl; rewrite Ht2, Ht, <- app_assoc; reflexivity|].
  simpl. repeat split; congruence.
Qed.

(** X7: when its scroll scripts succeed, [human_simulate] scrolls between
    2 and 4 times (2 and 5 in [enhanced_1688.py]), each time by 100 to 400
    pixels (100 to 500), sleeps after each scroll and once at the end, and
    does nothing else: no navigation, no prompt, no change to the results. *)
Theorem human_simulate_browses :
  browses 4 400 (3, 10) (5, 20) SimpleBatch1688.human_simulate
  /\ browses 4 400 (3, 10) (5, 20) Batch1688Crawler.human_simulate
  /\ browses 5 500 (5, 15) (10, 30) Enhanced1688Crawler.human_simulate.
Proof.
  split_and!; apply simulate_browses; lia.
Qed.

(** With the random source giving 1 and then 7, 250 and 3: three scrolls. *)
Lemma human_simulate_scrolls_three_times :
  exists w1,
    SimpleBatch1688.human_simulate
      {| web := fun _ _ => Raise TimeoutException; now := fun _ => [];
         writable := fun _ => true; session := still blank_page working_scripts;
         random := [1; 7; 250; 3]%nat; stdin := []; trace := [];
         all_products_data := [] |} = Ret tt w1
    /\ trace w1 = scrolls (3, 10) [107; 350; 103] ++ [Sleep 5 20].
Proof.
  destruct (proj1 human_simulate_browses
              {| web := fun _ _ => Raise TimeoutException; now := fun _ => [];
                 writable := fun _ => true; session := still blank_page working_scripts;
                 random := [1; 7; 250; 3]%nat; stdin := []; trace := [];
                 all_products_data := [] |})
    as (ys & w1 & Hrun & _).
  - intros y. exists 0%N. reflexivity.
  - exists w1. split; [exact Hrun|].
    vm_compute in Hrun. injection Hrun as <-. reflexivity.
Defined.

Lemma wait_for_captcha_unattended (keywords : list str) :
  unattended_gate (wait_for_captcha keywords).
Proof.
  induction keywords as [|keyword keywords IH]; intros w Hw.
  - exists w. repeat split.
  - rewrite wait_for_captcha_cons, check_keyword_eval.
    assert (closed_input (answered (emit Prompt (emit (CaptchaNotice keyword) w)))) as Hw1.
    { unfold closed_input in *. simpl. destruct (stdin w); [constructor|].
      now inversion Hw. }
    destruct (xpath_contains_text (document (session w) (time w)) keyword) as [[|e elements]|];
      try apply IH, Hw.
    cbv zeta. unfold closed_input in Hw.
    destruct (stdin w) as [|[s| |] answers] eqn:Hin;
      try (inversion Hw as [|? ? Hr]; discriminate Hr);
      destruct (IH _ Hw1) as (w1 & -> & Hs & Hp); exists w1; auto.
Qed.

(** X8: with the operator's input closed, the gate of either class
    reports no captcha, whatever the document shows: each prompt ends in
    an EOFError that the bare except swallows, and the search goes on to
    the next phrase. The gate then never blocks and never raises. *)
Theorem gate_reports_nothing_when_input_is_closed :
  unattended_gate SimpleBatch1688.wait_and_handle_captcha
  /\ unattended_gate Batch1688Crawler.wait_and_handle_captcha.
Proof.
  split; apply wait_for_captcha_unattended.
Qed.

(** The document shows a captcha and nobody can answer. *)
Lemma captcha_goes_unreported :
  exists w1, wait_and_handle_captcha (world_of (still captcha_page working_scripts) [])
             = Ret false w1
    /\ In (CaptchaNotice (U "验证码")) (trace w1).
Proof.
  destruct (proj1 gate_reports_nothing_when_input_is_closed
              (world_of (still captcha_page working_scripts) []))
    as (w1 & Hrun & _); [constructor|].
  exists w1. split; [exact Hrun|].
  vm_compute in Hrun. injection Hrun as <-. left. reflexivity.
Defined.
(** ** Texts found by selectors *)

Lemma lstrip_fixed (s : str) :
  match s with [] => True | c :: _ => is_space c = false end -> lstrip s = s.
Proof.
  destruct s as [|c s]; [reflexivity|]. unfold lstrip. simpl. now intros ->.
Qed.

Lemma lstrip_head (s : str) :
  match lstrip s with [] => True | c :: _ => is_space c = false end.
Proof.
  unfold lstrip. now destruct (skip_while_split is_space s) as (_ & _ & _ & H).
Qed.

Lemma strip_strip (s : str) : strip (strip s) = strip s.
Proof.
  unfold strip. set (a := lstrip s). set (b := lstrip (rev a)).
  assert (lstrip (rev b) = rev b) as Hb.
  { apply lstrip_fixed.
    destruct (skip_while_split is_space (rev a)) as (run & Hsplit & _ & _).
    fold (lstrip (rev a)) in Hsplit. fold b in Hsplit.
    apply (f_equal (@rev N)) in Hsplit. rewrite rev_involutive, rev_app_distr in Hsplit.
    pose proof (lstrip_head s) as Ha. fold a in Ha. rewrite Hsplit in Ha.
    destruct (rev b) as [|c r]; [exact I|exact Ha]. }
  rewrite Hb, rev_involutive.
  rewrite (lstrip_fixed b); [reflexivity|apply lstrip_head].
Qed.

Lemma usable_text_found (least : nat) (selectors : list str)
    (candidate : Page -> str -> option str) (p : Page) (s : str) :
  (forall selector,
     candidate p selector
     = match find_element p selector ≫= text with
       | Ok t => if truthy (strip t) && (least <? length (strip t))%nat
                 then Some (strip t) else None
       | Raise _ => None
       end) ->
  first_some (candidate p) selectors = Some s ->
  first_usable_text least selectors candidate p s.
Proof.
  intros Hcandidate H. apply first_some_Some in H as (i & selector & Hi & Hs & Hearlier).
  rewrite Hcandidate in Hs. unfold mbind, Exc_bind, exc_bind in Hs.
  destruct (find_element p selector) as [e|] eqn:He; [|discriminate].
  destruct (text e) as [t|] eqn:Ht; [|discriminate].
  destruct (truthy (strip t)); [|discriminate]. simpl in Hs.
  destruct (least <? length (strip t))%nat eqn:Hlen; [|discriminate].
  injection Hs as <-. apply Nat.ltb_lt in Hlen.
  split; [exact Hlen|]. split; [apply strip_strip|].
  exists i, selector, e, t. auto.
Qed.

(** X9: a supplier name, when one is returned, is the stripped text, of
    more than two characters and free of surrounding whitespace, of the
    first element found by the first selector that yields such a text; only
    the first element of each selector is looked at. The description of
    [batch_1688.py] is found the same way and has more than ten characters. *)
Theorem extract_supplier_first_usable_text (p : Page) (s : str) :
  (extract_supplier p = Some s ->
     first_usable_text 2 supplier_selectors supplier_candidate p s)
  /\ (Batch1688Crawler.extract_description p = Some s ->
     first_usable_text 10 Batch1688Crawler.desc_selectors
                       Batch1688Crawler.desc_candidate p s).
Proof.
  split; apply usable_text_found; reflexivity.
Qed.

(** The blank first element of the company block sends the search on to
    the shop name, although the block has a second element. *)
Lemma supplier_is_first_usable_text :
  extract_supplier supplier_page = Some (U "某某旗舰店")
  /\ first_usable_text 2 supplier_selectors supplier_candidate supplier_page
                       (U "某某旗舰店").
Proof.
  assert (extract_supplier supplier_page = Some (U "某某旗舰店")) as H
    by (vm_compute; reflexivity).
  split; [exact H|].
  exact (proj1 (extract_supplier_first_usable_text supplier_page (U "某某旗舰店")) H).
Defined.

(** ** The specification table, cut short *)

Lemma for_until_stops {A S} (body : A -> S -> S * bool) (done : list A) (x : A)
    (rest : list A) (s s1 s2 : S) :
  for_until body done s = (s1, true) -> body x s1 = (s2, false) ->
  for_until body (done ++ x :: rest) s = (s2, false).
Proof.
  revert s. induction done as [|y done IH]; intros s; simpl.
  - intros [= ->] ->. reflexivity.
  - destruct (body y s) as [s' [|]]; [apply IH|discriminate].
Qed.

Lemma specs_entries_kept (specs : gmap str str) (r : Row) :
  (forall k v, specs !! k = Some v -> k <> [] /\ v <> [] /\ strip k = k /\ strip v = v) ->
  forall k v, fst (scan_row r specs) !! k = Some v ->
              k <> [] /\ v <> [] /\ strip k = k /\ strip v = v.
Proof.
  intros Hspecs. unfold scan_row.
  destruct (cells r) as [[|c0 [|c1 cs]]|]; try exact Hspecs.
  destruct (text c0) as [k0|]; [|exact Hspecs].
  destruct (text c1) as [v0|]; [|exact Hspecs].
  cbv zeta. cbn [fst].
  destruct (truthy (strip k0)) eqn:Ek; [|exact Hspecs].
  destruct (truthy (strip v0)) eqn:Ev; [|exact Hspecs].
  cbn [andb]. intros k v. destruct (decide (strip k0 = k)) as [<-|Hne].
  - rewrite lookup_insert_eq. intros [= <-].
    repeat split; try apply strip_strip.
    + intros Hk. now rewrite Hk in Ek.
    + intros Hv. now rewrite Hv in Ev.
  - rewrite lookup_insert_ne by assumption. apply Hspecs.
Qed.

(** X10: every key and every value of the specifications is non-empty
    and free of surrounding whitespace. When the cells of a row cannot be
    read the scan stops there, in this table and in those after it, and the
    rows scanned so far decide the map, the last binding of a key winning. *)
Theorem extract_specifications_keeps_scanned_rows (p : Page) :
  (forall k v, extract_specifications p !! k = Some v ->
     k <> [] /\ v <> [] /\ strip k = k /\ strip v = v)
  /\ (forall ts rs bad later_rows later_tables e,
      tables p = Ok (map table_of ts
                     ++ {| rows := Ok (map row_of rs ++ bad :: later_rows) |}
                     :: later_tables) ->
      cells bad = Raise e ->
      forall k, extract_specifications p !! k = last_binding k (concat ts ++ rs)).
Proof.
  split.
  - unfold extract_specifications. destruct (tables p) as [ts|]; [|intros k v; now rewrite lookup_empty].
    apply (for_until_keeps
             (fun specs => forall k v, specs !! k = Some v ->
                k <> [] /\ v <> [] /\ strip k = k /\ strip v = v)).
    + intros t specs Hspecs. unfold scan_table.
      destruct (rows t) as [rs|]; [|exact Hspecs].
      apply (for_until_keeps
               (fun specs => forall k v, specs !! k = Some v ->
                  k <> [] /\ v <> [] /\ strip k = k /\ strip v = v)); [|exact Hspecs].
      intros r specs1 Hspecs1. now apply specs_entries_kept.
    + intros k v. now rewrite lookup_empty.
  - intros ts rs bad later_rows later_tables e Hp Hbad k.
    unfold extract_specifications. rewrite Hp.
    erewrite for_until_stops;
      [|apply scan_tables_of
       |unfold scan_table; cbn [rows];
        erewrite for_until_stops;
          [reflexivity|apply scan_rows_of|unfold scan_row; rewrite Hbad; reflexivity]].
    cbn [fst]. rewrite <- fold_left_app, bind_rows_lookup, lookup_empty.
    now destruct (last_binding k (concat ts ++ rs)).
Qed.

(** The stale row hides the second colour and the second table. *)
Lemma stale_row_cuts_the_scan :
  extract_specifications stale_page = {[ U "颜色" := U "红" ]}.
Proof.
  apply map_eq. intros k.
  rewrite (proj2 (extract_specifications_keeps_scanned_rows stale_page)
             [] [[U "颜色"; U "红"]] stale_row (map row_of [[U "颜色"; U "蓝"]])
             [table_of [[U "材质"; U "不锈钢"]]] StaleElementReferenceException
             eq_refl eq_refl k).
  unfold last_binding. simpl concat. simpl app. simpl List.filter.
  change (strip (U "颜色")) with (U "颜色").
  change (strip (U "红")) with (U "红").
  destruct (decide (U "颜色" = k)) as [<-|Hne].
  - rewrite bool_decide_eq_true_2 by reflexivity. simpl.
    symmetry. apply lookup_singleton_eq.
  - rewrite bool_decide_eq_false_2 by assumption. simpl.
    symmetry. apply lookup_singleton_ne. assumption.
Defined.
(** ** A target that cannot be loaded *)

(** X11: when the navigation to a target raises, the item pipeline of
    [simple_batch_1688.py] returns no record, having done nothing but the
    navigation, and the loop body enters the target with its position in
    the failure ledger: nothing is appended to the results, no file is
    written, and the counter of successes stays as it was. *)
Theorem unreachable_target_goes_to_the_ledger
    (list_of_set : list str -> list str) (total_urls index : Z) (u : str)
    (successful_count : Z) (failed_urls : list (Z * str)) (w : World) (e : exn) :
  web w (time w) u = Raise e ->
  SimpleBatch1688.extract_single_product list_of_set u index w
  = Ret None (emit (Navigate u) w)
  /\ Batch.process_one (SimpleBatch1688.extract_single_product list_of_set)
       total_urls index u successful_count failed_urls w
     = Ret (successful_count, failed_urls ++ [(index, u)])
           (after_failed_navigation total_urls index u w).
Proof.
  intros Hweb.
  assert (SimpleBatch1688.extract_single_product list_of_set u index w
          = Ret None (emit (Navigate u) w)) as Hpipe.
  { unfold SimpleBatch1688.extract_single_product, try_except, mbind, M_bind, driver_get.
    rewrite Hweb. reflexivity. }
  split; [exact Hpipe|].
  unfold Batch.process_one. erewrite bind_eval; [|exact Hpipe].
  unfold after_failed_navigation. cbn [Batch.processed].
  unfold mbind, M_bind, mret, M_ret, sleep, tell.
  destruct (index <? total_urls); reflexivity.
Qed.

(** The network is down: the target is the first entry of the ledger. *)
Lemma offline_target_goes_to_the_ledger :
  Batch.process_one (SimpleBatch1688.extract_single_product first_occurrences)
    1 1 sample_target 0 [] offline
  = Ret (0, [(1, sample_target)]) (emit (Navigate sample_target) offline).
Proof.
  exact (proj2 (unreachable_target_goes_to_the_ledger first_occurrences 1 1 sample_target
                  0 [] offline TimeoutException eq_refl)).
Defined.
(** ** The entries of the image list *)

Lemma startswith_app (s p1 p2 : str) :
  startswith s (p1 ++ p2) = true -> startswith s p1 = true.
Proof.
  revert s. induction p1 as [|c p1 IH]; intros s; [now destruct s|].
  destruct s as [|d s]; [discriminate|].
  change (((c =? d)%N && startswith s (p1 ++ p2)) = true
          -> ((c =? d)%N && startswith s p1) = true).
  intros [-> H]%andb_prop. simpl. now apply IH.
Qed.

Lemma image_entry_fields (img : Img) (u src : str) (i : image) :
  image_entry img u src = Ok i -> url i = u /\ source i = src.
Proof.
  unfold image_entry, mbind, Exc_bind, exc_bind.
  destruct (attribute_or img (U "alt") []); [|discriminate].
  destruct (attribute_or img (U "width") (U "0")); [|discriminate].
  destruct (attribute_or img (U "height") (U "0")); [|discriminate].
  destruct (attribute_or img (U "class") []); [|discriminate].
  intros [= <-]. split; reflexivity.
Qed.

Lemma tag_url_http (img : Img) (attrs : list str) (u : str) :
  tag_url img attrs = Ok (Some u) -> startswith u (U "http") = true.
Proof.
  induction attrs as [|attr attrs IH]; simpl; [discriminate|].
  destruct (get_attribute img attr) as [[v|]|]; [| |discriminate]; [|exact IH].
  destruct (truthy v); simpl; [|exact IH].
  destruct (startswith v (U "http")) eqn:E; [|exact IH].
  destruct (any_in _ (lower v)); [now intros [= <-]|].
  destruct (contains (U "alicdn.com") v || contains (U "img.alicdn.com") v);
    [now intros [= <-]|exact IH].
Qed.

Lemma get_best_image_url_http (img : Img) (u : str) :
  get_best_image_url img = Some u -> startswith u (U "http") = true.
Proof.
  unfold get_best_image_url. intros H.
  apply first_some_Some in H as (_ & attr & _ & H & _).
  unfold best_candidate in H.
  destruct (get_attribute img attr) as [[v|]|]; try discriminate.
  destruct (truthy v); simpl in H; [|discriminate].
  destruct (startswith v (U "http")) eqn:E; [|discriminate].
  repeat match type of H with
         | (if ?b then _ else _) = _ => destruct b
         end; try discriminate; now injection H as <-.
Qed.

Lemma is_product_image_refuses (u : str) (img : option Img) :
  is_product_image u img = true -> any_in refused_words (lower u) = false.
Proof.
  unfold is_product_image. cbv zeta.
  destruct (any_in exclude_patterns (lower u)) eqn:E; [discriminate|]. intros _.
  unfold any_in, exclude_patterns in E. unfold any_in, refused_words.
  cbn [existsb] in *.
  repeat match type of E with
         | (_ || _) = false => apply orb_false_elim in E as [? E]
         end.
  repeat (apply orb_false_intro; [assumption|]). reflexivity.
Qed.

Lemma is_valid_product_image_url_refuses (u : str) :
  is_valid_product_image_url u = true ->
  startswith u (U "https://") = true /\ any_in refused_words (lower u) = false.
Proof.
  unfold is_valid_product_image_url. cbv zeta.
  destruct (negb (truthy u) || (length u <? 20)%nat); [discriminate|].
  destruct (startswith u (U "https://")); [|discriminate]. cbn [negb].
  destruct (negb _); [discriminate|].
  fold refused_words. destruct (any_in refused_words (lower u)); [discriminate|auto].
Qed.

Lemma candidates_add (i : image) (st : found) :
  Forall candidate_ok (fst st) -> candidate_ok i -> Forall candidate_ok (fst (add_image i st)).
Proof.
  intros Hst Hi. unfold add_image. cbn [fst]. apply Forall_app. split; [assumption|].
  now constructor.
Qed.

Lemma element_candidate_ok (img : Img) (u src : str) (i : image) (element : option Img) :
  src = U "img_tag" \/ src = U "lazy_load" ->
  startswith u (U "http") = true -> is_product_image u element = true ->
  image_entry img u src = Ok i -> candidate_ok i.
Proof.
  intros Hsrc Hu Hp [H1 H2]%image_entry_fields.
  unfold candidate_ok. rewrite H1, H2.
  split; [exact Hu|]. split; [tauto|]. split.
  - intros H. destruct Hsrc as [->| ->]; vm_compute in H; discriminate.
  - intros _. eapply is_product_image_refuses, Hp.
Qed.

Lemma from_img_tag_candidates (img : Img) (st : found) :
  Forall candidate_ok (fst st) -> Forall candidate_ok (fst (from_img_tag img st)).
Proof.
  intros Hst. unfold from_img_tag.
  destruct (tag_url img tag_attributes) as [[img_url|]|] eqn:Hu; try assumption.
  destruct (truthy img_url && negb (bool_decide (img_url ∈ snd st))); [|assumption].
  destruct (is_product_image img_url (Some img)) eqn:Hp; [|assumption].
  destruct (image_entry img img_url (U "img_tag")) as [i|] eqn:Hi; [|assumption].
  apply candidates_add; [assumption|].
  apply (element_candidate_ok img img_url (U "img_tag") i (Some img)); auto.
  eapply tag_url_http, Hu.
Qed.

Lemma from_match_candidates (u : str) (st : found) :
  Forall candidate_ok (fst st) -> Forall candidate_ok (fst (from_match u st)).
Proof.
  intros Hst. unfold from_match.
  destruct (negb (bool_decide (u ∈ snd st))); cbn [andb]; [|assumption].
  destruct (is_valid_product_image_url u) eqn:Hv; [|assumption].
  apply is_valid_product_image_url_refuses in Hv as [Hs Hr].
  apply candidates_add; [assumption|].
  split; [apply (startswith_app u (U "http") (U "s://")), Hs|]. cbn [url source alt width height class].
  split; [tauto|]. split; [auto|]. auto.
Qed.

Lemma from_container_img_candidates (selector : str) (img : Img) (st : found) :
  In selector image_containers ->
  Forall candidate_ok (fst st) ->
  Forall candidate_ok (fst (fst (from_container_img selector img st))).
Proof.
  intros Hsel Hst. unfold from_container_img.
  destruct (get_best_image_url img) as [img_url|] eqn:Hu; [|assumption].
  destruct (truthy img_url && negb (bool_decide (img_url ∈ snd st))); [|assumption].
  destruct (image_entry img img_url (U "container_" ++ selector)) as [i|] eqn:Hi;
    [|assumption].
  cbn [fst]. apply candidates_add; [assumption|].
  apply image_entry_fields in Hi as [H1 H2].
  unfold candidate_ok. rewrite H1, H2.
  split; [eapply get_best_image_url_http, Hu|]. split; [eauto 6|]. split.
  - intros H. apply (f_equal (take 10)) in H. vm_compute in H. discriminate.
  - intros H. now destruct (H selector).
Qed.

Lemma from_lazy_load_candidates (img : Img) (st : found) :
  Forall candidate_ok (fst st) -> Forall candidate_ok (fst (from_lazy_load img st)).
Proof.
  intros Hst. unfold from_lazy_load.
  destruct (get_best_image_url img) as [img_url|] eqn:Hu; [|assumption].
  destruct (truthy img_url && negb (bool_decide (img_url ∈ snd st))); cbn [andb];
    [|assumption].
  destruct (is_product_image img_url (Some img)) eqn:Hp; [|assumption].
  destruct (image_entry img img_url (U "lazy_load")) as [i|] eqn:Hi; [|assumption].
  apply candidates_add; [assumption|].
  apply (element_candidate_ok img img_url (U "lazy_load") i (Some img)); auto.
  eapply get_best_image_url_http, Hu.
Qed.

Lemma from_containers_candidates (p : Page) (st : found) :
  Forall candidate_ok (fst st) -> Forall candidate_ok (fst (from_containers p st)).
Proof.
  unfold from_containers.
  assert (forall todo st,
    (forall selector, In selector todo -> In selector image_containers) ->
    Forall candidate_ok (fst st) ->
    Forall candidate_ok (fst (fold_left (fun st container_selector =>
        match css p container_selector with
        | Ok containers =>
          fst (for_until (from_container container_selector) containers st)
        | Raise _ => st
        end) todo st))) as H.
  { induction todo as [|selector todo IH]; intros st1 Hsub Hst1; simpl; [exact Hst1|].
    apply IH; [intros s Hs; apply Hsub; now right|].
    destruct (css p selector) as [containers|]; [|exact Hst1].
    apply (for_until_keeps (fun st => Forall candidate_ok (fst st))); [|exact Hst1].
    intros container st2 Hst2. unfold from_container.
    destruct (find_imgs container) as [container_imgs|]; [|exact Hst2].
    apply (for_until_keeps (fun st => Forall candidate_ok (fst st))); [|exact Hst2].
    intros img st3. apply from_container_img_candidates, Hsub. now left. }
  apply H. auto.
Qed.

Lemma discover_images_candidates (w : World) :
  scrollable (session w) ->
  quietly discover_images w (fun images _ => Forall candidate_ok images).
Proof.
  intros Hs. unfold discover_images.
  apply quietly_bind, quietly_page.
  apply quietly_bind, quietly_lift. intros img_elements _.
  apply quietly_bind.
  eapply quietly_weaken; [apply scroll_to_load_images_ends, Hs|].
  intros _ w1 _ _.
  apply quietly_bind, quietly_tell.
  apply quietly_bind, quietly_page.
  apply quietly_bind, quietly_lift. intros new_img_elements _.
  apply quietly_ret.
  apply (fold_left_keeps (fun st => Forall candidate_ok (fst st)));
    [intros img st; apply from_lazy_load_candidates|].
  apply from_containers_candidates.
  unfold from_page_source. destruct (page_source _) as [src|].
  - apply (fold_left_keeps (fun st => Forall candidate_ok (fst st))).
    + intros pattern st Hst.
      apply (fold_left_keeps (fun st => Forall candidate_ok (fst st))); [|exact Hst].
      intros u st1. apply from_match_candidates.
    + apply (fold_left_keeps (fun st => Forall candidate_ok (fst st)));
        [intros img st; apply from_img_tag_candidates|constructor].
  - apply (fold_left_keeps (fun st => Forall candidate_ok (fst st)));
      [intros img st; apply from_img_tag_candidates|constructor].
Qed.

(** X12: when the scroll loop ends, [extract_images] returns a list in
    which every URL starts with http and every entry names the pass that
    found it; an entry taken from the page source has an https URL and
    empty attributes; and an entry from the img-tag, page-source or
    lazy-load pass has none of the words icon, logo, btn, arrow, star and
    sprite in its lower-cased URL. The container pass filters nothing. *)
Theorem extract_images_entries_well_formed (w : World) :
  scrollable (session w) ->
  exists l w1, extract_images w = Ret l w1 /\ Forall candidate_ok l.
Proof.
  intros Hs. pose proof (discover_images_candidates w Hs) as H.
  unfold quietly, outcome in H. unfold extract_images, try_except, mbind, M_bind.
  destruct (discover_images w) as [discovered w1|e w1|]; [|exists [], w1|contradiction].
  - destruct H as [_ Hall].
    exists (sort_images_by_quality discovered), w1.
    split; [destruct discovered; reflexivity|].
    apply List.Forall_forall. intros i Hi.
    apply (proj1 (List.Forall_forall _ _) Hall).
    eapply Permutation_in; [apply Permutation_sym, sorted_reverse_perm|exact Hi].
  - split; [reflexivity|constructor].
Qed.

(** The gallery document: all four entries are well formed. *)
Lemma gallery_entries_are_well_formed :
  exists l w1,
    extract_images (world_of (still gallery_page working_scripts) []) = Ret l w1
    /\ Forall candidate_ok l /\ length l = 4%nat.
Proof.
  destruct (extract_images_entries_well_formed
              (world_of (still gallery_page working_scripts) []))
    as (l & w1 & Hl & Hall); [discriminate|].
  exists l, w1. split; [exact Hl|]. split; [exact Hall|].
  vm_compute in Hl. injection Hl as <- _. reflexivity.
Defined.

(** ** The list of links *)

Lemma read_lines_filter (lines : list str) (urls : list str) :
  fold_left read_line lines urls = urls ++ List.filter link_line (map strip lines).
Proof.
  revert urls. induction lines as [|line lines IH]; intros urls; simpl.
  - now rewrite app_nil_r.
  - rewrite IH. unfold read_line, link_line. cbv zeta.
    destruct (strip line) as [|c l] eqn:E.
    + now destruct (contains (U "detail.1688.com") []) eqn:E1.
    + cbn [truthy andb].
      destruct (startswith (c :: l) (U "#")); cbn [negb];
        rewrite ?andb_false_r, ?andb_true_r; [reflexivity|].
      destruct (contains (U "detail.1688.com") (c :: l)); [|reflexivity].
      now rewrite <- app_assoc.
Qed.

(** X13: [read_urls_from_input] returns, in file order and with
    repetitions kept, exactly the stripped lines of [input.txt] that contain
    detail.1688.com and do not start with the comment sign; it returns
    nothing for a missing file, and what it read when the reading fails on
    the way. [get_urls_from_file] of [batch_1688.py] reads an existing file
    the same way; for a missing file it writes the sample file and returns
    nothing, and a second call then reads the one sample link from it. *)
Theorem read_urls_from_input_keeps_link_lines (f : Outside.text_file) (creatable : bool) :
  read_urls_from_input None = []
  /\ read_urls_from_input (Some f) = List.filter link_line (map strip (Outside.yielded f))
  /\ Forall (fun u => contains (U "detail.1688.com") u = true
                      /\ startswith u (U "#") = false /\ strip u = u)
            (read_urls_from_input (Some f))
  /\ Batch1688Crawler.get_urls_from_file (Some f) creatable
     = Some (read_urls_from_input (Some f), Some f)
  /\ Batch1688Crawler.get_urls_from_file None true
     = Some ([], Some Batch1688Crawler.sample_file)
  /\ Batch1688Crawler.get_urls_from_file None false = None
  /\ Batch1688Crawler.get_urls_from_file (Some Batch1688Crawler.sample_file) creatable
     = Some ([sample_link], Some Batch1688Crawler.sample_file).
Proof.
  assert (read_urls_from_input (Some f)
          = List.filter link_line (map strip (Outside.yielded f))) as Heq.
  { unfold read_urls_from_input. now rewrite read_lines_filter. }
  split_and!; try reflexivity; try exact Heq.
  - rewrite Heq. apply List.Forall_forall. intros u [Hin Hu]%filter_In.
    apply in_map_iff in Hin as (line & <- & _).
    unfold link_line in Hu. apply andb_prop in Hu as [H1 H2].
    apply negb_true_iff in H2. split; [exact H1|]. split; [exact H2|apply strip_strip].
Qed.

(** Comments, blank lines and other pages are passed over; a link written
    twice is read twice. *)
Lemma links_file_is_read :
  read_urls_from_input (Some links_file)
  = [U "https://detail.1688.com/offer/1.html"; U "https://detail.1688.com/offer/1.html"]
  /\ Forall (fun u => contains (U "detail.1688.com") u = true
                      /\ startswith u (U "#") = false /\ strip u = u)
            (read_urls_from_input (Some links_file)).
Proof.
  split; [vm_compute; reflexivity|].
  exact (proj1 (proj2 (proj2 (read_urls_from_input_keeps_link_lines links_file true)))).
Defined.

(** ** Links typed by the operator *)

Lemma user_lines_eval (lines : list str) :
  forall (fuel : nat) (urls : list str) (w : World) (rest : list reaction),
    stdin w = map Line lines ++ rest -> (length lines < fuel)%nat ->
    match rest with
    | Line _ :: _ => True
    | Silent :: _ => Batch1688Crawler.user_lines fuel urls w = Hang
    | _ =>
      exists w1,
        Batch1688Crawler.user_lines fuel urls w
        = Ret (urls ++ List.filter typed_link (map strip lines)) w1
        /\ stdin w1 = tail rest
        /\ trace w1 = trace w ++ replicate (S (length lines)) Prompt
        /\ session w1 = session w /\ all_products_data w1 = all_products_data w
    end.
Proof.
  induction lines as [|line lines IH]; intros fuel urls w rest Hin Hfuel;
    (destruct fuel as [|fuel]; [simpl in Hfuel; lia|]);
    cbn [Batch1688Crawler.user_lines]; unfold input; rewrite Hin.
  - simpl. destruct rest as [|[s| |] rest]; try exact I; try reflexivity;
      (exists (answered (emit Prompt w)); rewrite app_nil_r;
       split; [reflexivity|]; simpl; rewrite Hin; auto).
  - cbn [map app]. cbv zeta.
    set (urls1 := if truthy (strip line)
                     && (startswith (strip line) (U "http")
                         && contains (U "1688.com") (strip line))
                  then urls ++ [strip line] else urls).
    specialize (IH fuel urls1 (answered (emit Prompt w)) rest).
    assert (urls1 ++ List.filter typed_link (map strip lines)
            = urls ++ List.filter typed_link (map strip (line :: lines))) as Hurls.
    { subst urls1. cbn [map List.filter].
      destruct (strip line) as [|c l]; [reflexivity|]. cbn [truthy andb].
      change (typed_link (c :: l))
        with (startswith (c :: l) (U "http") && contains (U "1688.com") (c :: l)).
      destruct (startswith (c :: l) (U "http") && contains (U "1688.com") (c :: l));
        [now rewrite <- app_assoc|reflexivity]. }
    destruct rest as [|[s| |] rest]; try exact I.
    + destruct IH as (w1 & -> & H1 & H2 & H3 & H4);
        [simpl; rewrite Hin; reflexivity|simpl in Hfuel; lia|].
      exists w1. rewrite Hurls. split; [reflexivity|]. split; [exact H1|].
      split; [rewrite H2; simpl; rewrite <- app_assoc; reflexivity|auto].
    + destruct IH as (w1 & -> & H1 & H2 & H3 & H4);
        [simpl; rewrite Hin; reflexivity|simpl in Hfuel; lia|].
      exists w1. rewrite Hurls. split; [reflexivity|]. split; [exact H1|].
      split; [rewrite H2; simpl; rewrite <- app_assoc; reflexivity|auto].
    + apply IH; [simpl; rewrite Hin; reflexivity|simpl in Hfuel; lia].
Qed.

(** X14: [get_urls_from_user] reads lines until the input is closed and
    returns, in the order typed and with repetitions kept, the stripped
    lines that start with http and contain 1688.com; it prompts once per
    line and once more for the end of the input, and leaves what follows the
    end unread. It never returns if the operator stops answering. *)
Theorem get_urls_from_user_reads_to_the_end
    (w : World) (lines : list str) (rest : list reaction) :
  stdin w = map Line lines ++ rest ->
  (rest = [] \/ (exists later, rest = Eof :: later) ->
   exists w1,
     Batch1688Crawler.get_urls_from_user w
     = Ret (List.filter typed_link (map strip lines)) w1
     /\ stdin w1 = tail rest
     /\ trace w1 = trace w ++ replicate (S (length lines)) Prompt
     /\ session w1 = session w /\ all_products_data w1 = all_products_data w)
  /\ ((exists later, rest = Silent :: later) ->
      Batch1688Crawler.get_urls_from_user w = Hang).
Proof.
  intros Hin.
  pose proof (user_lines_eval lines (S (length (stdin w))) [] w rest Hin) as H.
  assert (length lines < S (length (stdin w)))%nat as Hlen.
  { rewrite Hin, length_app, length_map. lia. }
  specialize (H Hlen). unfold Batch1688Crawler.get_urls_from_user.
  split.
  - intros [->|[later ->]]; exact H.
  - intros [later ->]. exact H.
Qed.

(** Two lines, one of them a link, then the end of the input. *)
Lemma typed_links_are_read :
  exists w1,
    Batch1688Crawler.get_urls_from_user
      (world_of (still blank_page working_scripts)
                [Line (U " https://detail.1688.com/offer/1.html "); Line (U "hello"); Eof;
                 Line (U "y")])
    = Ret [U "https://detail.1688.com/offer/1.html"] w1
    /\ stdin w1 = [Line (U "y")].
Proof.
  destruct (proj1 (get_urls_from_user_reads_to_the_end
                     (world_of (still blank_page working_scripts)
                        [Line (U " https://detail.1688.com/offer/1.html ");
                         Line (U "hello"); Eof; Line (U "y")])
                     [U " https://detail.1688.com/offer/1.html "; U "hello"]
                     [Eof; Line (U "y")] eq_refl))
    as (w1 & Hrun & Hin & _); [right; eexists; reflexivity|].
  exists w1. split; [|exact Hin]. rewrite Hrun. vm_compute. reflexivity.
Defined.
(** ** Saving the images *)

Lemma find_extension (url_lower : str) :
  match List.find (fun ext => contains (U "." ++ ext) url_lower) url_extensions with
  | Some ext => In ext url_extensions /\ contains (U "." ++ ext) url_lower = true
  | None => forall ext, In ext url_extensions -> contains (U "." ++ ext) url_lower = false
  end.
Proof.
  destruct (List.find (fun ext => contains (U "." ++ ext) url_lower) url_extensions)
    as [ext|] eqn:E.
  - now apply find_some in E.
  - intros ext Hext. apply (find_none _ _ E ext Hext).
Qed.

(** X15: [get_image_extension] always returns one of jpg, jpeg, png,
    webp, gif and bmp. When the lower-cased URL contains one of them after a
    dot, the answer is such an extension and the response is not looked at;
    otherwise the answer is jpg, png, webp or gif, by the content type of a
    response that is no error, and jpg when there is none. *)
Theorem get_image_extension_is_known (u : str) (response : option Outside.Response) :
  In (get_image_extension u response) url_extensions
  /\ ((exists ext, In ext url_extensions /\ contains (U "." ++ ext) (lower u) = true) ->
      contains (U "." ++ get_image_extension u response) (lower u) = true
      /\ forall other, get_image_extension u other = get_image_extension u response)
  /\ ((forall ext, In ext url_extensions -> contains (U "." ++ ext) (lower u) = false) ->
      In (get_image_extension u response) [U "jpg"; U "png"; U "webp"; U "gif"]
      /\ get_image_extension u None = U "jpg"
      /\ (forall r, Outside.ok r = false -> get_image_extension u (Some r) = U "jpg")).
Proof.
  unfold get_image_extension. cbv zeta.
  pose proof (find_extension (lower u)) as Hfind.
  destruct (List.find (fun ext => contains (U "." ++ ext) (lower u)) url_extensions)
    as [ext|].
  - destruct Hfind as [Hin Hext]. split; [exact Hin|]. split; [auto|].
    intros Hnone. rewrite (Hnone ext Hin) in Hext. discriminate.
  - assert (In match response with
               | Some r =>
                 if Outside.ok r then
                   if contains (U "jpeg") (lower (Outside.content_type_or_empty r))
                      || contains (U "jpg") (lower (Outside.content_type_or_empty r))
                   then U "jpg"
                   else if contains (U "png") (lower (Outside.content_type_or_empty r))
                   then U "png"
                   else if contains (U "webp") (lower (Outside.content_type_or_empty r))
                   then U "webp"
                   else if contains (U "gif") (lower (Outside.content_type_or_empty r))
                   then U "gif" else U "jpg"
                 else U "jpg"
               | None => U "jpg"
               end [U "jpg"; U "png"; U "webp"; U "gif"]) as Hfour.
    { destruct response as [r|]; [|now left].
      repeat match goal with
             | |- context [if ?b then _ else _] => destruct b
             end; simpl; auto. }
    split.
    { destruct Hfour as [<-|[<-|[<-|[<-|[]]]]]; simpl; auto 7. }
    split.
    { intros (ext & Hin & Hext). rewrite (Hfind ext Hin) in Hext. discriminate. }
    intros _. split; [exact Hfour|]. split; [reflexivity|].
    intros r ->. reflexivity.
Qed.

Lemma download_from_counts (requests_get : nat -> str -> option Outside.Response)
    (writable_image : nat -> str -> bool) (product_index : Z) (images_data : list image) :
  forall (i : nat) (st : downloads),
    let r := download_from requests_get writable_image product_index i images_data st in
    downloaded_count r + failed_count r
    = downloaded_count st + failed_count st + Z.of_nat (length images_data)
    /\ requested (happened r) = requested (happened st) ++ map url images_data
    /\ Z.of_nat (length (saved (happened r)))
       = Z.of_nat (length (saved (happened st))) + (downloaded_count r - downloaded_count st)
    /\ forall name bytes, In (name, bytes) (saved (happened r)) ->
         In (name, bytes) (saved (happened st))
         \/ exists j img_data response,
              images_data !! j = Some img_data
              /\ requests_get (i + j)%nat (url img_data) = Some response
              /\ Outside.status_code response = 200
              /\ bytes = Outside.content response
              /\ name = image_filename product_index (i + j) (source img_data)
                          (get_image_extension (url img_data) (Some response)).
Proof.
  induction images_data as [|img_data images_data IH]; intros i st; cbv zeta.
  - simpl. rewrite app_nil_r. repeat split; try lia. auto.
  - cbn [download_from].
    specialize (IH (S i) (download_image requests_get writable_image product_index i img_data st)).
    cbv zeta in IH. destruct IH as (H1 & H2 & H3 & H4).
    set (r := download_from _ _ _ _ _ _) in *.
    assert (downloaded_count (download_image requests_get writable_image product_index i
                                img_data st)
            + failed_count (download_image requests_get writable_image product_index i
                              img_data st)
            = downloaded_count st + failed_count st + 1
            /\ requested (happened (download_image requests_get writable_image product_index i
                                      img_data st))
               = requested (happened st) ++ [url img_data]
            /\ (saved (happened (download_image requests_get writable_image product_index i
                                   img_data st)) = saved (happened st)
                /\ downloaded_count (download_image requests_get writable_image product_index i
                                       img_data st) = downloaded_count st
                \/ exists response,
                     requests_get i (url img_data) = Some response
                     /\ Outside.status_code response = 200
                     /\ saved (happened (download_image requests_get writable_image
                                           product_index i img_data st))
                        = saved (happened st)
                          ++ [(image_filename product_index i (source img_data)
                                 (get_image_extension (url img_data) (Some response)),
                               Outside.content response)]
                     /\ downloaded_count (download_image requests_get writable_image
                                            product_index i img_data st)
                        = downloaded_count st + 1)) as (S1 & S2 & S3).
    { unfold download_image. cbv zeta.
      destruct (requests_get i (url img_data)) as [response|] eqn:Hget.
      - destruct (Outside.status_code response =? 200) eqn:Hstatus.
        + destruct (writable_image i _) eqn:Hw; cbn [happened downloaded_count failed_count].
          * unfold requested, saved. rewrite !omap_app. cbn [omap list_omap].
            rewrite !app_nil_r. split; [lia|]. split; [reflexivity|].
            right. exists response. apply Z.eqb_eq in Hstatus. auto.
          * unfold requested, saved. rewrite !omap_app. cbn [omap list_omap].
            rewrite !app_nil_r. split; [lia|]. split; [reflexivity|]. left. auto.
        + cbn [happened downloaded_count failed_count].
          unfold requested, saved. rewrite !omap_app. cbn [omap list_omap].
          rewrite !app_nil_r. split; [lia|]. split; [reflexivity|]. left. auto.
      - cbn [happened downloaded_count failed_count].
        unfold requested, saved. rewrite !omap_app. cbn [omap list_omap].
        rewrite !app_nil_r. split; [lia|]. split; [reflexivity|]. left. auto. }
    split; [simpl length; lia|].
    split; [rewrite H2, S2, <- app_assoc; reflexivity|].
    split.
    { destruct S3 as [[S3 S4]|(response & _ & _ & S3 & S4)]; rewrite S3 in H3.
      - lia.
      - rewrite length_app in H3. simpl in H3. lia. }
    intros name bytes Hin. apply H4 in Hin as [Hin|(j & d & response & Hj & Hget & Hst & Hb & Hn)].
    + destruct S3 as [[S3 _]|(response & Hget & Hst & S3 & _)]; rewrite S3 in Hin; [now left|].
      apply in_app_or in Hin as [Hin|[[= <- <-]|[]]]; [now left|].
      right. exists 0%nat, img_data, response. rewrite Nat.add_0_r. auto.
    + right. exists (S j), d, response.
      replace (i + S j)%nat with (S i + j)%nat by lia. auto.
Qed.

(** X16: [download_product_images] asks for every image once, in the
    order of the list, and counts each of them exactly once, as downloaded
    or as failed; it saves as many files as it counts downloads, each the
    body of a response with status 200 under the name made of the product
    index, the position of the image, its origin and a known extension.
    An image whose request raises, is refused or cannot be written is
    counted as failed and saves nothing. *)
Theorem download_product_images_counts_every_image
    (requests_get : nat -> str -> option Outside.Response)
    (writable_image : nat -> str -> bool) (images_data : list image) (product_index : Z) :
  let r := download_product_images requests_get writable_image images_data product_index in
  downloaded_count r + failed_count r = Z.of_nat (length images_data)
  /\ requested (happened r) = map url images_data
  /\ Z.of_nat (length (saved (happened r))) = downloaded_count r
  /\ forall name bytes, In (name, bytes) (saved (happened r)) ->
       saved_image requests_get product_index images_data name bytes.
Proof.
  cbv zeta. unfold download_product_images.
  destruct (download_from_counts requests_get writable_image product_index images_data 0
              {| happened := []; downloaded_count := 0; failed_count := 0 |})
    as (H1 & H2 & H3 & H4).
  cbn [happened downloaded_count failed_count] in *.
  change (saved []) with (@nil (str * list N)) in H3. cbn [length] in H3.
  split; [lia|]. split; [exact H2|]. split; [rewrite H3; lia|].
  intros name bytes Hin.
  apply H4 in Hin as [[]|(j & d & response & Hj & Hget & Hst & Hb & Hn)].
  exists j, d, response. simpl in Hget, Hn.
  repeat split; auto.
  apply get_image_extension_is_known.
Qed.

(** The first image is saved as a jpg, its URL deciding against the
    content type; the second is refused and counted as failed. *)
Lemma two_images_one_saved :
  saved (happened (download_product_images one_answer (fun _ _ => true) two_images 7))
  = [(U "images/product_007_01_img_tag.jpg", [137; 80; 78; 71]%N)]
  /\ downloaded_count (download_product_images one_answer (fun _ _ => true) two_images 7)
     + failed_count (download_product_images one_answer (fun _ _ => true) two_images 7)
     = 2.
Proof.
  split; [vm_compute; reflexivity|].
  exact (proj1 (download_product_images_counts_every_image one_answer (fun _ _ => true)
                  two_images 7)).
Defined.
(** ** The names of the saved files *)

Lemma number_from (s : str) (acc : N) :
  fold_left (fun acc c => (acc * 10 + (c - 48))%N) s acc
  = (acc * 10 ^ N.of_nat (length s) + number s)%N.
Proof.
  unfold number. revert acc. induction s as [|c s IH]; intros acc.
  - simpl. lia.
  - cbn [fold_left length]. rewrite IH, (IH (0 * 10 + (c - 48))%N).
    rewrite Nat2N.inj_succ, N.pow_succ_r'. lia.
Qed.

Lemma digits_number (fuel : nat) :
  forall (n : N) (acc : str),
    (n < 2 ^ N.of_nat fuel)%N ->
    number (digits fuel n acc) = (n * 10 ^ N.of_nat (length acc) + number acc)%N.
Proof.
  induction fuel as [|fuel IH]; intros n acc Hn.
  - change (2 ^ N.of_nat 0)%N with 1%N in Hn. assert (n = 0%N) as -> by lia.
    cbn [digits]. now rewrite N.mul_0_l.
  - cbn [digits]. destruct (n <? 10)%N eqn:E.
    + unfold number at 1. cbn [fold_left]. rewrite number_from.
      apply N.ltb_lt in E. replace (0 * 10 + (48 + n - 48))%N with n by lia. reflexivity.
    + apply N.ltb_ge in E. rewrite Nat2N.inj_succ, N.pow_succ_r' in Hn.
      pose proof (N.div_mod n 10 ltac:(lia)) as Hd.
      pose proof (N.mod_lt n 10 ltac:(lia)) as Hm.
      assert (n / 10 < 2 ^ N.of_nat fuel)%N as Hq
        by (clear IH; set (P := (2 ^ N.of_nat fuel)%N) in *; set (q := (n / 10)%N) in *;
            set (r := (n mod 10)%N) in *; clearbody P q r; lia).
      rewrite IH by exact Hq.
      unfold number at 1. cbn [fold_left length]. rewrite number_from.
      rewrite Nat2N.inj_succ, N.pow_succ_r'.
      replace (0 * 10 + (48 + n mod 10 - 48))%N with (n mod 10)%N
        by (set (r := (n mod 10)%N); clearbody r; lia).
      set (t := (10 ^ N.of_nat (length acc))%N).
      set (q := (n / 10)%N) in *. set (r := (n mod 10)%N) in *. clearbody t q r.
      subst n. ring.
Qed.

Lemma digits_ascii (fuel : nat) :
  forall (n : N) (acc : str),
    Forall ascii_digit acc -> Forall ascii_digit (digits fuel n acc).
Proof.
  induction fuel as [|fuel IH]; intros n acc Hacc; [exact Hacc|].
  cbn [digits]. destruct (n <? 10)%N eqn:E.
  - apply N.ltb_lt in E. constructor; [unfold ascii_digit; lia|exact Hacc].
  - apply IH. constructor; [|exact Hacc].
    pose proof (N.mod_lt n 10 ltac:(lia)) as Hm. unfold ascii_digit.
    set (r := (n mod 10)%N) in *. clearbody r. lia.
Qed.

Lemma decimal_number (n : N) : number (decimal n) = n /\ Forall ascii_digit (decimal n).
Proof.
  unfold decimal. split; [|apply digits_ascii; constructor].
  rewrite digits_number;
    [change (number []) with 0%N; change (N.of_nat (length (@nil N))) with 0%N;
     rewrite N.pow_0_r; lia|].
  rewrite Nat2N.inj_succ, N2Nat.id.
  destruct n as [|p]; [reflexivity|]. apply N.log2_spec. lia.
Qed.

Lemma zeros_number (k : nat) (s : str) : number (replicate k 48%N ++ s) = number s.
Proof.
  induction k as [|k IH]; [reflexivity|].
  unfold number in *. simpl. exact IH.
Qed.

(** Formatting and reading back: the number written is the number read. *)
Lemma format_d_number (width : nat) (n : Z) :
  0 <= n ->
  number (format_d width n) = Z.to_N n /\ Forall ascii_digit (format_d width n).
Proof.
  intros Hn. unfold format_d. cbv zeta.
  replace (n <? 0) with false by (symmetry; apply Z.ltb_ge; lia).
  replace (Z.abs_N n) with (Z.to_N n) by lia.
  destruct (decimal_number (Z.to_N n)) as [H1 H2].
  split; [now rewrite zeros_number|].
  apply Forall_app. split; [|exact H2].
  apply Forall_forall. intros c [-> _]%elem_of_replicate. unfold ascii_digit. lia.
Qed.

Lemma digits_then_underscore (a a' x x' : str) :
  Forall ascii_digit a -> Forall ascii_digit a' ->
  a ++ 95%N :: x = a' ++ 95%N :: x' -> a = a' /\ x = x'.
Proof.
  intros Ha. revert a'. induction Ha as [|c a Hc Ha IH]; intros a' Ha' H.
  - destruct Ha' as [|c' a' Hc' Ha']; simpl in H.
    + injection H as ->. auto.
    + injection H as <- _. unfold ascii_digit in Hc'. lia.
  - destruct Ha' as [|c' a' Hc' Ha']; simpl in H.
    + injection H as -> _. unfold ascii_digit in Hc. lia.
    + injection H as -> H. destruct (IH a' Ha' H) as [-> ->]. auto.
Qed.

(** X17: the file name of a downloaded image tells the product and the
    position of the image: two names are equal only for the same product
    index (not negative) and the same position, so within a run no image is
    saved over another. *)
Theorem image_filename_tells_images_apart
    (product_index product_index' : Z) (i i' : nat) (origin origin' ext ext' : str) :
  0 <= product_index -> 0 <= product_index' ->
  image_filename product_index i origin ext = image_filename product_index' i' origin' ext' ->
  product_index = product_index' /\ i = i'
  /\ origin ++ U "." ++ ext = origin' ++ U "." ++ ext'.
Proof.
  intros Hp Hp' H. unfold image_filename in H.
  apply app_inv_head in H.
  change (U "_") with [95%N] in H. cbn [app] in H.
  destruct (format_d_number 3 product_index Hp) as [N1 D1].
  destruct (format_d_number 3 product_index' Hp') as [N1' D1'].
  destruct (format_d_number 2 (Z.of_nat i + 1) ltac:(lia)) as [N2 D2].
  destruct (format_d_number 2 (Z.of_nat i' + 1) ltac:(lia)) as [N2' D2'].
  apply digits_then_underscore in H as [H1 H]; [|assumption..].
  apply digits_then_underscore in H as [H2 H]; [|assumption..].
  rewrite H1 in N1. rewrite H2 in N2.
  split; [lia|]. split; [lia|exact H].
Qed.

(** One name for one image; the first and the eleventh image of product
    7, both from the img-tag pass and both jpg, have different names. *)
Lemma first_and_eleventh_image_differ :
  (7 = 7 /\ 0%nat = 0%nat
   /\ U "img_tag" ++ U "." ++ U "jpg" = U "img_tag" ++ U "." ++ U "jpg")
  /\ image_filename 7 0 (U "img_tag") (U "jpg")
     <> image_filename 7 10 (U "img_tag") (U "jpg").
Proof.
  split.
  - apply (image_filename_tells_images_apart 7 7 0 0 (U "img_tag") (U "img_tag")
             (U "jpg") (U "jpg")); [lia|lia|reflexivity].
  - intros H.
    destruct (image_filename_tells_images_apart 7 7 0 10 (U "img_tag") (U "img_tag")
                (U "jpg") (U "jpg") ltac:(lia) ltac:(lia) H) as (_ & Hi & _).
    discriminate Hi.
Defined.

(** ** The downloads of [batch_1688.py] and [enhanced_1688.py] *)

Lemma file_extension_known (img_url : str) :
  In (Batch1688Crawler.file_extension img_url) [U "jpg"; U "jpeg"; U "png"; U "webp"].
Proof.
  unfold Batch1688Crawler.file_extension. cbv zeta.
  destruct (bool_decide _) eqn:E; [now apply bool_decide_eq_true in E|now left].
Qed.

Lemma fetch_from_fetches (requests_get : nat -> str -> option Outside.Response)
    (writable_image : nat -> str -> bool) (name : nat -> str -> str)
    (images_data : list image_info) :
  forall (i : nat) (events : list download_event),
    let r := Batch1688Crawler.fetch_from requests_get writable_image name i images_data events in
    requested r = requested events ++ map info_url images_data
    /\ (length (saved r) <= length (saved events) + length images_data)%nat
    /\ forall filename bytes, In (filename, bytes) (saved r) ->
         In (filename, bytes) (saved events)
         \/ exists j img_data response ext,
              images_data !! j = Some img_data
              /\ requests_get (i + j)%nat (info_url img_data) = Some response
              /\ Outside.status_code response = 200
              /\ bytes = Outside.content response
              /\ In ext [U "jpg"; U "jpeg"; U "png"; U "webp"]
              /\ filename = name (i + j)%nat ext.
Proof.
  induction images_data as [|img_data images_data IH]; intros i events; cbv zeta.
  - simpl. rewrite app_nil_r. repeat split; [lia|auto].
  - cbn [Batch1688Crawler.fetch_from].
    specialize (IH (S i) (Batch1688Crawler.fetch_image requests_get writable_image name i
                            img_data events)).
    cbv zeta in IH. destruct IH as (H1 & H2 & H3).
    assert (requested (Batch1688Crawler.fetch_image requests_get writable_image name i
                         img_data events)
            = requested events ++ [info_url img_data]
            /\ (saved (Batch1688Crawler.fetch_image requests_get writable_image name i
                         img_data events) = saved events
                \/ exists response,
                     requests_get i (info_url img_data) = Some response
                     /\ Outside.status_code response = 200
                     /\ saved (Batch1688Crawler.fetch_image requests_get writable_image name i
                                 img_data events)
                        = saved events
                          ++ [(name i (Batch1688Crawler.file_extension (info_url img_data)),
                               Outside.content response)])) as (S1 & S2).
    { unfold Batch1688Crawler.fetch_image. cbv zeta.
      destruct (requests_get i (info_url img_data)) as [response|] eqn:Hget.
      - destruct (Outside.status_code response =? 200) eqn:Hstatus.
        + destruct (writable_image i _) eqn:Hw.
          * unfold requested, saved. rewrite !omap_app. cbn [omap list_omap].
            rewrite !app_nil_r. split; [reflexivity|].
            right. exists response. apply Z.eqb_eq in Hstatus. auto.
          * unfold requested, saved. rewrite !omap_app. cbn [omap list_omap].
            rewrite !app_nil_r. split; [reflexivity|]. now left.
        + unfold requested, saved. rewrite !omap_app. cbn [omap list_omap].
          rewrite !app_nil_r. split; [reflexivity|]. now left.
      - unfold requested, saved. rewrite !omap_app. cbn [omap list_omap].
        rewrite !app_nil_r. split; [reflexivity|]. now left. }
    split; [rewrite H1, S1, <- app_assoc; reflexivity|].
    split.
    { destruct S2 as [S2|(response & _ & _ & S2)]; rewrite S2 in H2;
        [|rewrite length_app in H2]; simpl in *; lia. }
    intros filename bytes Hin.
    apply H3 in Hin as [Hin|(j & d & response & ext & Hj & Hget & Hst & Hb & He & Hn)].
    + destruct S2 as [S2|(response & Hget & Hst & S2)]; rewrite S2 in Hin; [now left|].
      apply in_app_or in Hin as [Hin|[[= <- <-]|[]]]; [now left|].
      right. exists 0%nat, img_data, response,
               (Batch1688Crawler.file_extension (info_url img_data)).
      rewrite Nat.add_0_r. split_and!; auto. apply file_extension_known.
    + right. exists (S j), d, response, ext.
      replace (i + S j)%nat with (S i + j)%nat by lia. split_and!; auto.
Qed.

(** X18: [Batch1688Crawler.download_product_images] asks for the first
    three images of a product and for no other, [download_images] of
    [enhanced_1688.py] for the first five; each asks once per image, in
    order, and saves a file only for a response with status 200, named
    after the position of the image with the extension jpg, jpeg, png or
    webp. *)
Theorem downloads_are_capped
    (requests_get : nat -> str -> option Outside.Response)
    (writable_image : nat -> str -> bool) (session_timestamp : str)
    (images_data : list image_info) (product_index : Z) :
  fetches requests_get (Batch1688Crawler.image_filename session_timestamp product_index)
    (take 3 images_data)
    (Batch1688Crawler.download_product_images requests_get writable_image session_timestamp
       images_data product_index)
  /\ fetches requests_get (Enhanced1688Crawler.image_filename session_timestamp)
       (take 5 images_data)
       (Enhanced1688Crawler.download_images requests_get writable_image session_timestamp
          images_data).
Proof.
  split.
  - destruct (fetch_from_fetches requests_get writable_image
                (Batch1688Crawler.image_filename session_timestamp product_index)
                (take 3 images_data) 0 []) as (H1 & H2 & H3).
    split; [exact H1|]. split; [exact H2|].
    intros filename bytes Hin. apply H3 in Hin as [[]|Hin]. exact Hin.
  - destruct (fetch_from_fetches requests_get writable_image
                (Enhanced1688Crawler.image_filename session_timestamp)
                (take 5 images_data) 0 []) as (H1 & H2 & H3).
    split; [exact H1|]. split; [exact H2|].
    intros filename bytes Hin. apply H3 in Hin as [[]|Hin]. exact Hin.
Qed.

(** Of four images three are fetched; the first two are saved as jpg, one
    because its URL ends in a query with a dot, one because its extension
    is written in upper case. *)
Lemma three_of_four_are_fetched :
  saved (Batch1688Crawler.download_product_images every_answer (fun _ _ => true)
           (U "20250101_000000") four_infos 2)
  = [(U "images/batch_20250101_000000_product_002_1.jpg", [0%N]);
     (U "images/batch_20250101_000000_product_002_2.jpg", [1%N]);
     (U "images/batch_20250101_000000_product_002_3.webp", [2%N])]
  /\ requested (Batch1688Crawler.download_product_images every_answer (fun _ _ => true)
                  (U "20250101_000000") four_infos 2)
     = map info_url (take 3 four_infos).
Proof.
  split; [vm_compute; reflexivity|].
  exact (proj1 (proj1 (downloads_are_capped every_answer (fun _ _ => true)
                         (U "20250101_000000") four_infos 2))).
Defined.

(** ** The image list of [enhanced_1688.py] *)

Lemma enhanced_collect_infos_take (img_elements : list Img) (images : list image_info) :
  (length images < 10)%nat ->
  Enhanced1688Crawler.collect_infos img_elements images
  = take 10 (images ++ omap usable_info img_elements).
Proof.
  revert images. induction img_elements as [|img l IH]; intros images Hlen.
  - simpl. rewrite app_nil_r, take_ge by lia. reflexivity.
  - cbn [Enhanced1688Crawler.collect_infos omap list_omap]. unfold usable_info at 1.
    destruct (Batch1688Crawler.info_entry img) as [[i|]|]; try now apply IH.
    destruct (10 <=? length (images ++ [i]))%nat eqn:E.
    + apply Nat.leb_le in E. rewrite length_app in E. simpl in E.
      replace (images ++ i :: omap usable_info l) with ((images ++ [i]) ++ omap usable_info l)
        by (now rewrite <- app_assoc).
      rewrite take_app_le by (rewrite length_app; simpl; lia).
      rewrite take_ge by (rewrite length_app; simpl; lia). reflexivity.
    + apply Nat.leb_gt in E. rewrite IH by assumption.
      now rewrite <- app_assoc.
Qed.

(** X19: [Enhanced1688Crawler.extract_images] returns the entries of the
    first ten usable [img] elements, in document order; it agrees with the
    list of [batch_1688.py] on its first eight entries. *)
Theorem enhanced_extract_images_first_ten (p : Page) :
  (length (Enhanced1688Crawler.extract_images p) <= 10)%nat
  /\ Enhanced1688Crawler.extract_images p
     = match imgs p with
       | Ok img_elements => take 10 (omap usable_info img_elements)
       | Raise _ => []
       end
  /\ Batch1688Crawler.extract_images p = take 8 (Enhanced1688Crawler.extract_images p).
Proof.
  assert (Enhanced1688Crawler.extract_images p
          = match imgs p with
            | Ok img_elements => take 10 (omap usable_info img_elements)
            | Raise _ => []
            end) as Heq.
  { unfold Enhanced1688Crawler.extract_images.
    destruct (imgs p) as [img_elements|]; [|reflexivity].
    apply (enhanced_collect_infos_take img_elements []). simpl. lia. }
  split; [|split; [exact Heq|]].
  - rewrite Heq. destruct (imgs p); [|simpl; lia].
    rewrite length_take. apply Nat.le_min_l.
  - rewrite Heq. unfold Batch1688Crawler.extract_images.
    destruct (imgs p) as [img_elements|]; [|reflexivity].
    rewrite (collect_infos_take img_elements []) by (simpl; lia).
    rewrite take_take. reflexivity.
Qed.

(** ** The files of a batch *)

Lemma written_app (a b : list event) : written (a ++ b) = written a ++ written b.
Proof. apply omap_app. Qed.

Lemma leaves_files_refl (w : World) : leaves_files w w.
Proof. split; [reflexivity|]. exists []. now rewrite app_nil_r. Qed.

Lemma leaves_files_trans (w w1 w2 : World) :
  leaves_files w w1 -> leaves_files w1 w2 -> leaves_files w w2.
Proof.
  intros [H1 (e1 & T1 & W1)] [H2 (e2 & T2 & W2)]. split; [congruence|].
  exists (e1 ++ e2). rewrite T2, T1, <- app_assoc, written_app, W1, W2. auto.
Qed.

Lemma leaves_files_emit (e : event) (w : World) :
  written [e] = [] -> leaves_files w (emit e w).
Proof. intros H. split; [reflexivity|]. exists [e]. auto. Qed.

Lemma writes_no_file_ret {A} (a : A) : writes_no_file (mret a).
Proof. intros w. apply leaves_files_refl. Qed.

Lemma writes_no_file_bind {A B} (m : M A) (f : A -> M B) :
  writes_no_file m -> (forall a, writes_no_file (f a)) -> writes_no_file (m ≫= f).
Proof.
  intros Hm Hf w. specialize (Hm w). unfold outcome, mbind, M_bind in *.
  destruct (m w) as [a w1|e w1|]; auto.
  specialize (Hf a w1). unfold outcome in Hf.
  destruct (f a w1); auto; eapply leaves_files_trans; eauto.
Qed.

Lemma writes_no_file_try {A} (m : M A) (handler : exn -> M A) :
  writes_no_file m -> (forall e, writes_no_file (handler e)) ->
  writes_no_file (try_except m handler).
Proof.
  intros Hm Hh w. specialize (Hm w). unfold outcome, try_except in *.
  destruct (m w) as [a w1|e w1|]; auto.
  specialize (Hh e w1). unfold outcome in Hh.
  destruct (handler e w1); auto; eapply leaves_files_trans; eauto.
Qed.

Lemma writes_no_file_lift {A} (x : Exc A) : writes_no_file (lift x).
Proof. intros w. apply outcome_lift. destruct x; apply leaves_files_refl. Qed.

Lemma writes_no_file_tell (e : event) : written [e] = [] -> writes_no_file (tell e).
Proof. intros H w. now apply leaves_files_emit. Qed.

Lemma writes_no_file_page : writes_no_file page.
Proof. intros w. apply leaves_files_refl. Qed.

Lemma writes_no_file_isoformat_now : writes_no_file isoformat_now.
Proof. intros w. apply leaves_files_refl. Qed.

Lemma writes_no_file_sleep (lo hi : Z) : writes_no_file (sleep lo hi).
Proof. now apply writes_no_file_tell. Qed.

Lemma writes_no_file_execute_script (s : script) : writes_no_file (execute_script s).
Proof.
  intros w. unfold outcome, execute_script.
  destruct (execute (session w) s); now apply leaves_files_emit.
Qed.

Lemma writes_no_file_randint (a b : Z) : writes_no_file (randint a b).
Proof.
  intros w. unfold outcome, randint.
  destruct (random w); [apply leaves_files_refl|].
  split; [reflexivity|]. exists []. simpl. now rewrite app_nil_r.
Qed.

Lemma writes_no_file_input : writes_no_file input.
Proof.
  intros w. unfold outcome, input.
  assert (leaves_files w (answered (emit Prompt w))) as H.
  { split; [reflexivity|]. now exists [Prompt]. }
  destruct (stdin w) as [|[s| |] answers]; auto.
Qed.

Lemma writes_no_file_driver_get (u : str) : writes_no_file (driver_get u).
Proof.
  intros w. unfold outcome, driver_get.
  destruct (web w (time w) u); (split; [reflexivity|]); now exists [Navigate u].
Qed.

Lemma writes_no_file_wait_for_captcha (keywords : list str) :
  writes_no_file (wait_for_captcha keywords).
Proof.
  induction keywords as [|keyword keywords IH]; [apply writes_no_file_ret|].
  cbn [wait_for_captcha]. apply writes_no_file_bind.
  - apply writes_no_file_try; [|intros _; apply writes_no_file_ret].
    unfold check_keyword.
    apply writes_no_file_bind; [apply writes_no_file_page|]. intros p.
    apply writes_no_file_bind; [apply writes_no_file_lift|]. intros [|e elements].
    + apply writes_no_file_ret.
    + apply writes_no_file_bind; [now apply writes_no_file_tell|]. intros _.
      apply writes_no_file_bind; [apply writes_no_file_input|]. intros _.
      apply writes_no_file_ret.
  - intros [|]; [apply writes_no_file_ret|exact IH].
Qed.

Lemma writes_no_file_repeat (n : nat) (m : M unit) :
  writes_no_file m -> writes_no_file (repeat_m n m).
Proof.
  intros Hm. induction n as [|n IH]; simpl; [apply writes_no_file_ret|].
  apply writes_no_file_bind; auto.
Qed.

Lemma writes_no_file_simulate (most far : Z) (pause rest : Z * Z) :
  writes_no_file (simulate most far pause rest).
Proof.
  unfold simulate. apply writes_no_file_bind; [apply writes_no_file_randint|]. intros n.
  apply writes_no_file_bind; [|intros _; apply writes_no_file_sleep].
  apply writes_no_file_repeat.
  apply writes_no_file_bind; [apply writes_no_file_randint|]. intros y.
  apply writes_no_file_bind; [apply writes_no_file_execute_script|]. intros _.
  apply writes_no_file_sleep.
Qed.

Lemma writes_no_file_scroll_down (fuel : nat) :
  forall viewport_height page_height current_position,
    writes_no_file (scroll_down fuel viewport_height page_height current_position).
Proof.
  induction fuel as [|fuel IH]; intros v h pos; cbn [scroll_down];
    destruct (pos <? h)%N; try apply writes_no_file_ret.
  - intros w. exact I.
  - apply writes_no_file_bind; [apply writes_no_file_execute_script|]. intros _.
    apply writes_no_file_bind; [apply writes_no_file_sleep|]. intros _. apply IH.
Qed.

Lemma writes_no_file_scroll_to_load_images : writes_no_file scroll_to_load_images.
Proof.
  unfold scroll_to_load_images.
  apply writes_no_file_try; [|intros _; apply writes_no_file_ret].
  apply writes_no_file_bind; [apply writes_no_file_execute_script|]. intros _.
  apply writes_no_file_bind; [apply writes_no_file_sleep|]. intros _.
  apply writes_no_file_bind; [apply writes_no_file_execute_script|]. intros _.
  apply writes_no_file_bind; [apply writes_no_file_sleep|]. intros _.
  apply writes_no_file_bind; [apply writes_no_file_execute_script|]. intros v.
  apply writes_no_file_bind; [apply writes_no_file_execute_script|]. intros h.
  apply writes_no_file_scroll_down.
Qed.

Lemma writes_no_file_extract_images : writes_no_file extract_images.
Proof.
  unfold extract_images.
  apply writes_no_file_try; [|intros _; apply writes_no_file_ret].
  apply writes_no_file_bind; [|intros [|i images]; apply writes_no_file_ret].
  unfold discover_images.
  apply writes_no_file_bind; [apply writes_no_file_page|]. intros p.
  apply writes_no_file_bind; [apply writes_no_file_lift|]. intros img_elements.
  apply writes_no_file_bind; [apply writes_no_file_scroll_to_load_images|]. intros _.
  apply writes_no_file_bind; [apply writes_no_file_sleep|]. intros _.
  apply writes_no_file_bind; [apply writes_no_file_page|]. intros p1.
  apply writes_no_file_bind; [apply writes_no_file_lift|]. intros new_img_elements.
  apply writes_no_file_ret.
Qed.

Lemma writes_no_file_simple_pipeline (list_of_set : list str -> list str) (u : str)
    (index : Z) :
  writes_no_file (SimpleBatch1688.extract_single_product list_of_set u index).
Proof.
  unfold SimpleBatch1688.extract_single_product.
  apply writes_no_file_try; [|intros _; apply writes_no_file_ret].
  apply writes_no_file_bind; [apply writes_no_file_driver_get|]. intros _.
  apply writes_no_file_bind; [apply writes_no_file_sleep|]. intros _.
  apply writes_no_file_bind; [apply writes_no_file_wait_for_captcha|]. intros blocked.
  apply writes_no_file_bind;
    [destruct blocked; [apply writes_no_file_sleep|apply writes_no_file_ret]|]. intros _.
  apply writes_no_file_bind; [apply writes_no_file_simulate|]. intros _.
  apply writes_no_file_bind; [apply writes_no_file_page|]. intros p.
  apply writes_no_file_bind; [apply writes_no_file_lift|]. intros here.
  apply writes_no_file_bind; [apply writes_no_file_isoformat_now|]. intros timestamp.
  apply writes_no_file_bind; [apply writes_no_file_extract_images|]. intros images.
  apply writes_no_file_bind; [apply writes_no_file_page|]. intros p1.
  apply writes_no_file_ret.
Qed.

Section Files.

Variable gate : M bool.
Variable pipeline : str -> Z -> M (option product).

Hypothesis gate_writes_no_file : writes_no_file gate.
Hypothesis pipeline_writes_no_file : forall u index, writes_no_file (pipeline u index).
Hypothesis pipeline_indexes : forall u index w,
  outcome (pipeline u index) w
    (fun r _ => forall d, r = Some d -> d <> ∅ /\ index_of d = index)
    (fun _ _ => True) True.

(** One target: a record appended is saved under its index. *)
Lemma process_one_files (total_urls index : Z) (u : str)
    (successful_count : Z) (failed_urls : list (Z * str)) (w w1 : World)
    (counters : Z * list (Z * str)) :
  try_except (Batch.process_one pipeline total_urls index u successful_count failed_urls)
             (fun _ => mret (successful_count, failed_urls ++ [(index, u)])) w
  = Ret counters w1 ->
  exists appended events,
    all_products_data w1 = all_products_data w ++ appended
    /\ trace w1 = trace w ++ events
    /\ written events = map (fun d => ProductJson (index_of d) d) appended.
Proof.
  pose proof (pipeline_writes_no_file u index w) as Hs.
  pose proof (pipeline_indexes u index w) as Hi.
  unfold try_except, Batch.process_one, mbind, M_bind, outcome in *.
  destruct (pipeline u index w) as [r w'|e w'|]; [| |discriminate].
  - destruct Hs as [Hp (ev & Ht & Hw)]. unfold Batch.processed.
    destruct r as [d|].
    + destruct (Hi d eq_refl) as [Hne Hidx].
      rewrite bool_decide_eq_false_2 by assumption.
      unfold append, Batch.save_single_product, write_file, sleep, tell, mret, M_ret.
      destruct (index <? total_urls); intros [= <- <-]; exists [d]; eexists;
        (split; [simpl; now rewrite Hp|]);
        (split; [simpl; rewrite Ht, <- !app_assoc; reflexivity|]);
        rewrite written_app, Hw; cbn [map]; rewrite Hidx; reflexivity.
    + unfold sleep, tell, mret, M_ret.
      destruct (index <? total_urls); intros [= <- <-]; exists []; eexists;
        (split; [simpl; now rewrite Hp, app_nil_r|]).
      * split; [simpl; rewrite Ht, <- app_assoc; reflexivity|].
        rewrite written_app, Hw. reflexivity.
      * split; [exact Ht|exact Hw].
  - destruct Hs as [Hp (ev & Ht & Hw)]. unfold mret, M_ret. intros [= <- <-].
    exists [], ev. rewrite app_nil_r. auto.
Qed.

Lemma process_urls_files (total_urls : Z) (urls : list str) :
  forall (index successful_count : Z) (failed_urls : list (Z * str)) (w w1 : World)
         (counters : Z * list (Z * str)),
    Batch.process_urls pipeline total_urls index urls successful_count failed_urls w
    = Ret counters w1 ->
    exists appended events,
      all_products_data w1 = all_products_data w ++ appended
      /\ trace w1 = trace w ++ events
      /\ written events = map (fun d => ProductJson (index_of d) d) appended.
Proof.
  induction urls as [|u urls IH]; intros index successful_count failed_urls w w1 counters.
  - simpl. unfold mret, M_ret. intros [= <- <-]. exists [], [].
    now rewrite !app_nil_r.
  - cbn [Batch.process_urls]. unfold mbind, M_bind at 1.
    destruct (try_except _ _ w) as [counters1 w2|e w2|] eqn:Hone; try discriminate.
    intros Hrest.
    apply process_one_files in Hone as (a1 & e1 & Hp1 & Ht1 & Hw1).
    apply IH in Hrest as (a2 & e2 & Hp2 & Ht2 & Hw2).
    exists (a1 ++ a2), (e1 ++ e2).
    rewrite Hp2, Hp1, Ht2, Ht1, <- !app_assoc, written_app, Hw1, Hw2, map_app. auto.
Qed.

Lemma process_all_urls_files (urls : list str) (w w1 : World) (results : list product) :
  Batch.process_all_urls gate pipeline urls w = Ret results w1 ->
  exists appended events,
    results = all_products_data w ++ appended
    /\ trace w1 = trace w ++ events
    /\ batch_files appended results (written events)
    /\ forall ok, In (Write (BatchCsv results) ok) events ->
                  In (Write (BatchJson results) true) events.
Proof.
  unfold Batch.process_all_urls, mbind, M_bind, driver_get, sleep, tell.
  destruct (web w (time w) Batch.home) as [s|]; [|discriminate].
  set (w0 := emit (Sleep 30 60) (load s (emit (Navigate Batch.home) w))).
  pose proof (gate_writes_no_file w0) as Hg. unfold outcome in Hg.
  destruct (gate w0) as [blocked w2|e w2|]; try discriminate.
  destruct Hg as [Hp2 (e2 & Ht2 & Hw2)].
  destruct (Batch.process_urls pipeline (Z.of_nat (length urls)) 1 urls 0 [] w2)
    as [counters w3|e w3|] eqn:Hloop; try discriminate.
  apply process_urls_files in Hloop as (appended & e3 & Hp3 & Ht3 & Hw3).
  unfold Batch.print_summary, mbind, M_bind, tell.
  set (w4 := emit (Summary (fst counters) (Z.of_nat (length urls)) (snd counters)) w3).
  destruct (Z.of_nat (length urls) =? 0); [discriminate|].
  unfold mret, M_ret, products.
  assert (all_products_data w4 = all_products_data w ++ appended) as Hp4.
  { simpl. rewrite Hp3, Hp2. reflexivity. }
  assert (trace w4 = trace w ++ [Navigate Batch.home; Sleep 30 60] ++ e2 ++ e3
                     ++ [Summary (fst counters) (Z.of_nat (length urls)) (snd counters)])
    as Ht4.
  { simpl. rewrite Ht3, Ht2. simpl. rewrite <- !app_assoc. reflexivity. }
  assert (written ([Navigate Batch.home; Sleep 30 60] ++ e2 ++ e3
                   ++ [Summary (fst counters) (Z.of_nat (length urls)) (snd counters)])
          = map (fun d => ProductJson (index_of d) d) appended) as Hw4.
  { rewrite !written_app, Hw2, Hw3. simpl. now rewrite app_nil_r. }
  assert (forall data ok,
            ~ In (Write (BatchCsv data) ok)
                 ([Navigate Batch.home; Sleep 30 60] ++ e2 ++ e3
                  ++ [Summary (fst counters) (Z.of_nat (length urls)) (snd counters)]))
    as Hnone.
  { intros data ok Hin.
    assert (In (BatchCsv data) (map (fun d => ProductJson (index_of d) d) appended)) as Hbad.
    { rewrite <- Hw4. unfold written. apply list_elem_of_In, list_elem_of_omap.
      exists (Write (BatchCsv data) ok).
      split; [now apply list_elem_of_In|reflexivity]. }
    apply in_map_iff in Hbad as (d & [=] & _). }
  cbn beta iota. clearbody w4.
  set (before := [Navigate Batch.home; Sleep 30 60] ++ e2 ++ e3
                 ++ [Summary (fst counters) (Z.of_nat (length urls)) (snd counters)]) in *.
  clearbody before.
  destruct (all_products_data w4) as [|d0 ds] eqn:Hd; rewrite <- Hd in Hp4.
  - intros [= <- <-]. exists appended, before.
    split; [exact Hp4|]. split; [exact Ht4|]. split.
    + exists []. rewrite app_nil_r, Hd. auto.
    + intros ok Hin. exfalso. exact (Hnone _ _ Hin).
  - unfold Batch.save_batch_results, write_file.
    destruct (writable w4 (time w4)); intros [= <- <-]; exists appended.
    + eexists (before ++ [Write (BatchJson (all_products_data w4)) true;
                          Write (BatchCsv (all_products_data w4)) _]).
      split; [exact Hp4|].
      split; [simpl; rewrite Ht4, <- !app_assoc; reflexivity|]. split.
      * eexists. rewrite written_app, Hw4. split; [reflexivity|].
        rewrite Hd. right. reflexivity.
      * intros ok Hin. apply in_or_app. right. now left.
    + exists (before ++ [Write (BatchJson (all_products_data w4)) false]).
      split; [exact Hp4|].
      split; [simpl; rewrite Ht4, <- !app_assoc; reflexivity|]. split.
      * eexists. rewrite written_app, Hw4. split; [reflexivity|].
        rewrite Hd. left. reflexivity.
      * intros ok Hin. exfalso.
        apply in_app_or in Hin as [Hin|[[=]|[]]]. exact (Hnone _ _ Hin).
Qed.

End Files.

(** X20: a batch of [simple_batch_1688.py] over at least one target, after
    a successful warm-up and in a world where every run ends, returns the
    results with the records of this run appended, and writes one product
    file for each appended record, under the index of the record and in the
    order of the results, and no other product file; a target that fails
    writes nothing. At the end, when the results are not empty, it writes
    the JSON file of the batch and then the CSV summary, the summary only
    if the JSON file could be written. *)
Theorem batch_saves_what_it_appends (list_of_set : list str -> list str) :
  saves_its_records (SimpleBatch1688.process_all_urls list_of_set).
Proof.
  intros urls w Hends Hwarm Hne.
  assert (forall u index w0,
            outcome (SimpleBatch1688.extract_single_product list_of_set u index) w0
              (fun r _ => forall d, r = Some d -> d <> ∅ /\ index_of d = index)
              (fun _ _ => True) True) as Hidx.
  { intros u index w0.
    eapply outcome_weaken; [apply simple_pipeline_record| | |auto]; simpl; [|auto].
    intros r _ Hr d Hd. destruct (Hr d Hd) as (_ & Hshape). now apply shape_index. }
  pose proof (process_all_urls_accounts SimpleBatch1688.wait_and_handle_captcha
                (SimpleBatch1688.extract_single_product list_of_set)
                (wait_for_captcha_returns SimpleBatch1688.captcha_keywords)
                (behaves_simple_pipeline list_of_set) Hidx urls w Hends Hwarm) as Hrun.
  unfold SimpleBatch1688.process_all_urls.
  destruct (Batch.process_all_urls SimpleBatch1688.wait_and_handle_captcha
              (SimpleBatch1688.extract_single_product list_of_set) urls w)
    as [results w1|e w1|] eqn:Heq; [|destruct Hrun as [Hnil _]; contradiction|contradiction].
  destruct (process_all_urls_files SimpleBatch1688.wait_and_handle_captcha
              (SimpleBatch1688.extract_single_product list_of_set)
              (writes_no_file_wait_for_captcha SimpleBatch1688.captcha_keywords)
              (writes_no_file_simple_pipeline list_of_set) Hidx urls w w1 results Heq)
    as (appended & events & H1 & H2 & H3 & H4).
  exists results, w1, appended, events. auto.
Qed.

(** One target on a blank document: the batch returns, and its files are
    the product files of what it appended and the files of the batch. *)
Lemma one_target_batch_is_saved :
  exists results w1 appended events,
    SimpleBatch1688.process_all_urls first_occurrences [sample_target]
      (world_of (still blank_page working_scripts) [])
    = Ret results w1
    /\ results = all_products_data (world_of (still blank_page working_scripts) []) ++ appended
    /\ trace w1 = trace (world_of (still blank_page working_scripts) []) ++ events
    /\ batch_files appended results (written events)
    /\ forall ok, In (Write (BatchCsv results) ok) events ->
                  In (Write (BatchJson results) true) events.
Proof.
  apply (batch_saves_what_it_appends first_occurrences [sample_target]
           (world_of (still blank_page working_scripts) [])).
  - split; [intros []|]. intros t u s [= <-]. discriminate.
  - eexists. reflexivity.
  - discriminate.
Defined.
